(** * CRM-Service: the request pipeline, embedded and verified

    A shallow embedding of the authorization middleware, the role and
    permission table, the pagination block of the list endpoints and the
    customer, contact and deal handlers of the CRM service, followed by
    the properties of the specification that concern them.

    Conventions.
    - Go's [int] is the 64-bit two's complement integer, carried in [Z];
      the one place where a product can leave the range writes the
      wrap-around out ([wrap_int]).  [uint] identifiers are carried in [N].
    - Instants ([time.Time]) are carried in [Z]; a nullable column or a
      pointer field is an [option].
    - A table is the list of its rows in insertion order; the database
      record carries one sequence per table for the SERIAL keys.
    - Every handler is a total function from the request context and the
      database to the context (with the response written) and the
      database. *)

From Stdlib Require Import ZArith NArith List String Ascii Bool Lia.
From stdpp Require Import base option list strings gmap sorting.

Local Open Scope string_scope.
Local Open Scope list_scope.
Local Open Scope Z_scope.

(** ** strconv: the decimal parsers the handlers call *)

Module strconv.

Inductive NumError := ErrSyntax | ErrRange.

Definition maxUint64 : Z := 2 ^ 64 - 1.
Definition maxInt64 : Z := 2 ^ 63 - 1.
Definition minInt64 : Z := - 2 ^ 63.

Definition digit (c : ascii) : option Z :=
  let n := Z.of_N (N_of_ascii c) in
  if (48 <=? n) && (n <=? 57) then Some (n - 48) else None.

(** The digit loop of [ParseUint] in base 10: a byte that is no digit is
    a syntax error, a value above [maxVal] a range error that returns
    [maxVal] at once. *)
Fixpoint parseDigits (maxVal : Z) (s : string) (n : Z) : Z * option NumError :=
  match s with
  | EmptyString => (n, None)
  | String c rest =>
      match digit c with
      | None => (0, Some ErrSyntax)
      | Some d =>
          let n1 := n * 10 + d in
          if maxVal <? n1 then (maxVal, Some ErrRange)
          else parseDigits maxVal rest n1
      end
  end.

(** [ParseUint(s, 10, bitSize)] *)
Definition ParseUint (s : string) (bitSize : Z) : Z * option NumError :=
  match s with
  | EmptyString => (0, Some ErrSyntax)
  | _ => parseDigits (2 ^ bitSize - 1) s 0
  end.

(** [ParseInt(s, 10, 0)]: an optional sign, then [ParseUint]; a syntax
    error gives 0, a value out of range the nearest bound. *)
Definition ParseInt (s : string) : Z * option NumError :=
  match s with
  | EmptyString => (0, Some ErrSyntax)
  | String c rest =>
      let neg := Ascii.eqb c "-" in
      let s' := if Ascii.eqb c "+" || neg then rest else s in
      let '(un, err) := ParseUint s' 64 in
      match err with
      | Some ErrSyntax => (0, Some ErrSyntax)
      | _ =>
          let cutoff := 2 ^ 63 in
          if negb neg && (cutoff <=? un) then (cutoff - 1, Some ErrRange)
          else if neg && (cutoff <? un) then (- cutoff, Some ErrRange)
          else (if neg then - un else un, None)
      end
  end.

(** [Atoi(s)] is [ParseInt(s, 10, 0)]; its fast path for short strings
    returns the same values. *)
Definition Atoi (s : string) : Z * option NumError := ParseInt s.

End strconv.

(** Go's [int] arithmetic wraps around silently. *)
Definition wrap_int (z : Z) : Z := (z + 2 ^ 63) mod 2 ^ 64 - 2 ^ 63.

(** ** models *)

Module models.

(** *** user.go *)

Record User := {
  User_ID : N;
  User_Email : string;
  User_Name : string;
  User_Role : string;
  User_IsActive : bool
}.

Definition zeroUser : User :=
  {| User_ID := 0%N; User_Email := ""; User_Name := ""; User_Role := "";
     User_IsActive := false |}.

Definition RoleAdmin := "admin".
Definition RoleManager := "manager".
Definition RoleAgent := "agent".

Definition PermissionRead := "read".
Definition PermissionWrite := "write".
Definition PermissionDelete := "delete".
Definition PermissionManageAll := "manage_all".
Definition PermissionManageOwn := "manage_own".

Definition RolePermissions : gmap string (list string) :=
  <[RoleAdmin := [PermissionRead; PermissionWrite; PermissionDelete; PermissionManageAll]]>
  (<[RoleManager := [PermissionRead; PermissionWrite; PermissionDelete; PermissionManageAll]]>
  (<[RoleAgent := [PermissionRead; PermissionWrite; PermissionManageOwn]]> ∅)).

Definition HasPermission (role permission : string) : bool :=
  match RolePermissions !! role with
  | None => false
  | Some permissions => existsb (fun p => String.eqb p permission) permissions
  end.

Definition CanManageAll (role : string) : bool :=
  HasPermission role PermissionManageAll.

(** *** customer.go, contact.go, deal.go, audit.go

    The rows as the tables hold them.  The relation fields of the Go
    structs ([Customer.Contacts], [Deal.Customer], ...) are filled by
    [Preload] on reads and are no columns; they are left out. *)

Record BaseModel := {
  ID : N;
  CreatedAt : Z;
  UpdatedAt : Z;
  DeletedAt : option Z
}.

Definition CustomerStatusLead := "lead".
Definition CustomerStatusProspect := "prospect".
Definition CustomerStatusActive := "active".
Definition CustomerStatusInactive := "inactive".
Definition CustomerStatusChurned := "churned".

Record Customer := {
  Customer_Base : BaseModel;
  Customer_Name : string;
  Customer_Email : string;
  Customer_Phone : string;
  Customer_Company : string;
  Customer_Role : string;
  Customer_Status : string;
  Customer_AssignedTo : option N;
  Customer_Contacted : bool;
  Customer_NextFollowUpAt : option Z;
  Customer_Notes : string
}.

Record Contact := {
  Contact_Base : BaseModel;
  Contact_CustomerID : N;
  Contact_FirstName : string;
  Contact_LastName : string;
  Contact_Email : string;
  Contact_Phone : string;
  Contact_Position : string;
  Contact_IsPrimary : bool;
  Contact_Notes : string
}.

Definition DealStageProspecting := "prospecting".
Definition DealStageQualification := "qualification".
Definition DealStageProposal := "proposal".
Definition DealStageNegotiation := "negotiation".
Definition DealStageClosedWon := "closed_won".
Definition DealStageClosedLost := "closed_lost".

Definition ValidDealStages : list string :=
  [DealStageProspecting; DealStageQualification; DealStageProposal;
   DealStageNegotiation; DealStageClosedWon; DealStageClosedLost].

Definition IsValidDealStage (stage : string) : bool :=
  existsb (fun s => String.eqb s stage) ValidDealStages.

(** [Deal_Amount] is the [decimal(15,2)] column, counted in hundredths;
    no handler below computes with it. *)
Record Deal := {
  Deal_Base : BaseModel;
  Deal_Title : string;
  Deal_Description : string;
  Deal_CustomerID : N;
  Deal_ContactID : option N;
  Deal_Stage : string;
  Deal_Amount : Z;
  Deal_Currency : string;
  Deal_Probability : Z;
  Deal_ExpectedCloseDate : option Z;
  Deal_ActualCloseDate : option Z;
  Deal_OwnerID : option N;
  Deal_LostReason : string
}.

Definition AuditActionCreate := "create".
Definition AuditActionUpdate := "update".
Definition AuditActionDelete := "delete".

Record AuditLog := {
  AuditLog_ID : N;
  AuditLog_ResourceType : string;
  AuditLog_ResourceID : N;
  AuditLog_Action : string;
  AuditLog_UserID : N;
  AuditLog_UserName : string;
  AuditLog_UserRole : string;
  AuditLog_OldValues : string;
  AuditLog_NewValues : string;
  AuditLog_IPAddress : string;
  AuditLog_UserAgent : string;
  AuditLog_CreatedAt : Z
}.

Record CustomerListResponse := {
  CustomerList_Data : list Customer;
  CustomerList_Total : Z;
  CustomerList_Page : Z;
  CustomerList_PageSize : Z;
  CustomerList_TotalPages : Z
}.

Record DealListResponse := {
  DealList_Data : list Deal;
  DealList_Total : Z;
  DealList_Page : Z;
  DealList_PageSize : Z;
  DealList_TotalPages : Z
}.

End models.

(** ** The database, as gorm presents it to the handlers

    Every model embeds [BaseModel], so gorm soft-deletes: [Delete] stamps
    [deleted_at], and every query, update and count sees only the rows
    whose [deleted_at] is null.  [Create], [Save], [Update] and [Updates]
    maintain [created_at] and [updated_at] from the clock.  The column
    sizes and the unique index are those of the struct tags. *)

Module gorm.
Import models.

Record DB := {
  customers : list Customer;
  contacts : list Contact;
  deals : list Deal;
  customer_tags : list (N * N);
  audit_logs : list AuditLog;
  customers_seq : N;
  contacts_seq : N;
  deals_seq : N;
  audit_logs_seq : N
}.

Definition fits (size : nat) (s : string) : bool :=
  (String.length s <=? size)%nat.

Definition touch (now : Z) (b : BaseModel) : BaseModel :=
  {| ID := ID b; CreatedAt := CreatedAt b; UpdatedAt := now;
     DeletedAt := DeletedAt b |}.

Definition fresh (id : N) (now : Z) : BaseModel :=
  {| ID := id; CreatedAt := now; UpdatedAt := now; DeletedAt := None |}.

Definition tombstone (now : Z) (b : BaseModel) : BaseModel :=
  {| ID := ID b; CreatedAt := CreatedAt b; UpdatedAt := UpdatedAt b;
     DeletedAt := Some now |}.

Section table.
Context {A : Type} (base : A -> BaseModel) (with_base : BaseModel -> A -> A).

Definition live (r : A) : bool :=
  match DeletedAt (base r) with None => true | Some _ => false end.

Definition has_id (id : N) (r : A) : bool := (ID (base r) =? id)%N.

(** [db.First(&x, id)], and [db.Where(cond).First(&x)] *)
Definition FirstWhere (cond : A -> bool) (rows : list A) : option A :=
  List.find (fun r => live r && cond r) rows.

Definition First (rows : list A) (id : N) : option A :=
  FirstWhere (has_id id) rows.

(** [db.Model(&T{}).Where(cond).Update(column, value)]: every live row
    that satisfies the condition, with [updated_at]. *)
Definition UpdateWhere (cond : A -> bool) (set : A -> A) (now : Z)
    (rows : list A) : list A :=
  List.map (fun r => if live r && cond r
                     then with_base (touch now (base r)) (set r) else r) rows.

(** [db.Save(&x)]: all columns of the row with the key of [x]; [x]
    itself receives the new [updated_at]. *)
Definition Save (x : A) (now : Z) (rows : list A) : A * list A :=
  let x' := with_base (touch now (base x)) x in
  (x', List.map (fun r => if live r && has_id (ID (base x)) r then x' else r) rows).

(** [db.Create(&x)]: the key comes from the table's sequence. *)
Definition Create (x : A) (now : Z) (seq : N) (rows : list A) : A * list A * N :=
  let id := (seq + 1)%N in
  let x' := with_base (fresh id now) x in
  (x', rows ++ [x'], id).

(** [db.Delete(&x)] *)
Definition Delete (x : A) (now : Z) (rows : list A) : list A :=
  List.map (fun r => if live r && has_id (ID (base x)) r
                     then with_base (tombstone now (base r)) r else r) rows.
End table.

Definition Customer_with_Base (b : BaseModel) (c : Customer) : Customer :=
  {| Customer_Base := b; Customer_Name := Customer_Name c;
     Customer_Email := Customer_Email c; Customer_Phone := Customer_Phone c;
     Customer_Company := Customer_Company c; Customer_Role := Customer_Role c;
     Customer_Status := Customer_Status c;
     Customer_AssignedTo := Customer_AssignedTo c;
     Customer_Contacted := Customer_Contacted c;
     Customer_NextFollowUpAt := Customer_NextFollowUpAt c;
     Customer_Notes := Customer_Notes c |}.

Definition Contact_with_Base (b : BaseModel) (c : Contact) : Contact :=
  {| Contact_Base := b; Contact_CustomerID := Contact_CustomerID c;
     Contact_FirstName := Contact_FirstName c;
     Contact_LastName := Contact_LastName c; Contact_Email := Contact_Email c;
     Contact_Phone := Contact_Phone c; Contact_Position := Contact_Position c;
     Contact_IsPrimary := Contact_IsPrimary c; Contact_Notes := Contact_Notes c |}.

Definition Contact_with_IsPrimary (p : bool) (c : Contact) : Contact :=
  {| Contact_Base := Contact_Base c; Contact_CustomerID := Contact_CustomerID c;
     Contact_FirstName := Contact_FirstName c;
     Contact_LastName := Contact_LastName c; Contact_Email := Contact_Email c;
     Contact_Phone := Contact_Phone c; Contact_Position := Contact_Position c;
     Contact_IsPrimary := p; Contact_Notes := Contact_Notes c |}.

Definition Deal_with_Base (b : BaseModel) (d : Deal) : Deal :=
  {| Deal_Base := b; Deal_Title := Deal_Title d;
     Deal_Description := Deal_Description d; Deal_CustomerID := Deal_CustomerID d;
     Deal_ContactID := Deal_ContactID d; Deal_Stage := Deal_Stage d;
     Deal_Amount := Deal_Amount d; Deal_Currency := Deal_Currency d;
     Deal_Probability := Deal_Probability d;
     Deal_ExpectedCloseDate := Deal_ExpectedCloseDate d;
     Deal_ActualCloseDate := Deal_ActualCloseDate d;
     Deal_OwnerID := Deal_OwnerID d; Deal_LostReason := Deal_LostReason d |}.

(** The constraints of the tables: column sizes, the unique index on
    [customers.email] (over every row, deleted or not), and the foreign
    keys of [contacts] and [deals]. *)
Definition customer_columns_ok (c : Customer) : bool :=
  fits 255 (Customer_Name c) && fits 255 (Customer_Email c)
  && fits 50 (Customer_Phone c) && fits 255 (Customer_Company c)
  && fits 100 (Customer_Role c) && fits 50 (Customer_Status c).

Definition email_taken (email : string) (rows : list Customer) : bool :=
  existsb (fun r => String.eqb (Customer_Email r) email) rows.

Definition contact_columns_ok (c : Contact) : bool :=
  fits 100 (Contact_FirstName c) && fits 100 (Contact_LastName c)
  && fits 255 (Contact_Email c) && fits 50 (Contact_Phone c)
  && fits 100 (Contact_Position c).

Definition deal_columns_ok (d : Deal) : bool :=
  fits 255 (Deal_Title d) && fits 50 (Deal_Stage d)
  && fits 3 (Deal_Currency d) && fits 255 (Deal_LostReason d).

Definition row_exists {A : Type} (base : A -> BaseModel) (rows : list A) (id : N) : bool :=
  existsb (fun r => (ID (base r) =? id)%N) rows.

Definition deal_keys_ok (db : DB) (d : Deal) : bool :=
  row_exists Customer_Base (customers db) (Deal_CustomerID d)
  && match Deal_ContactID d with
     | None => true
     | Some k => row_exists Contact_Base (contacts db) k
     end.

Definition with_customers (rows : list Customer) (seq : N) (db : DB) : DB :=
  {| customers := rows; contacts := contacts db; deals := deals db;
     customer_tags := customer_tags db; audit_logs := audit_logs db;
     customers_seq := seq; contacts_seq := contacts_seq db;
     deals_seq := deals_seq db; audit_logs_seq := audit_logs_seq db |}.

Definition with_contacts (rows : list Contact) (seq : N) (db : DB) : DB :=
  {| customers := customers db; contacts := rows; deals := deals db;
     customer_tags := customer_tags db; audit_logs := audit_logs db;
     customers_seq := customers_seq db; contacts_seq := seq;
     deals_seq := deals_seq db; audit_logs_seq := audit_logs_seq db |}.

Definition with_deals (rows : list Deal) (seq : N) (db : DB) : DB :=
  {| customers := customers db; contacts := contacts db; deals := rows;
     customer_tags := customer_tags db; audit_logs := audit_logs db;
     customers_seq := customers_seq db; contacts_seq := contacts_seq db;
     deals_seq := seq; audit_logs_seq := audit_logs_seq db |}.

Definition with_audit_logs (rows : list AuditLog) (seq : N) (db : DB) : DB :=
  {| customers := customers db; contacts := contacts db; deals := deals db;
     customer_tags := customer_tags db; audit_logs := rows;
     customers_seq := customers_seq db; contacts_seq := contacts_seq db;
     deals_seq := deals_seq db; audit_logs_seq := seq |}.

(** The typed operations the handlers use; [None] is a database error. *)

Definition FirstCustomer (db : DB) (id : N) : option Customer :=
  First Customer_Base (customers db) id.

Definition FirstCustomerByEmail (db : DB) (email : string) : option Customer :=
  FirstWhere Customer_Base (fun r => String.eqb (Customer_Email r) email) (customers db).

Definition CreateCustomer (db : DB) (now : Z) (c : Customer) : option (Customer * DB) :=
  if customer_columns_ok c && negb (email_taken (Customer_Email c) (customers db)) then
    let '(c', rows, seq) := Create Customer_with_Base c now (customers_seq db) (customers db) in
    Some (c', with_customers rows seq db)
  else None.

Definition UpdatesCustomer (db : DB) (now : Z) (id : N) (set : Customer -> Customer)
    : option DB :=
  if forallb (fun r => negb (live Customer_Base r && has_id Customer_Base id r)
                       || customer_columns_ok (set r)) (customers db) then
    Some (with_customers
            (UpdateWhere Customer_Base Customer_with_Base (has_id Customer_Base id) set now
               (customers db))
            (customers_seq db) db)
  else None.

Definition DeleteCustomer (db : DB) (now : Z) (c : Customer) : DB :=
  with_customers (Delete Customer_Base Customer_with_Base c now (customers db))
    (customers_seq db) db.

Definition FirstContact (db : DB) (id : N) : option Contact :=
  First Contact_Base (contacts db) id.

Definition CreateContact (db : DB) (now : Z) (c : Contact) : option (Contact * DB) :=
  if contact_columns_ok c
     && row_exists Customer_Base (customers db) (Contact_CustomerID c) then
    let '(c', rows, seq) := Create Contact_with_Base c now (contacts_seq db) (contacts db) in
    Some (c', with_contacts rows seq db)
  else None.

Definition SaveContact (db : DB) (now : Z) (c : Contact) : option (Contact * DB) :=
  if contact_columns_ok c then
    let '(c', rows) := Save Contact_Base Contact_with_Base c now (contacts db) in
    Some (c', with_contacts rows (contacts_seq db) db)
  else None.

Definition UpdateContactsWhere (db : DB) (now : Z) (cond : Contact -> bool)
    (set : Contact -> Contact) : DB :=
  with_contacts (UpdateWhere Contact_Base Contact_with_Base cond set now (contacts db))
    (contacts_seq db) db.

Definition FirstDeal (db : DB) (id : N) : option Deal :=
  First Deal_Base (deals db) id.

Definition CreateDeal (db : DB) (now : Z) (d : Deal) : option (Deal * DB) :=
  if deal_columns_ok d && deal_keys_ok db d then
    let '(d', rows, seq) := Create Deal_with_Base d now (deals_seq db) (deals db) in
    Some (d', with_deals rows seq db)
  else None.

Definition SaveDeal (db : DB) (now : Z) (d : Deal) : option (Deal * DB) :=
  if deal_columns_ok d && deal_keys_ok db d then
    let '(d', rows) := Save Deal_Base Deal_with_Base d now (deals db) in
    Some (d', with_deals rows (deals_seq db) db)
  else None.

Definition CreateAuditLog (db : DB) (now : Z) (a : AuditLog) : DB :=
  let id := (audit_logs_seq db + 1)%N in
  with_audit_logs
    (audit_logs db ++
     [{| AuditLog_ID := id;
         AuditLog_ResourceType := AuditLog_ResourceType a;
         AuditLog_ResourceID := AuditLog_ResourceID a;
         AuditLog_Action := AuditLog_Action a;
         AuditLog_UserID := AuditLog_UserID a;
         AuditLog_UserName := AuditLog_UserName a;
         AuditLog_UserRole := AuditLog_UserRole a;
         AuditLog_OldValues := AuditLog_OldValues a;
         AuditLog_NewValues := AuditLog_NewValues a;
         AuditLog_IPAddress := AuditLog_IPAddress a;
         AuditLog_UserAgent := AuditLog_UserAgent a;
         AuditLog_CreatedAt := now |}])
    id db.

(** [Offset(n)] and [Limit(n)] on a result set: gorm writes the OFFSET
    clause only for a positive offset. *)
Definition Offset {A : Type} (offset : Z) (rows : list A) : list A :=
  if 0 <? offset then drop (Z.to_nat offset) rows else rows.

Definition Limit {A : Type} (limit : Z) (rows : list A) : list A :=
  take (Z.to_nat limit) rows.

End gorm.

(** ** gin: the request context and the handler chain *)

Module gin.
Import models gorm.

Record JWTClaims := {
  Claims_UserID : N;
  Claims_Sub : string;
  Claims_Email : string;
  Claims_Name : string;
  Claims_Role : string
}.

(** The values the handlers store under the context keys. *)
Inductive Any :=
| AnyUser (u : User)
| AnyUint (n : N)
| AnyString (s : string)
| AnyClaims (cl : JWTClaims).

(** The JSON documents the handlers answer with. *)
Inductive Body :=
| ErrorBody (error code message : string)
| MessageBody (message : string)
| CustomerBody (c : Customer)
| ContactBody (c : Contact)
| DealBody (d : Deal)
| CustomerListBody (r : CustomerListResponse)
| DealListBody (r : DealListResponse).

Record Response := { Status : Z; Payload : Body }.

Record Request := {
  Header : gmap string string;
  URLQuery : gmap string string;
  Params : gmap string string;
  RemoteIP : string;
  UserAgent : string
}.

(** [Clock] is the instant at which the request is served: what
    [time.Now()] and the database clock read while the handler runs.
    [Aborted] is gin's abort index, [Writer] the response written. *)
Record Context := {
  Req : Request;
  Clock : Z;
  Keys : gmap string Any;
  Aborted : bool;
  Writer : option Response
}.

Definition GetHeader (c : Context) (key : string) : string :=
  default "" (Header (Req c) !! key).

Definition Param (c : Context) (key : string) : string :=
  default "" (Params (Req c) !! key).

Definition Query (c : Context) (key : string) : string :=
  default "" (URLQuery (Req c) !! key).

Definition DefaultQuery (c : Context) (key defaultValue : string) : string :=
  default defaultValue (URLQuery (Req c) !! key).

Definition ClientIP (c : Context) : string := RemoteIP (Req c).

Definition Get (c : Context) (key : string) : option Any := Keys c !! key.

Definition Set_ (c : Context) (key : string) (value : Any) : Context :=
  {| Req := Req c; Clock := Clock c; Keys := <[key := value]> (Keys c);
     Aborted := Aborted c; Writer := Writer c |}.

Definition JSON (c : Context) (code : Z) (obj : Body) : Context :=
  {| Req := Req c; Clock := Clock c; Keys := Keys c; Aborted := Aborted c;
     Writer := Some {| Status := code; Payload := obj |} |}.

Definition AbortWithStatusJSON (c : Context) (code : Z) (obj : Body) : Context :=
  {| Req := Req c; Clock := Clock c; Keys := Keys c; Aborted := true;
     Writer := Some {| Status := code; Payload := obj |} |}.

Definition HandlerFunc := Context -> DB -> Context * DB.

(** [c.Next()]: the handlers of the route run in order until one
    aborts.  The middleware of this service call [c.Next()] as their
    last statement, so running the rest of the chain after a handler
    returns is the same as running it from within. *)
Fixpoint Next (handlers : list HandlerFunc) (c : Context) (db : DB) : Context * DB :=
  match handlers with
  | [] => (c, db)
  | h :: rest =>
      let '(c', db') := h c db in
      if Aborted c' then (c', db') else Next rest c' db'
  end.

Definition StatusOK := 200.
Definition StatusCreated := 201.
Definition StatusBadRequest := 400.
Definition StatusUnauthorized := 401.
Definition StatusForbidden := 403.
Definition StatusNotFound := 404.
Definition StatusConflict := 409.
Definition StatusInternalServerError := 500.

End gin.

(** ** What the handlers call outside this repository

    The JWT library, the validator behind the [binding:"email"] tag, the
    Unicode and time parsers, and the SQL engine that evaluates the WHERE
    and ORDER BY clauses the list handlers assemble. *)

Module extern.
Import models gin.

Inductive JWTError := ErrTokenExpired | ErrTokenMalformed | ErrTokenOther.

Record Token := { Token_Valid : bool; Token_Claims : JWTClaims }.

(** The conditions [ListCustomers] and [ListDeals] add to the query;
    strings are passed to the engine as the handlers pass them. *)
Inductive CustomerCond :=
| CustomerStatusIs (status : string)
| CustomerAssignedToIs (assignedTo : string)
| CustomerSearch (searchTerm : string)
| CustomerCreatedFrom (t : Z)
| CustomerCreatedTo (t : Z)
| CustomerTagIn (ids : list string).

Inductive DealCond :=
| DealStageIs (stage : string)
| DealOwnerIs (ownerID : string)
| DealCustomerIs (customerID : string)
| DealSearch (searchTerm : string)
| DealAmountMin (val : Z)
| DealAmountMax (val : Z)
| DealCloseFrom (t : Z)
| DealCloseTo (t : Z).

Record Library := {
  (** [jwt.ParseWithClaims(tokenString, claims, keyFunc)]; the key
      function is given whether the signing method is an HMAC. *)
  jwt_ParseWithClaims : string -> (bool -> option string) -> JWTError + Token;
  validator_email : string -> bool;
  strings_ToLower : string -> string;
  (** [time.Parse(time.RFC3339, s)] *)
  time_Parse : string -> option Z;
  strconv_ParseFloat : string -> option Z;
  (** whether the engine accepts the condition (a text that is no
      number compared with an integer column is an error) *)
  sql_customer_cond_ok : CustomerCond -> bool;
  (** whether a row of [customers], joined with a [tag_id] of
      [customer_tags] when the query joins, satisfies the condition *)
  sql_customer_holds : CustomerCond -> Customer -> option N -> bool;
  sql_customer_le : string -> Customer -> Customer -> bool;
  sql_deal_cond_ok : DealCond -> bool;
  sql_deal_holds : DealCond -> Deal -> bool;
  sql_deal_le : string -> Deal -> Deal -> bool
}.

End extern.

(** ** middleware: auth.go *)

Module middleware.
Import models gorm gin extern.

Definition ContextKeyUser := "user".
Definition ContextKeyUserID := "user_id".
Definition ContextKeyUserRole := "user_role".
Definition ContextKeyClaims := "claims".

(** [strings.SplitN(s, " ", 2)] *)
Fixpoint cut_space (s : string) : option (string * string) :=
  match s with
  | EmptyString => None
  | String ch rest =>
      if Ascii.eqb ch " " then Some (EmptyString, rest)
      else match cut_space rest with
           | Some (before, after) => Some (String ch before, after)
           | None => None
           end
  end.

Definition SplitN2 (s : string) : list string :=
  match cut_space s with
  | Some (before, after) => [before; after]
  | None => [s]
  end.

(** [strings.EqualFold(s, "Bearer")]: no letter of the word has a fold
    outside ASCII, so the comparison is the ASCII one. *)
Definition lower (ch : ascii) : ascii :=
  let n := N_of_ascii ch in
  if (65 <=? n)%N && (n <=? 90)%N then ascii_of_N (n + 32) else ch.

Fixpoint lower_string (s : string) : string :=
  match s with
  | EmptyString => EmptyString
  | String ch rest => String (lower ch) (lower_string rest)
  end.

Definition EqualFold (s t : string) : bool :=
  String.eqb (lower_string s) (lower_string t).

(** A panic is recovered by the [Recovery] middleware, which aborts
    the request with status 500. *)
Definition panic (c : Context) : Context :=
  AbortWithStatusJSON c StatusInternalServerError
    (ErrorBody "internal_server_error" "INTERNAL_ERROR" "An unexpected error occurred").

Section with_library.
Variable lib : Library.

Definition JWTAuth (jwtSecret : string) : HandlerFunc := fun c db =>
  let authHeader := GetHeader c "Authorization" in
  if String.eqb authHeader "" then
    (AbortWithStatusJSON c StatusUnauthorized
       (ErrorBody "unauthorized" "MISSING_TOKEN" "Authorization header is required"), db)
  else
    match SplitN2 authHeader with
    | [scheme; tokenString] =>
        if negb (EqualFold scheme "Bearer") then
          (AbortWithStatusJSON c StatusUnauthorized
             (ErrorBody "unauthorized" "INVALID_TOKEN_FORMAT"
                "Authorization header must be in 'Bearer <token>' format"), db)
        else
          match jwt_ParseWithClaims lib tokenString
                  (fun hmac => if hmac then Some jwtSecret else None) with
          | inl err =>
              let message :=
                match err with
                | ErrTokenExpired => "Token has expired"
                | ErrTokenMalformed => "Token is malformed"
                | ErrTokenOther => "Invalid token"
                end in
              (AbortWithStatusJSON c StatusUnauthorized
                 (ErrorBody "unauthorized" "INVALID_TOKEN" message), db)
          | inr token =>
              if negb (Token_Valid token) then
                (AbortWithStatusJSON c StatusUnauthorized
                   (ErrorBody "unauthorized" "INVALID_TOKEN" "Token is not valid"), db)
              else
                let claims := Token_Claims token in
                let userID := Claims_UserID claims in
                if String.eqb (Claims_Role claims) "" then
                  (AbortWithStatusJSON c StatusUnauthorized
                     (ErrorBody "unauthorized" "MISSING_ROLE"
                        "Token must contain a role claim"), db)
                else
                  let user :=
                    {| User_ID := userID; User_Email := Claims_Email claims;
                       User_Name := Claims_Name claims;
                       User_Role := Claims_Role claims; User_IsActive := true |} in
                  let c := Set_ c ContextKeyUser (AnyUser user) in
                  let c := Set_ c ContextKeyUserID (AnyUint userID) in
                  let c := Set_ c ContextKeyUserRole (AnyString (Claims_Role claims)) in
                  let c := Set_ c ContextKeyClaims (AnyClaims claims) in
                  (c, db)
          end
    | _ =>
        (AbortWithStatusJSON c StatusUnauthorized
           (ErrorBody "unauthorized" "INVALID_TOKEN_FORMAT"
              "Authorization header must be in 'Bearer <token>' format"), db)
    end.
End with_library.

Definition RequireRole (allowedRoles : list string) : HandlerFunc := fun c db =>
  match Get c ContextKeyUserRole with
  | None =>
      (AbortWithStatusJSON c StatusUnauthorized
         (ErrorBody "unauthorized" "NO_USER_CONTEXT" "User context not found"), db)
  | Some (AnyString userRole) =>
      if existsb (fun allowed => String.eqb userRole allowed) allowedRoles then (c, db)
      else
        (AbortWithStatusJSON c StatusForbidden
           (ErrorBody "forbidden" "INSUFFICIENT_PERMISSIONS"
              "You do not have permission to access this resource"), db)
  | Some _ => (panic c, db)
  end.

Definition RequirePermission (permission : string) : HandlerFunc := fun c db =>
  match Get c ContextKeyUserRole with
  | None =>
      (AbortWithStatusJSON c StatusUnauthorized
         (ErrorBody "unauthorized" "NO_USER_CONTEXT" "User context not found"), db)
  | Some (AnyString userRole) =>
      if negb (HasPermission userRole permission) then
        (AbortWithStatusJSON c StatusForbidden
           (ErrorBody "forbidden" "INSUFFICIENT_PERMISSIONS"
              "You do not have permission to perform this action"), db)
      else (c, db)
  | Some _ => (panic c, db)
  end.

(** The key holds nothing but the [User] that [JWTAuth] stored. *)
Definition GetUserFromContext (c : Context) : User * bool :=
  match Get c ContextKeyUser with
  | Some (AnyUser user) => (user, true)
  | _ => (zeroUser, false)
  end.

End middleware.

(** ** regexp: the small part of Go's [regexp] that [isValidEmail] uses

    Matching by derivatives; a pattern anchored with [^] and [$] matches
    the whole text. *)

Module regexp.

Inductive Regexp :=
| Fail
| Eps
| Class (p : ascii -> bool)
| Cat (r1 r2 : Regexp)
| Alt (r1 r2 : Regexp)
| Star (r : Regexp).

Fixpoint nullable (r : Regexp) : bool :=
  match r with
  | Fail => false
  | Eps => true
  | Class _ => false
  | Cat r1 r2 => nullable r1 && nullable r2
  | Alt r1 r2 => nullable r1 || nullable r2
  | Star _ => true
  end.

Fixpoint deriv (a : ascii) (r : Regexp) : Regexp :=
  match r with
  | Fail => Fail
  | Eps => Fail
  | Class p => if p a then Eps else Fail
  | Cat r1 r2 =>
      if nullable r1 then Alt (Cat (deriv a r1) r2) (deriv a r2)
      else Cat (deriv a r1) r2
  | Alt r1 r2 => Alt (deriv a r1) (deriv a r2)
  | Star r1 => Cat (deriv a r1) (Star r1)
  end.

Fixpoint MatchString (r : Regexp) (s : string) : bool :=
  match s with
  | EmptyString => nullable r
  | String a rest => MatchString (deriv a r) rest
  end.

Definition Plus (r : Regexp) : Regexp := Cat r (Star r).
Definition Char (ch : ascii) : Regexp := Class (Ascii.eqb ch).

Definition between (lo hi : N) (a : ascii) : bool :=
  let n := N_of_ascii a in ((lo <=? n) && (n <=? hi))%N.

Definition alpha (a : ascii) : bool := between 97 122 a || between 65 90 a.
Definition alnum (a : ascii) : bool := alpha a || between 48 57 a.
Definition one_of (chars : string) (a : ascii) : bool :=
  existsb (Ascii.eqb a) (list_ascii_of_string chars).

End regexp.

(** ** handlers *)

Module handlers.
Import models gorm gin extern middleware.

(** *** What the handlers share *)

(** [c.ShouldBindJSON(&req)] decodes the body into the request struct
    and checks its [binding] tags.  A handler below receives the body
    as decoded ([None] when it is no JSON for the struct) and checks the
    tags itself; the text of the error is the library's. *)
Definition bind_error (c : Context) : Context :=
  JSON c StatusBadRequest (ErrorBody "validation_error" "INVALID_REQUEST" "invalid request").

(** [min=1,max=n] on a string field *)
Definition within (lo hi : nat) (s : string) : bool :=
  ((lo <=? String.length s) && (String.length s <=? hi))%nat.

Definition nonempty (s : string) : bool := negb (String.eqb s "").

(** The identifier in the path: [strconv.ParseUint(c.Param("id"), 10, 32)] *)
Definition ParamID (c : Context) : option N :=
  match strconv.ParseUint (Param c "id") 32 with
  | (id, None) => Some (Z.to_N id)
  | (_, Some _) => None
  end.

Definition invalid_id (c : Context) (message : string) : Context :=
  JSON c StatusBadRequest (ErrorBody "validation_error" "INVALID_ID" message).

Definition not_found (c : Context) (code message : string) : Context :=
  JSON c StatusNotFound (ErrorBody "not_found" code message).

Definition database_error (c : Context) (message : string) : Context :=
  JSON c StatusInternalServerError (ErrorBody "internal_error" "DATABASE_ERROR" message).

(** [logAudit]: the same method on every handler type. *)
Definition logAudit (c : Context) (resourceType : string) (resourceID : N)
    (action : string) (db : DB) : DB :=
  let user := fst (GetUserFromContext c) in
  let audit :=
    {| AuditLog_ID := 0%N;
       AuditLog_ResourceType := resourceType;
       AuditLog_ResourceID := resourceID;
       AuditLog_Action := action;
       AuditLog_UserID := User_ID user;
       AuditLog_UserName := User_Name user;
       AuditLog_UserRole := User_Role user;
       AuditLog_OldValues := "";
       AuditLog_NewValues := "";
       AuditLog_IPAddress := ClientIP c;
       AuditLog_UserAgent := UserAgent (Req c);
       AuditLog_CreatedAt := 0 |} in
  CreateAuditLog db (Clock c) audit.

(** The pagination block every list handler opens with: both numbers
    are read with [strconv.Atoi], whose error is dropped. *)
Definition pagination (c : Context) : Z * Z :=
  let page := fst (strconv.Atoi (DefaultQuery c "page" "1")) in
  let pageSize := fst (strconv.Atoi (DefaultQuery c "page_size" "20")) in
  let page := if page <? 1 then 1 else page in
  let pageSize := if (pageSize <? 1) || (100 <? pageSize) then 20 else pageSize in
  (page, pageSize).

(** [int(math.Ceil(float64(total) / float64(pageSize)))]: both
    conversions and the rounding of the quotient are exact for every
    count below 2^47, far above what a table holds, so the value is the
    integer ceiling. *)
Definition ceil_div (total pageSize : Z) : Z := (total + pageSize - 1) / pageSize.

(** gorm's statement, a query under construction: whether it joins
    [customer_tags], its conditions in the order they were added, and its
    ORDER BY clause. *)
Record Statement (Cond : Type) := {
  q_joins : bool;
  q_where : list Cond;
  q_order : string
}.
Arguments q_joins {Cond} _.
Arguments q_where {Cond} _.
Arguments q_order {Cond} _.

Definition Model {Cond : Type} : Statement Cond :=
  {| q_joins := false; q_where := []; q_order := "" |}.

Definition Where {Cond : Type} (q : Statement Cond) (cond : Cond) : Statement Cond :=
  {| q_joins := q_joins q; q_where := q_where q ++ [cond]; q_order := q_order q |}.

Definition Joins {Cond : Type} (q : Statement Cond) : Statement Cond :=
  {| q_joins := true; q_where := q_where q; q_order := q_order q |}.

Definition Order {Cond : Type} (q : Statement Cond) (clause : string) : Statement Cond :=
  {| q_joins := q_joins q; q_where := q_where q; q_order := clause |}.

(** [strings.Split(s, ",")] *)
Fixpoint Split (s : string) : list string :=
  match s with
  | EmptyString => [EmptyString]
  | String ch rest =>
      if Ascii.eqb ch "," then EmptyString :: Split rest
      else match Split rest with
           | first :: others => String ch first :: others
           | [] => [String ch EmptyString]
           end
  end.

(** *** customers.go *)

Record CustomerCreateRequest := {
  CustomerCreate_Name : string;
  CustomerCreate_Email : string;
  CustomerCreate_Phone : string;
  CustomerCreate_Company : string;
  CustomerCreate_Role : string;
  CustomerCreate_Status : string;
  CustomerCreate_AssignedTo : option N;
  CustomerCreate_Notes : string;
  CustomerCreate_NextFollowUpAt : option Z
}.

Record CustomerPatchRequest := {
  CustomerPatch_Status : option string;
  CustomerPatch_AssignedTo : option N;
  CustomerPatch_Contacted : option bool;
  CustomerPatch_NextFollowUpAt : option Z
}.

(** [^[a-zA-Z0-9._%+-]+@[a-zA-Z0-9.-]+\.[a-zA-Z]{2,}$] *)
Definition emailRegex : regexp.Regexp :=
  let localChar := regexp.Class (fun a => regexp.alnum a || regexp.one_of "._%+-" a) in
  let domainChar := regexp.Class (fun a => regexp.alnum a || regexp.one_of ".-" a) in
  let letter := regexp.Class regexp.alpha in
  regexp.Cat (regexp.Plus localChar)
    (regexp.Cat (regexp.Char "@")
       (regexp.Cat (regexp.Plus domainChar)
          (regexp.Cat (regexp.Char ".")
             (regexp.Cat letter (regexp.Cat letter (regexp.Star letter)))))).

Definition isValidEmail (email : string) : bool :=
  regexp.MatchString emailRegex email.

(** The values of the map [PatchCustomer] hands to [Updates]. *)
Inductive Column :=
| ColString (s : string)
| ColUint (n : N)
| ColBool (b : bool)
| ColTime (t : Z).

(** [db.Model(&customer).Updates(updates)]: the columns named in the
    map, on the row of the customer. *)
Definition set_columns (updates : gmap string Column) (r : Customer) : Customer :=
  {| Customer_Base := Customer_Base r;
     Customer_Name := Customer_Name r;
     Customer_Email := Customer_Email r;
     Customer_Phone := Customer_Phone r;
     Customer_Company := Customer_Company r;
     Customer_Role := Customer_Role r;
     Customer_Status :=
       match updates !! "status" with
       | Some (ColString s) => s
       | _ => Customer_Status r
       end;
     Customer_AssignedTo :=
       match updates !! "assigned_to" with
       | Some (ColUint n) => Some n
       | _ => Customer_AssignedTo r
       end;
     Customer_Contacted :=
       match updates !! "contacted" with
       | Some (ColBool b) => b
       | _ => Customer_Contacted r
       end;
     Customer_NextFollowUpAt :=
       match updates !! "next_follow_up_at" with
       | Some (ColTime t) => Some t
       | _ => Customer_NextFollowUpAt r
       end;
     Customer_Notes := Customer_Notes r |}.

Definition put_if {V : Type} (key : string) (value : option V) (col : V -> Column)
    (updates : gmap string Column) : gmap string Column :=
  match value with
  | Some v => <[key := col v]> updates
  | None => updates
  end.

(** The map [PatchCustomer] fills from the fields that are present. *)
Definition patch_updates (req : CustomerPatchRequest) : gmap string Column :=
  let updates : gmap string Column := ∅ in
  let updates := put_if "status" (CustomerPatch_Status req) ColString updates in
  let updates := put_if "assigned_to" (CustomerPatch_AssignedTo req) ColUint updates in
  let updates := put_if "contacted" (CustomerPatch_Contacted req) ColBool updates in
  put_if "next_follow_up_at" (CustomerPatch_NextFollowUpAt req) ColTime updates.

(** [len(updates) == 0] *)
Definition is_empty (updates : gmap string Column) : bool :=
  bool_decide (updates = ∅).

(** The struct literal of [CreateCustomer]; the key and the timestamps
    are filled by [Create]. *)
Definition new_customer (req : CustomerCreateRequest) (status : string) : Customer :=
  {| Customer_Base := fresh 0 0;
     Customer_Name := CustomerCreate_Name req;
     Customer_Email := CustomerCreate_Email req;
     Customer_Phone := CustomerCreate_Phone req;
     Customer_Company := CustomerCreate_Company req;
     Customer_Role := CustomerCreate_Role req;
     Customer_Status := status;
     Customer_AssignedTo := CustomerCreate_AssignedTo req;
     Customer_Contacted := false;
     Customer_NextFollowUpAt := CustomerCreate_NextFollowUpAt req;
     Customer_Notes := CustomerCreate_Notes req |}.

Section with_library.
Variable lib : Library.

Definition customer_result (q : Statement CustomerCond) (db : DB) : option (list Customer) :=
  if forallb (sql_customer_cond_ok lib) (q_where q) then
    let joined :=
      if q_joins q then
        flat_map (fun r =>
                    List.map (fun ct => (r, Some (snd ct)))
                      (List.filter (fun ct => (fst ct =? ID (Customer_Base r))%N)
                         (customer_tags db)))
          (customers db)
      else List.map (fun r => (r, None)) (customers db) in
    let hits :=
      List.filter (fun rt => live Customer_Base (fst rt)
                             && forallb (fun cond => sql_customer_holds lib cond (fst rt) (snd rt))
                                  (q_where q))
        joined in
    Some (merge_sort (fun a b => Is_true (sql_customer_le lib (q_order q) a b))
            (List.map fst hits))
  else None.

(** [query.Count(&total)]: on an error [total] keeps its zero. *)
Definition customer_count (q : Statement CustomerCond) (db : DB) : Z :=
  match customer_result q db with
  | Some rows => Z.of_nat (length rows)
  | None => 0
  end.

Definition ListCustomers : HandlerFunc := fun c db =>
  let '(page, pageSize) := pagination c in
  let query : Statement CustomerCond := Model in
  let status := Query c "status" in
  let query := if nonempty status then Where query (CustomerStatusIs status) else query in
  let assignedTo := Query c "assigned_to" in
  let query :=
    if nonempty assignedTo then Where query (CustomerAssignedToIs assignedTo) else query in
  let search := Query c "search" in
  let query :=
    if nonempty search then
      let searchTerm := String.append "%" (String.append (strings_ToLower lib search) "%") in
      Where query (CustomerSearch searchTerm)
    else query in
  let createdFrom := Query c "created_from" in
  let query :=
    if nonempty createdFrom then
      match time_Parse lib createdFrom with
      | Some t => Where query (CustomerCreatedFrom t)
      | None => query
      end
    else query in
  let createdTo := Query c "created_to" in
  let query :=
    if nonempty createdTo then
      match time_Parse lib createdTo with
      | Some t => Where query (CustomerCreatedTo t)
      | None => query
      end
    else query in
  let tagIDs := Query c "tags" in
  let query :=
    if nonempty tagIDs then Where (Joins query) (CustomerTagIn (Split tagIDs)) else query in
  let sortBy := DefaultQuery c "sort_by" "created_at" in
  let sortOrder := DefaultQuery c "sort_order" "desc" in
  let sortOrder :=
    if negb (String.eqb sortOrder "asc") && negb (String.eqb sortOrder "desc")
    then "desc" else sortOrder in
  let allowedSortFields : gmap string bool :=
    <["created_at" := true]> (<["updated_at" := true]> (<["name" := true]>
    (<["email" := true]> (<["status" := true]> ∅)))) in
  let sortBy := if default false (allowedSortFields !! sortBy) then sortBy else "created_at" in
  let query := Order query (String.append sortBy (String.append " " sortOrder)) in
  let total := customer_count query db in
  let offset := wrap_int ((page - 1) * pageSize) in
  match customer_result query db with
  | None => (database_error c "Failed to fetch customers", db)
  | Some rows =>
      let customers := Limit pageSize (Offset offset rows) in
      let totalPages := ceil_div total pageSize in
      (JSON c StatusOK
         (CustomerListBody
            {| CustomerList_Data := customers; CustomerList_Total := total;
               CustomerList_Page := page; CustomerList_PageSize := pageSize;
               CustomerList_TotalPages := totalPages |}), db)
  end.

Definition CreateCustomer (body : option CustomerCreateRequest) : HandlerFunc := fun c db =>
  match body with
  | None => (bind_error c, db)
  | Some req =>
      if negb (within 1 255 (CustomerCreate_Name req)
               && nonempty (CustomerCreate_Email req)
               && validator_email lib (CustomerCreate_Email req))
      then (bind_error c, db)
      else if negb (isValidEmail (CustomerCreate_Email req)) then
        (JSON c StatusBadRequest
           (ErrorBody "validation_error" "INVALID_EMAIL" "Invalid email format"), db)
      else
        match FirstCustomerByEmail db (CustomerCreate_Email req) with
        | Some _ =>
            (JSON c StatusConflict
               (ErrorBody "conflict" "EMAIL_EXISTS"
                  "A customer with this email already exists"), db)
        | None =>
            let status := CustomerCreate_Status req in
            let status := if String.eqb status "" then CustomerStatusLead else status in
            let customer := new_customer req status in
            match gorm.CreateCustomer db (Clock c) customer with
            | None => (database_error c "Failed to create customer", db)
            | Some (customer, db) =>
                let db := logAudit c "customer" (ID (Customer_Base customer))
                            AuditActionCreate db in
                (JSON c StatusCreated (CustomerBody customer), db)
            end
        end
  end.
End with_library.

Definition PatchCustomer (body : option CustomerPatchRequest) : HandlerFunc := fun c db =>
  match ParamID c with
  | None => (invalid_id c "Invalid customer ID", db)
  | Some id =>
      match FirstCustomer db id with
      | None => (not_found c "CUSTOMER_NOT_FOUND" "Customer not found", db)
      | Some customer =>
          match body with
          | None => (bind_error c, db)
          | Some req =>
              let updates := patch_updates req in
              if is_empty updates then
                (JSON c StatusBadRequest
                   (ErrorBody "validation_error" "NO_UPDATES" "No fields to update"), db)
              else
                match UpdatesCustomer db (Clock c) (ID (Customer_Base customer))
                        (set_columns updates) with
                | None => (database_error c "Failed to update customer", db)
                | Some db =>
                    let customer := default customer (FirstCustomer db id) in
                    let db := logAudit c "customer" (ID (Customer_Base customer))
                                AuditActionUpdate db in
                    (JSON c StatusOK (CustomerBody customer), db)
                end
          end
      end
  end.

Definition DeleteCustomer : HandlerFunc := fun c db =>
  match ParamID c with
  | None => (invalid_id c "Invalid customer ID", db)
  | Some id =>
      match FirstCustomer db id with
      | None => (not_found c "CUSTOMER_NOT_FOUND" "Customer not found", db)
      | Some customer =>
          let db := gorm.DeleteCustomer db (Clock c) customer in
          let db := logAudit c "customer" (ID (Customer_Base customer)) AuditActionDelete db in
          (JSON c StatusOK (MessageBody "Customer deleted successfully"), db)
      end
  end.

(** *** contacts.go *)

Record ContactCreateRequest := {
  ContactCreate_FirstName : string;
  ContactCreate_LastName : string;
  ContactCreate_Email : string;
  ContactCreate_Phone : string;
  ContactCreate_Position : string;
  ContactCreate_IsPrimary : bool;
  ContactCreate_Notes : string
}.

Record ContactUpdateRequest := {
  ContactUpdate_FirstName : string;
  ContactUpdate_LastName : string;
  ContactUpdate_Email : string;
  ContactUpdate_Phone : string;
  ContactUpdate_Position : string;
  ContactUpdate_IsPrimary : option bool;
  ContactUpdate_Notes : string
}.

(** [if req.F != "" { x.F = req.F }] *)
Definition or_keep (provided current : string) : string :=
  if nonempty provided then provided else current.

Definition or_keep_ptr {V : Type} (provided current : option V) : option V :=
  match provided with
  | Some v => Some v
  | None => current
  end.

Definition unset_primary : Contact -> Contact := Contact_with_IsPrimary false.

(** The struct literal of [CreateContact]. *)
Definition new_contact (customerID : N) (req : ContactCreateRequest) : Contact :=
  {| Contact_Base := fresh 0 0;
     Contact_CustomerID := customerID;
     Contact_FirstName := ContactCreate_FirstName req;
     Contact_LastName := ContactCreate_LastName req;
     Contact_Email := ContactCreate_Email req;
     Contact_Phone := ContactCreate_Phone req;
     Contact_Position := ContactCreate_Position req;
     Contact_IsPrimary := ContactCreate_IsPrimary req;
     Contact_Notes := ContactCreate_Notes req |}.

(** The assignments of [UpdateContact] to the contact it loaded. *)
Definition update_contact (req : ContactUpdateRequest) (contact : Contact) : Contact :=
  {| Contact_Base := Contact_Base contact;
     Contact_CustomerID := Contact_CustomerID contact;
     Contact_FirstName := or_keep (ContactUpdate_FirstName req) (Contact_FirstName contact);
     Contact_LastName := or_keep (ContactUpdate_LastName req) (Contact_LastName contact);
     Contact_Email := or_keep (ContactUpdate_Email req) (Contact_Email contact);
     Contact_Phone := or_keep (ContactUpdate_Phone req) (Contact_Phone contact);
     Contact_Position := or_keep (ContactUpdate_Position req) (Contact_Position contact);
     Contact_IsPrimary := default (Contact_IsPrimary contact) (ContactUpdate_IsPrimary req);
     Contact_Notes := or_keep (ContactUpdate_Notes req) (Contact_Notes contact) |}.

Definition CreateContact (body : option ContactCreateRequest) : HandlerFunc := fun c db =>
  match ParamID c with
  | None => (invalid_id c "Invalid customer ID", db)
  | Some customerID =>
      match FirstCustomer db customerID with
      | None => (not_found c "CUSTOMER_NOT_FOUND" "Customer not found", db)
      | Some _ =>
          match body with
          | None => (bind_error c, db)
          | Some req =>
              if negb (within 1 100 (ContactCreate_FirstName req)) then (bind_error c, db)
              else
                let db :=
                  if ContactCreate_IsPrimary req then
                    UpdateContactsWhere db (Clock c)
                      (fun r => (Contact_CustomerID r =? customerID)%N) unset_primary
                  else db in
                let contact := new_contact customerID req in
                match gorm.CreateContact db (Clock c) contact with
                | None => (database_error c "Failed to create contact", db)
                | Some (contact, db) =>
                    let db := logAudit c "contact" (ID (Contact_Base contact))
                                AuditActionCreate db in
                    (JSON c StatusCreated (ContactBody contact), db)
                end
          end
      end
  end.

Definition UpdateContact (body : option ContactUpdateRequest) : HandlerFunc := fun c db =>
  match ParamID c with
  | None => (invalid_id c "Invalid contact ID", db)
  | Some id =>
      match FirstContact db id with
      | None => (not_found c "CONTACT_NOT_FOUND" "Contact not found", db)
      | Some contact =>
          match body with
          | None => (bind_error c, db)
          | Some req =>
              let db :=
                match ContactUpdate_IsPrimary req with
                | Some true =>
                    UpdateContactsWhere db (Clock c)
                      (fun r => (Contact_CustomerID r =? Contact_CustomerID contact)%N
                                && negb (ID (Contact_Base r) =? id)%N)
                      unset_primary
                | _ => db
                end in
              let contact := update_contact req contact in
              match SaveContact db (Clock c) contact with
              | None => (database_error c "Failed to update contact", db)
              | Some (contact, db) =>
                  let db := logAudit c "contact" (ID (Contact_Base contact))
                              AuditActionUpdate db in
                  (JSON c StatusOK (ContactBody contact), db)
              end
          end
      end
  end.

(** *** deals.go *)

Record DealCreateRequest := {
  DealCreate_Title : string;
  DealCreate_Description : string;
  DealCreate_CustomerID : N;
  DealCreate_ContactID : option N;
  DealCreate_Stage : string;
  DealCreate_Amount : Z;
  DealCreate_Currency : string;
  DealCreate_Probability : Z;
  DealCreate_ExpectedCloseDate : option Z;
  DealCreate_OwnerID : option N
}.

Record DealUpdateRequest := {
  DealUpdate_Title : string;
  DealUpdate_Description : string;
  DealUpdate_CustomerID : option N;
  DealUpdate_ContactID : option N;
  DealUpdate_Stage : string;
  DealUpdate_Amount : option Z;
  DealUpdate_Currency : string;
  DealUpdate_Probability : option Z;
  DealUpdate_ExpectedCloseDate : option Z;
  DealUpdate_ActualCloseDate : option Z;
  DealUpdate_OwnerID : option N;
  DealUpdate_LostReason : string
}.

Record DealStageTransitionRequest := {
  DealStageTransition_Stage : string;
  DealStageTransition_LostReason : string
}.

(** [if p < 0 { p = 0 }; if p > 100 { p = 100 }] *)
Definition clamp_probability (probability : Z) : Z :=
  let probability := if probability <? 0 then 0 else probability in
  if 100 <? probability then 100 else probability.

Definition invalid_stage (c : Context) : Context :=
  JSON c StatusBadRequest (ErrorBody "validation_error" "INVALID_STAGE" "Invalid deal stage").

(** The struct literal of [CreateDeal], after its defaults. *)
Definition new_deal (req : DealCreateRequest) (stage currency : string) (probability : Z)
    : Deal :=
  {| Deal_Base := fresh 0 0;
     Deal_Title := DealCreate_Title req;
     Deal_Description := DealCreate_Description req;
     Deal_CustomerID := DealCreate_CustomerID req;
     Deal_ContactID := DealCreate_ContactID req;
     Deal_Stage := stage;
     Deal_Amount := DealCreate_Amount req;
     Deal_Currency := currency;
     Deal_Probability := probability;
     Deal_ExpectedCloseDate := DealCreate_ExpectedCloseDate req;
     Deal_ActualCloseDate := None;
     Deal_OwnerID := DealCreate_OwnerID req;
     Deal_LostReason := "" |}.

(** The assignments of [UpdateDeal] to the deal it loaded.  (The stage
    is checked among them; the handler below checks it first, which
    answers the same, nothing having been written yet.) *)
Definition update_deal (req : DealUpdateRequest) (deal : Deal) : Deal :=
  {| Deal_Base := Deal_Base deal;
     Deal_Title := or_keep (DealUpdate_Title req) (Deal_Title deal);
     Deal_Description := or_keep (DealUpdate_Description req) (Deal_Description deal);
     Deal_CustomerID := default (Deal_CustomerID deal) (DealUpdate_CustomerID req);
     Deal_ContactID := or_keep_ptr (DealUpdate_ContactID req) (Deal_ContactID deal);
     Deal_Stage := or_keep (DealUpdate_Stage req) (Deal_Stage deal);
     Deal_Amount := default (Deal_Amount deal) (DealUpdate_Amount req);
     Deal_Currency := or_keep (DealUpdate_Currency req) (Deal_Currency deal);
     Deal_Probability :=
       match DealUpdate_Probability req with
       | Some prob => clamp_probability prob
       | None => Deal_Probability deal
       end;
     Deal_ExpectedCloseDate :=
       or_keep_ptr (DealUpdate_ExpectedCloseDate req) (Deal_ExpectedCloseDate deal);
     Deal_ActualCloseDate :=
       or_keep_ptr (DealUpdate_ActualCloseDate req) (Deal_ActualCloseDate deal);
     Deal_OwnerID := or_keep_ptr (DealUpdate_OwnerID req) (Deal_OwnerID deal);
     Deal_LostReason := or_keep (DealUpdate_LostReason req) (Deal_LostReason deal) |}.

Definition is_closed (stage : string) : bool :=
  String.eqb stage DealStageClosedWon || String.eqb stage DealStageClosedLost.

(** The assignments of [PatchDeal]: the stage, and for a closed stage
    the close date and, when lost with a reason, the reason. *)
Definition transition_deal (req : DealStageTransitionRequest) (now : Z) (deal : Deal) : Deal :=
  let stage := DealStageTransition_Stage req in
  {| Deal_Base := Deal_Base deal;
     Deal_Title := Deal_Title deal;
     Deal_Description := Deal_Description deal;
     Deal_CustomerID := Deal_CustomerID deal;
     Deal_ContactID := Deal_ContactID deal;
     Deal_Stage := stage;
     Deal_Amount := Deal_Amount deal;
     Deal_Currency := Deal_Currency deal;
     Deal_Probability := Deal_Probability deal;
     Deal_ExpectedCloseDate := Deal_ExpectedCloseDate deal;
     Deal_ActualCloseDate :=
       if is_closed stage then Some now else Deal_ActualCloseDate deal;
     Deal_OwnerID := Deal_OwnerID deal;
     Deal_LostReason :=
       if is_closed stage && String.eqb stage DealStageClosedLost
          && nonempty (DealStageTransition_LostReason req)
       then DealStageTransition_LostReason req
       else Deal_LostReason deal |}.

Section with_library.
Variable lib : Library.

Definition deal_result (q : Statement DealCond) (db : DB) : option (list Deal) :=
  if forallb (sql_deal_cond_ok lib) (q_where q) then
    let hits :=
      List.filter (fun r => live Deal_Base r
                            && forallb (fun cond => sql_deal_holds lib cond r) (q_where q))
        (deals db) in
    Some (merge_sort (fun a b => Is_true (sql_deal_le lib (q_order q) a b)) hits)
  else None.

Definition deal_count (q : Statement DealCond) (db : DB) : Z :=
  match deal_result q db with
  | Some rows => Z.of_nat (length rows)
  | None => 0
  end.

Definition ListDeals : HandlerFunc := fun c db =>
  let '(page, pageSize) := pagination c in
  let query : Statement DealCond := Model in
  let stage := Query c "stage" in
  let query := if nonempty stage then Where query (DealStageIs stage) else query in
  let ownerID := Query c "owner_id" in
  let query := if nonempty ownerID then Where query (DealOwnerIs ownerID) else query in
  let customerID := Query c "customer_id" in
  let query := if nonempty customerID then Where query (DealCustomerIs customerID) else query in
  let search := Query c "search" in
  let query :=
    if nonempty search then
      let searchTerm := String.append "%" (String.append (strings_ToLower lib search) "%") in
      Where query (DealSearch searchTerm)
    else query in
  let amountMin := Query c "amount_min" in
  let query :=
    if nonempty amountMin then
      match strconv_ParseFloat lib amountMin with
      | Some val => Where query (DealAmountMin val)
      | None => query
      end
    else query in
  let amountMax := Query c "amount_max" in
  let query :=
    if nonempty amountMax then
      match strconv_ParseFloat lib amountMax with
      | Some val => Where query (DealAmountMax val)
      | None => query
      end
    else query in
  let closeDateFrom := Query c "expected_close_from" in
  let query :=
    if nonempty closeDateFrom then
      match time_Parse lib closeDateFrom with
      | Some t => Where query (DealCloseFrom t)
      | None => query
      end
    else query in
  let closeDateTo := Query c "expected_close_to" in
  let query :=
    if nonempty closeDateTo then
      match time_Parse lib closeDateTo with
      | Some t => Where query (DealCloseTo t)
      | None => query
      end
    else query in
  let sortBy := DefaultQuery c "sort_by" "created_at" in
  let sortOrder := DefaultQuery c "sort_order" "desc" in
  let sortOrder :=
    if negb (String.eqb sortOrder "asc") && negb (String.eqb sortOrder "desc")
    then "desc" else sortOrder in
  let allowedSortFields : gmap string bool :=
    <["created_at" := true]> (<["updated_at" := true]> (<["title" := true]>
    (<["amount" := true]> (<["expected_close_date" := true]> (<["stage" := true]> ∅))))) in
  let sortBy := if default false (allowedSortFields !! sortBy) then sortBy else "created_at" in
  let query := Order query (String.append sortBy (String.append " " sortOrder)) in
  let total := deal_count query db in
  let offset := wrap_int ((page - 1) * pageSize) in
  match deal_result query db with
  | None => (database_error c "Failed to fetch deals", db)
  | Some rows =>
      let deals := Limit pageSize (Offset offset rows) in
      let totalPages := ceil_div total pageSize in
      (JSON c StatusOK
         (DealListBody
            {| DealList_Data := deals; DealList_Total := total;
               DealList_Page := page; DealList_PageSize := pageSize;
               DealList_TotalPages := totalPages |}), db)
  end.
End with_library.

Definition CreateDeal (body : option DealCreateRequest) : HandlerFunc := fun c db =>
  match body with
  | None => (bind_error c, db)
  | Some req =>
      if negb (within 1 255 (DealCreate_Title req)
               && negb (DealCreate_CustomerID req =? 0)%N)
      then (bind_error c, db)
      else
        match FirstCustomer db (DealCreate_CustomerID req) with
        | None =>
            (JSON c StatusBadRequest
               (ErrorBody "validation_error" "CUSTOMER_NOT_FOUND" "Customer not found"), db)
        | Some _ =>
            let stage := DealCreate_Stage req in
            let stage := if String.eqb stage "" then DealStageProspecting else stage in
            let currency := DealCreate_Currency req in
            let currency := if String.eqb currency "" then "USD" else currency in
            let probability := clamp_probability (DealCreate_Probability req) in
            let deal := new_deal req stage currency probability in
            match gorm.CreateDeal db (Clock c) deal with
            | None => (database_error c "Failed to create deal", db)
            | Some (deal, db) =>
                let deal := default deal (FirstDeal db (ID (Deal_Base deal))) in
                let db := logAudit c "deal" (ID (Deal_Base deal)) AuditActionCreate db in
                (JSON c StatusCreated (DealBody deal), db)
            end
        end
  end.

Definition UpdateDeal (body : option DealUpdateRequest) : HandlerFunc := fun c db =>
  match ParamID c with
  | None => (invalid_id c "Invalid deal ID", db)
  | Some id =>
      match FirstDeal db id with
      | None => (not_found c "DEAL_NOT_FOUND" "Deal not found", db)
      | Some deal =>
          match body with
          | None => (bind_error c, db)
          | Some req =>
              if nonempty (DealUpdate_Stage req) && negb (IsValidDealStage (DealUpdate_Stage req))
              then (invalid_stage c, db)
              else
                let deal := update_deal req deal in
                match SaveDeal db (Clock c) deal with
                | None => (database_error c "Failed to update deal", db)
                | Some (deal, db) =>
                    let deal := default deal (FirstDeal db (ID (Deal_Base deal))) in
                    let db := logAudit c "deal" (ID (Deal_Base deal)) AuditActionUpdate db in
                    (JSON c StatusOK (DealBody deal), db)
                end
          end
      end
  end.

Definition PatchDeal (body : option DealStageTransitionRequest) : HandlerFunc := fun c db =>
  match ParamID c with
  | None => (invalid_id c "Invalid deal ID", db)
  | Some id =>
      match FirstDeal db id with
      | None => (not_found c "DEAL_NOT_FOUND" "Deal not found", db)
      | Some deal =>
          match body with
          | None => (bind_error c, db)
          | Some req =>
              if negb (nonempty (DealStageTransition_Stage req)) then (bind_error c, db)
              else if negb (IsValidDealStage (DealStageTransition_Stage req))
              then (invalid_stage c, db)
              else
                let deal := transition_deal req (Clock c) deal in
                match SaveDeal db (Clock c) deal with
                | None => (database_error c "Failed to update deal", db)
                | Some (deal, db) =>
                    let deal := default deal (FirstDeal db (ID (Deal_Base deal))) in
                    let db := logAudit c "deal" (ID (Deal_Base deal)) AuditActionUpdate db in
                    (JSON c StatusOK (DealBody deal), db)
                end
          end
      end
  end.

End handlers.

(** ** The specification's own words, for comparison with the code *)

Module spec.

(** "Fixed mapping: admin and manager → {read, write, delete,
    manage_all}; agent → {read, write, manage_own}." *)
Definition permission_set (role : string) : list string :=
  if String.eqb role "admin" then ["read"; "write"; "delete"; "manage_all"]
  else if String.eqb role "manager" then ["read"; "write"; "delete"; "manage_all"]
  else if String.eqb role "agent" then ["read"; "write"; "manage_own"]
  else [].

(** "probability integer clamped to [0,100]" *)
Definition clamped (probability : Z) : Z := Z.max 0 (Z.min 100 probability).

(** "clamped into [1,100]" *)
Definition clamped_page_size (requested : Z) : Z := Z.max 1 (Z.min 100 requested).

(** "ceil(total / page_size)" *)
Definition total_pages (total pageSize : Z) : Z :=
  if total mod pageSize =? 0 then total / pageSize else total / pageSize + 1.

(** "min(page_size, max(0, total - (page-1)*page_size))" *)
Definition page_items (total page pageSize : Z) : Z :=
  Z.min pageSize (Z.max 0 (total - (page - 1) * pageSize)).

End spec.

(** ** Concrete requests and databases on which the properties are run *)

Module fixtures.
Import models gorm gin extern middleware handlers.

Definition claims (id : N) (role : string) : JWTClaims :=
  {| Claims_UserID := id; Claims_Sub := ""; Claims_Email := "";
     Claims_Name := "Console"; Claims_Role := role |}.

(** A library whose only well-signed tokens are two fixed ones. *)
Definition lib : Library :=
  {| jwt_ParseWithClaims := fun tokenString keyFunc =>
       match keyFunc true with
       | None => inl ErrTokenOther
       | Some key =>
           if negb (String.eqb key "s3cret") then inl ErrTokenOther
           else if String.eqb tokenString "admin.token" then
             inr {| Token_Valid := true; Token_Claims := claims 7 "admin" |}
           else if String.eqb tokenString "auditor.token" then
             inr {| Token_Valid := true; Token_Claims := claims 9 "auditor" |}
           else inl ErrTokenMalformed
       end;
     validator_email := isValidEmail;
     strings_ToLower := lower_string;
     time_Parse := fun _ => None;
     strconv_ParseFloat := fun _ => None;
     sql_customer_cond_ok := fun _ => true;
     sql_customer_holds := fun _ _ _ => true;
     sql_customer_le := fun _ a b => (ID (Customer_Base a) <=? ID (Customer_Base b))%N;
     sql_deal_cond_ok := fun _ => true;
     sql_deal_holds := fun _ _ => true;
     sql_deal_le := fun _ a b => (ID (Deal_Base a) <=? ID (Deal_Base b))%N |}.

Definition request (header query params : list (string * string)) : Request :=
  {| Header := list_to_map header; URLQuery := list_to_map query;
     Params := list_to_map params; RemoteIP := "10.0.0.1"; UserAgent := "console" |}.

Definition empty_db : DB :=
  {| customers := []; contacts := []; deals := []; customer_tags := [];
     audit_logs := []; customers_seq := 0; contacts_seq := 0;
     deals_seq := 0; audit_logs_seq := 0 |}.

(** A request as it enters the chain, served at instant [now]. *)
Definition incoming (now : Z) (r : Request) : Context :=
  {| Req := r; Clock := now; Keys := ∅; Aborted := false; Writer := None |}.

(** The same after [JWTAuth] let an admin through. *)
Definition as_admin (now : Z) (r : Request) : Context :=
  fst (JWTAuth lib "s3cret"
         (incoming now
            {| Header := <["Authorization" := "Bearer admin.token"]> (Header r);
               URLQuery := URLQuery r; Params := Params r;
               RemoteIP := RemoteIP r; UserAgent := UserAgent r |})
         empty_db).

Definition jane : CustomerCreateRequest :=
  {| CustomerCreate_Name := "Jane Doe"; CustomerCreate_Email := "jane@x.com";
     CustomerCreate_Phone := ""; CustomerCreate_Company := "";
     CustomerCreate_Role := ""; CustomerCreate_Status := "";
     CustomerCreate_AssignedTo := None; CustomerCreate_Notes := "";
     CustomerCreate_NextFollowUpAt := None |}.

(** The database after Jane was created at instant 10. *)
Definition db_jane : DB :=
  snd (CreateCustomer lib (Some jane) (as_admin 10 (request [] [] [])) empty_db).

Definition contact_request (firstName : string) (isPrimary : bool) : ContactCreateRequest :=
  {| ContactCreate_FirstName := firstName; ContactCreate_LastName := "";
     ContactCreate_Email := ""; ContactCreate_Phone := "";
     ContactCreate_Position := ""; ContactCreate_IsPrimary := isPrimary;
     ContactCreate_Notes := "" |}.

Definition contact_update (isPrimary : option bool) : ContactUpdateRequest :=
  {| ContactUpdate_FirstName := ""; ContactUpdate_LastName := "";
     ContactUpdate_Email := ""; ContactUpdate_Phone := "";
     ContactUpdate_Position := ""; ContactUpdate_IsPrimary := isPrimary;
     ContactUpdate_Notes := "" |}.

Definition deal_request (stage : string) (probability : Z) : DealCreateRequest :=
  {| DealCreate_Title := "Deal A"; DealCreate_Description := "";
     DealCreate_CustomerID := 1; DealCreate_ContactID := None;
     DealCreate_Stage := stage; DealCreate_Amount := 0;
     DealCreate_Currency := ""; DealCreate_Probability := probability;
     DealCreate_ExpectedCloseDate := None; DealCreate_OwnerID := None |}.

Definition deal_update (stage : string) (probability : option Z) : DealUpdateRequest :=
  {| DealUpdate_Title := ""; DealUpdate_Description := "";
     DealUpdate_CustomerID := None; DealUpdate_ContactID := None;
     DealUpdate_Stage := stage; DealUpdate_Amount := None;
     DealUpdate_Currency := ""; DealUpdate_Probability := probability;
     DealUpdate_ExpectedCloseDate := None; DealUpdate_ActualCloseDate := None;
     DealUpdate_OwnerID := None; DealUpdate_LostReason := "" |}.

Definition deal_transition (stage lostReason : string) : DealStageTransitionRequest :=
  {| DealStageTransition_Stage := stage; DealStageTransition_LostReason := lostReason |}.

(** A database of [n] leads, keyed 1 to [n]. *)
Definition lead (id : nat) : Customer :=
  {| Customer_Base := fresh (N.of_nat id) 1;
     Customer_Name := "Lead"; Customer_Email := ""; Customer_Phone := "";
     Customer_Company := ""; Customer_Role := ""; Customer_Status := "lead";
     Customer_AssignedTo := None; Customer_Contacted := false;
     Customer_NextFollowUpAt := None; Customer_Notes := "" |}.

Definition db_leads (n : nat) : DB :=
  with_customers (List.map lead (seq 1 n)) (N.of_nat n) empty_db.

(** Jane's database with "Deal A" created at instant 20. *)
Definition db_deal : DB :=
  snd (CreateDeal (Some (deal_request "" 0)) (as_admin 20 (request [] [] [])) db_jane).

End fixtures.

(** ** The handlers whose documents are not among [gin.Body]

    Such a handler ends with one [c.JSON]; it is modelled by the answer
    it writes: the error document with its status, or the status and the
    document of the handler. *)

Module answer.

Inductive Answer (B : Type) :=
| Failure (status : Z) (error code message : string)
| Success (status : Z) (body : B).
Arguments Failure {B} _ _ _ _.
Arguments Success {B} _ _.

Definition answer_status {B : Type} (a : Answer B) : Z :=
  match a with
  | Failure status _ _ _ => status
  | Success status _ => status
  end.

End answer.

(** ** The language of a pattern

    What it means for a text to match a pattern of [regexp], stated
    without the matcher, and the three classes of [emailRegex]. *)

Module language.
Import regexp.

Inductive matches : Regexp -> string -> Prop :=
| matches_eps : matches Eps EmptyString
| matches_class (p : ascii -> bool) (a : ascii) :
    p a = true -> matches (Class p) (String a EmptyString)
| matches_cat (r1 r2 : Regexp) (s1 s2 : string) :
    matches r1 s1 -> matches r2 s2 -> matches (Cat r1 r2) (String.append s1 s2)
| matches_alt_l (r1 r2 : Regexp) (s : string) : matches r1 s -> matches (Alt r1 r2) s
| matches_alt_r (r1 r2 : Regexp) (s : string) : matches r2 s -> matches (Alt r1 r2) s
| matches_star_nil (r : Regexp) : matches (Star r) EmptyString
| matches_star_cons (r : Regexp) (s1 s2 : string) :
    matches r s1 -> matches (Star r) s2 -> matches (Star r) (String.append s1 s2).

Fixpoint all_of (p : ascii -> bool) (s : string) : bool :=
  match s with
  | EmptyString => true
  | String a rest => p a && all_of p rest
  end.

(** [[a-zA-Z0-9._%+-]] and [[a-zA-Z0-9.-]] *)
Definition local_char (a : ascii) : bool := alnum a || one_of "._%+-" a.
Definition domain_char (a : ascii) : bool := alnum a || one_of ".-" a.

End language.

(** ** auth.go and the handler of /admin/me: the remaining functions *)

Module auth.
Import models gorm gin extern middleware handlers answer.

(** [GetUserIDFromContext]; [None] is the panic of the type assertion
    on a value that is no [uint]. *)
Definition GetUserIDFromContext (c : Context) : option (N * bool) :=
  match Get c ContextKeyUserID with
  | None => Some (0%N, false)
  | Some (AnyUint userID) => Some (userID, true)
  | Some _ => None
  end.

Record MeResponse := {
  Me_User : User;
  Me_Permissions : list string
}.

(** [GetMe]: a role outside the table has the [nil] slice, which the
    handler replaces by the empty one. *)
Definition GetMe (c : Context) : Answer MeResponse :=
  let '(user, exists_) := GetUserFromContext c in
  if negb exists_ then
    Failure StatusUnauthorized "unauthorized" "NO_USER_CONTEXT" "User not found in context"
  else
    let permissions :=
      match RolePermissions !! User_Role user with
      | Some permissions => permissions
      | None => []
      end in
    Success StatusOK {| Me_User := user; Me_Permissions := permissions |}.

End auth.

(** ** customers.go, contacts.go and deals.go: the remaining handlers *)

Module handlers_rest.
Import models gorm gin extern middleware handlers answer.

(** *** customers.go: UpdateCustomer *)

Record CustomerUpdateRequest := {
  CustomerUpdate_Name : string;
  CustomerUpdate_Email : string;
  CustomerUpdate_Phone : string;
  CustomerUpdate_Company : string;
  CustomerUpdate_Role : string;
  CustomerUpdate_Status : string;
  CustomerUpdate_AssignedTo : option N;
  CustomerUpdate_Contacted : option bool;
  CustomerUpdate_Notes : string;
  CustomerUpdate_NextFollowUpAt : option Z
}.

(** [db.Where("email = ? AND id != ?", email, id).First(&existing)] *)
Definition FirstOtherCustomerByEmail (db : DB) (email : string) (id : N) : option Customer :=
  FirstWhere Customer_Base
    (fun r => String.eqb (Customer_Email r) email && negb (ID (Customer_Base r) =? id)%N)
    (customers db).

(** [db.Save(&customer)]: the unique index on [email] is checked against
    every other row, deleted or not. *)
Definition SaveCustomer (db : DB) (now : Z) (c : Customer) : option (Customer * DB) :=
  if customer_columns_ok c
     && negb (existsb (fun r => String.eqb (Customer_Email r) (Customer_Email c)
                                && negb (ID (Customer_Base r) =? ID (Customer_Base c))%N)
                (customers db)) then
    let '(c', rows) := Save Customer_Base Customer_with_Base c now (customers db) in
    Some (c', with_customers rows (customers_seq db) db)
  else None.

(** The assignments of [UpdateCustomer] after the email. *)
Definition update_customer (req : CustomerUpdateRequest) (email : string) (customer : Customer)
    : Customer :=
  {| Customer_Base := Customer_Base customer;
     Customer_Name := or_keep (CustomerUpdate_Name req) (Customer_Name customer);
     Customer_Email := email;
     Customer_Phone := or_keep (CustomerUpdate_Phone req) (Customer_Phone customer);
     Customer_Company := or_keep (CustomerUpdate_Company req) (Customer_Company customer);
     Customer_Role := or_keep (CustomerUpdate_Role req) (Customer_Role customer);
     Customer_Status := or_keep (CustomerUpdate_Status req) (Customer_Status customer);
     Customer_AssignedTo :=
       or_keep_ptr (CustomerUpdate_AssignedTo req) (Customer_AssignedTo customer);
     Customer_Contacted :=
       default (Customer_Contacted customer) (CustomerUpdate_Contacted req);
     Customer_NextFollowUpAt :=
       or_keep_ptr (CustomerUpdate_NextFollowUpAt req) (Customer_NextFollowUpAt customer);
     Customer_Notes := or_keep (CustomerUpdate_Notes req) (Customer_Notes customer) |}.

Section with_library.
Variable lib : Library.

Definition UpdateCustomer (body : option CustomerUpdateRequest) : HandlerFunc := fun c db =>
  match ParamID c with
  | None => (invalid_id c "Invalid customer ID", db)
  | Some id =>
      match FirstCustomer db id with
      | None => (not_found c "CUSTOMER_NOT_FOUND" "Customer not found", db)
      | Some customer =>
          match body with
          | None => (bind_error c, db)
          | Some req =>
              if negb ((negb (nonempty (CustomerUpdate_Name req))
                        || within 1 255 (CustomerUpdate_Name req))
                       && (negb (nonempty (CustomerUpdate_Email req))
                           || validator_email lib (CustomerUpdate_Email req)))
              then (bind_error c, db)
              else
                let changes :=
                  nonempty (CustomerUpdate_Email req)
                  && negb (String.eqb (CustomerUpdate_Email req) (Customer_Email customer)) in
                if changes && negb (isValidEmail (CustomerUpdate_Email req)) then
                  (JSON c StatusBadRequest
                     (ErrorBody "validation_error" "INVALID_EMAIL" "Invalid email format"), db)
                else if changes
                        && bool_decide
                             (is_Some (FirstOtherCustomerByEmail db (CustomerUpdate_Email req) id))
                then
                  (JSON c StatusConflict
                     (ErrorBody "conflict" "EMAIL_EXISTS"
                        "A customer with this email already exists"), db)
                else
                  let email :=
                    if changes then CustomerUpdate_Email req else Customer_Email customer in
                  let customer := update_customer req email customer in
                  match SaveCustomer db (Clock c) customer with
                  | None => (database_error c "Failed to update customer", db)
                  | Some (customer, db) =>
                      let db := logAudit c "customer" (ID (Customer_Base customer))
                                  AuditActionUpdate db in
                      (JSON c StatusOK (CustomerBody customer), db)
                  end
          end
      end
  end.
End with_library.

(** *** contacts.go: ListContacts and DeleteContact *)

Record ContactListResponse := {
  ContactList_Data : list Contact;
  ContactList_Total : Z;
  ContactList_Page : Z;
  ContactList_PageSize : Z;
  ContactList_TotalPages : Z
}.

(** [ORDER BY is_primary DESC, created_at ASC] *)
Definition contact_le (a b : Contact) : bool :=
  (Contact_IsPrimary a && negb (Contact_IsPrimary b))
  || (Bool.eqb (Contact_IsPrimary a) (Contact_IsPrimary b)
      && (CreatedAt (Contact_Base a) <=? CreatedAt (Contact_Base b))).

(** [db.Where("customer_id = ?", customerID)] on [contacts] *)
Definition contacts_of (customerID : N) (db : DB) : list Contact :=
  List.filter (fun r => live Contact_Base r && (Contact_CustomerID r =? customerID)%N)
    (contacts db).

Definition ListContacts (c : Context) (db : DB) : Answer ContactListResponse :=
  match ParamID c with
  | None => Failure StatusBadRequest "validation_error" "INVALID_ID" "Invalid customer ID"
  | Some customerID =>
      match FirstCustomer db customerID with
      | None => Failure StatusNotFound "not_found" "CUSTOMER_NOT_FOUND" "Customer not found"
      | Some _ =>
          let '(page, pageSize) := pagination c in
          let total := Z.of_nat (length (contacts_of customerID db)) in
          let offset := wrap_int ((page - 1) * pageSize) in
          let contacts :=
            Limit pageSize
              (Offset offset
                 (merge_sort (fun a b => Is_true (contact_le a b)) (contacts_of customerID db))) in
          let totalPages := ceil_div total pageSize in
          Success StatusOK
            {| ContactList_Data := contacts; ContactList_Total := total;
               ContactList_Page := page; ContactList_PageSize := pageSize;
               ContactList_TotalPages := totalPages |}
      end
  end.

(** [db.Delete(&contact)]: [Contact] embeds [BaseModel], so the row is
    kept and stamped. *)
Definition DeleteContactRow (db : DB) (now : Z) (contact : Contact) : DB :=
  with_contacts (Delete Contact_Base Contact_with_Base contact now (contacts db))
    (contacts_seq db) db.

Definition DeleteContact : HandlerFunc := fun c db =>
  match ParamID c with
  | None => (invalid_id c "Invalid contact ID", db)
  | Some id =>
      match FirstContact db id with
      | None => (not_found c "CONTACT_NOT_FOUND" "Contact not found", db)
      | Some contact =>
          let db := DeleteContactRow db (Clock c) contact in
          let db := logAudit c "contact" (ID (Contact_Base contact)) AuditActionDelete db in
          (JSON c StatusOK (MessageBody "Contact deleted successfully"), db)
      end
  end.

(** *** deals.go: GetDeal and DeleteDeal *)

(** [GetDeal]; the relations it preloads are not part of [DealBody]. *)
Definition GetDeal : HandlerFunc := fun c db =>
  match ParamID c with
  | None => (invalid_id c "Invalid deal ID", db)
  | Some id =>
      match FirstDeal db id with
      | None => (not_found c "DEAL_NOT_FOUND" "Deal not found", db)
      | Some deal => (JSON c StatusOK (DealBody deal), db)
      end
  end.

Definition DeleteDealRow (db : DB) (now : Z) (deal : Deal) : DB :=
  with_deals (Delete Deal_Base Deal_with_Base deal now (deals db)) (deals_seq db) db.

Definition DeleteDeal : HandlerFunc := fun c db =>
  match ParamID c with
  | None => (invalid_id c "Invalid deal ID", db)
  | Some id =>
      match FirstDeal db id with
      | None => (not_found c "DEAL_NOT_FOUND" "Deal not found", db)
      | Some deal =>
          let db := DeleteDealRow db (Clock c) deal in
          let db := logAudit c "deal" (ID (Deal_Base deal)) AuditActionDelete db in
          (JSON c StatusOK (MessageBody "Deal deleted successfully"), db)
      end
  end.

(** *** The ORDER BY clauses of the list handlers *)

(** The clauses [ListCustomers] and [ListDeals] can hand to [Order]: an
    allowed column, a space, a direction. *)
Definition order_clauses (columns : list string) : list string :=
  flat_map (fun column => [String.append column " asc"; String.append column " desc"]) columns.

Definition customer_order_clauses : list string :=
  order_clauses ["created_at"; "updated_at"; "name"; "email"; "status"].

Definition deal_order_clauses : list string :=
  order_clauses ["created_at"; "updated_at"; "title"; "amount"; "expected_close_date"; "stage"].

(** The library with another engine behind ORDER BY. *)
Definition with_order (customer_le : string -> Customer -> Customer -> bool)
    (deal_le : string -> Deal -> Deal -> bool) (lib : Library) : Library :=
  {| jwt_ParseWithClaims := jwt_ParseWithClaims lib;
     validator_email := validator_email lib;
     strings_ToLower := strings_ToLower lib;
     time_Parse := time_Parse lib;
     strconv_ParseFloat := strconv_ParseFloat lib;
     sql_customer_cond_ok := sql_customer_cond_ok lib;
     sql_customer_holds := sql_customer_holds lib;
     sql_customer_le := customer_le;
     sql_deal_cond_ok := sql_deal_cond_ok lib;
     sql_deal_holds := sql_deal_holds lib;
     sql_deal_le := deal_le |}.

(** The key of [deals]: the sequence is past every identifier handed
    out. *)
Definition deal_keys_below_seq (db : DB) : Prop :=
  Forall (fun r => (ID (Deal_Base r) <= deals_seq db)%N) (deals db).

(** The columns of a customer that [PatchCustomer] has no field for,
    with the key and the times of creation and deletion. *)
Definition protected (r : Customer)
    : N * Z * option Z * string * string * string * string * string * string :=
  (ID (Customer_Base r), CreatedAt (Customer_Base r), DeletedAt (Customer_Base r),
   Customer_Name r, Customer_Email r, Customer_Phone r, Customer_Company r,
   Customer_Role r, Customer_Notes r).

(** *** The requests that write *)








End handlers_rest.

(** ** activities.go

    The activities live in a table of their own, beside the database of
    the other handlers. *)

Module activities.
Import models gorm gin extern middleware handlers answer.

Definition ActivityStatusScheduled := "scheduled".
Definition ActivityStatusCompleted := "completed".
Definition ActivityStatusCancelled := "cancelled".
Definition ActivityStatusOverdue := "overdue".

Record Activity := {
  Activity_Base : BaseModel;
  Activity_Title : string;
  Activity_Description : string;
  Activity_Type : string;
  Activity_Status : string;
  Activity_CustomerID : option N;
  Activity_DealID : option N;
  Activity_ContactID : option N;
  Activity_AssignedTo : option N;
  Activity_DueDate : option Z;
  Activity_CompletedAt : option Z;
  Activity_Duration : Z;
  Activity_Outcome : string;
  Activity_Priority : string
}.

Record ActivityListResponse := {
  ActivityList_Data : list Activity;
  ActivityList_Total : Z;
  ActivityList_Page : Z;
  ActivityList_PageSize : Z;
  ActivityList_TotalPages : Z
}.

Definition Activity_with_Base (b : BaseModel) (a : Activity) : Activity :=
  {| Activity_Base := b; Activity_Title := Activity_Title a;
     Activity_Description := Activity_Description a; Activity_Type := Activity_Type a;
     Activity_Status := Activity_Status a; Activity_CustomerID := Activity_CustomerID a;
     Activity_DealID := Activity_DealID a; Activity_ContactID := Activity_ContactID a;
     Activity_AssignedTo := Activity_AssignedTo a; Activity_DueDate := Activity_DueDate a;
     Activity_CompletedAt := Activity_CompletedAt a;
     Activity_Duration := Activity_Duration a; Activity_Outcome := Activity_Outcome a;
     Activity_Priority := Activity_Priority a |}.

Record Store := {
  core : DB;
  activities : list Activity;
  activities_seq : N
}.

Definition with_core (db : DB) (s : Store) : Store :=
  {| core := db; activities := activities s; activities_seq := activities_seq s |}.

Definition with_activities (rows : list Activity) (seq : N) (s : Store) : Store :=
  {| core := core s; activities := rows; activities_seq := seq |}.

(** The constraints of [activities]: the sizes of its columns, the
    INTEGER of [duration], and its three foreign keys. *)
Definition activity_columns_ok (a : Activity) : bool :=
  fits 255 (Activity_Title a) && fits 50 (Activity_Type a)
  && fits 50 (Activity_Status a) && fits 20 (Activity_Priority a)
  && (- 2 ^ 31 <=? Activity_Duration a) && (Activity_Duration a <? 2 ^ 31).

Definition key_ok {A : Type} (base : A -> BaseModel) (rows : list A) (key : option N) : bool :=
  match key with
  | None => true
  | Some k => row_exists base rows k
  end.

Definition activity_keys_ok (s : Store) (a : Activity) : bool :=
  key_ok Customer_Base (customers (core s)) (Activity_CustomerID a)
  && key_ok Deal_Base (deals (core s)) (Activity_DealID a)
  && key_ok Contact_Base (contacts (core s)) (Activity_ContactID a).

Definition FirstActivity (s : Store) (id : N) : option Activity :=
  First Activity_Base (activities s) id.

Definition CreateActivityRow (s : Store) (now : Z) (a : Activity) : option (Activity * Store) :=
  if activity_columns_ok a && activity_keys_ok s a then
    let '(a', rows, seq) :=
      Create Activity_with_Base a now (activities_seq s) (activities s) in
    Some (a', with_activities rows seq s)
  else None.

Definition SaveActivity (s : Store) (now : Z) (a : Activity) : option (Activity * Store) :=
  if activity_columns_ok a && activity_keys_ok s a then
    let '(a', rows) := Save Activity_Base Activity_with_Base a now (activities s) in
    Some (a', with_activities rows (activities_seq s) s)
  else None.

Definition DeleteActivityRow (s : Store) (now : Z) (a : Activity) : Store :=
  with_activities (Delete Activity_Base Activity_with_Base a now (activities s))
    (activities_seq s) s.

Definition audit (c : Context) (resourceID : N) (action : string) (s : Store) : Store :=
  with_core (logAudit c "activity" resourceID action (core s)) s.

Definition bind_failure {B : Type} : Answer B :=
  Failure StatusBadRequest "validation_error" "INVALID_REQUEST" "invalid request".

Definition invalid_activity_id {B : Type} : Answer B :=
  Failure StatusBadRequest "validation_error" "INVALID_ID" "Invalid activity ID".

Definition activity_not_found {B : Type} : Answer B :=
  Failure StatusNotFound "not_found" "ACTIVITY_NOT_FOUND" "Activity not found".

Definition database_failure {B : Type} (message : string) : Answer B :=
  Failure StatusInternalServerError "internal_error" "DATABASE_ERROR" message.

Record ActivityCreateRequest := {
  ActivityCreate_Title : string;
  ActivityCreate_Description : string;
  ActivityCreate_Type : string;
  ActivityCreate_Status : string;
  ActivityCreate_CustomerID : option N;
  ActivityCreate_DealID : option N;
  ActivityCreate_ContactID : option N;
  ActivityCreate_AssignedTo : option N;
  ActivityCreate_DueDate : option Z;
  ActivityCreate_Duration : Z;
  ActivityCreate_Priority : string
}.

Record ActivityUpdateRequest := {
  ActivityUpdate_Title : string;
  ActivityUpdate_Description : string;
  ActivityUpdate_Type : string;
  ActivityUpdate_Status : string;
  ActivityUpdate_CustomerID : option N;
  ActivityUpdate_DealID : option N;
  ActivityUpdate_ContactID : option N;
  ActivityUpdate_AssignedTo : option N;
  ActivityUpdate_DueDate : option Z;
  ActivityUpdate_CompletedAt : option Z;
  ActivityUpdate_Duration : option Z;
  ActivityUpdate_Outcome : string;
  ActivityUpdate_Priority : string
}.

Record ActivityStatusUpdateRequest := {
  ActivityStatusUpdate_Status : string;
  ActivityStatusUpdate_Outcome : string
}.

(** [ORDER BY due_date ASC NULLS LAST] *)
Definition due_le (a b : Activity) : bool :=
  match Activity_DueDate a, Activity_DueDate b with
  | Some x, Some y => x <=? y
  | Some _, None => true
  | None, Some _ => false
  | None, None => true
  end.

(** The conditions of [GetMyActivities]: the assignee, and the status
    of the query or, without one, scheduled or overdue. *)
Definition mine (userID : N) (status : string) (a : Activity) : bool :=
  live Activity_Base a
  && match Activity_AssignedTo a with
     | Some assignee => (assignee =? userID)%N
     | None => false
     end
  && (if nonempty status then String.eqb (Activity_Status a) status
      else String.eqb (Activity_Status a) ActivityStatusScheduled
           || String.eqb (Activity_Status a) ActivityStatusOverdue).

Definition GetMyActivities (c : Context) (s : Store) : Answer ActivityListResponse :=
  let '(user, exists_) := GetUserFromContext c in
  if negb exists_ then
    Failure StatusUnauthorized "unauthorized" "NO_USER_CONTEXT" "User not found in context"
  else
    let '(page, pageSize) := pagination c in
    let status := Query c "status" in
    let matching := List.filter (mine (User_ID user) status) (activities s) in
    let ordered := merge_sort (fun a b => Is_true (due_le a b)) matching in
    let total := Z.of_nat (length matching) in
    let offset := wrap_int ((page - 1) * pageSize) in
    let activities := Limit pageSize (Offset offset ordered) in
    let totalPages := ceil_div total pageSize in
    Success StatusOK
      {| ActivityList_Data := activities; ActivityList_Total := total;
         ActivityList_Page := page; ActivityList_PageSize := pageSize;
         ActivityList_TotalPages := totalPages |}.

(** The struct literal of [CreateActivity], after its defaults. *)
Definition new_activity (req : ActivityCreateRequest) (status priority : string) : Activity :=
  {| Activity_Base := fresh 0 0;
     Activity_Title := ActivityCreate_Title req;
     Activity_Description := ActivityCreate_Description req;
     Activity_Type := ActivityCreate_Type req;
     Activity_Status := status;
     Activity_CustomerID := ActivityCreate_CustomerID req;
     Activity_DealID := ActivityCreate_DealID req;
     Activity_ContactID := ActivityCreate_ContactID req;
     Activity_AssignedTo := ActivityCreate_AssignedTo req;
     Activity_DueDate := ActivityCreate_DueDate req;
     Activity_CompletedAt := None;
     Activity_Duration := ActivityCreate_Duration req;
     Activity_Outcome := "";
     Activity_Priority := priority |}.

Definition CreateActivity (body : option ActivityCreateRequest) (c : Context) (s : Store)
    : Answer Activity * Store :=
  match body with
  | None => (bind_failure, s)
  | Some req =>
      if negb (within 1 255 (ActivityCreate_Title req) && nonempty (ActivityCreate_Type req))
      then (bind_failure, s)
      else
        match ActivityCreate_CustomerID req, ActivityCreate_DealID req with
        | None, None =>
            (Failure StatusBadRequest "validation_error" "MISSING_LINK"
               "Activity must be linked to a customer or deal", s)
        | _, _ =>
            let status := ActivityCreate_Status req in
            let status := if String.eqb status "" then ActivityStatusScheduled else status in
            let priority := ActivityCreate_Priority req in
            let priority := if String.eqb priority "" then "normal" else priority in
            let activity := new_activity req status priority in
            match CreateActivityRow s (Clock c) activity with
            | None => (database_failure "Failed to create activity", s)
            | Some (activity, s) =>
                let activity :=
                  default activity (FirstActivity s (ID (Activity_Base activity))) in
                let s := audit c (ID (Activity_Base activity)) AuditActionCreate s in
                (Success StatusCreated activity, s)
            end
        end
  end.

Definition GetActivity (c : Context) (s : Store) : Answer Activity :=
  match ParamID c with
  | None => invalid_activity_id
  | Some id =>
      match FirstActivity s id with
      | None => activity_not_found
      | Some activity => Success StatusOK activity
      end
  end.

(** The assignments of [UpdateActivity] to the activity it loaded. *)
Definition update_activity (req : ActivityUpdateRequest) (activity : Activity) : Activity :=
  {| Activity_Base := Activity_Base activity;
     Activity_Title := or_keep (ActivityUpdate_Title req) (Activity_Title activity);
     Activity_Description :=
       or_keep (ActivityUpdate_Description req) (Activity_Description activity);
     Activity_Type := or_keep (ActivityUpdate_Type req) (Activity_Type activity);
     Activity_Status := or_keep (ActivityUpdate_Status req) (Activity_Status activity);
     Activity_CustomerID :=
       or_keep_ptr (ActivityUpdate_CustomerID req) (Activity_CustomerID activity);
     Activity_DealID := or_keep_ptr (ActivityUpdate_DealID req) (Activity_DealID activity);
     Activity_ContactID :=
       or_keep_ptr (ActivityUpdate_ContactID req) (Activity_ContactID activity);
     Activity_AssignedTo :=
       or_keep_ptr (ActivityUpdate_AssignedTo req) (Activity_AssignedTo activity);
     Activity_DueDate := or_keep_ptr (ActivityUpdate_DueDate req) (Activity_DueDate activity);
     Activity_CompletedAt :=
       or_keep_ptr (ActivityUpdate_CompletedAt req) (Activity_CompletedAt activity);
     Activity_Duration := default (Activity_Duration activity) (ActivityUpdate_Duration req);
     Activity_Outcome := or_keep (ActivityUpdate_Outcome req) (Activity_Outcome activity);
     Activity_Priority := or_keep (ActivityUpdate_Priority req) (Activity_Priority activity) |}.

Definition UpdateActivity (body : option ActivityUpdateRequest) (c : Context) (s : Store)
    : Answer Activity * Store :=
  match ParamID c with
  | None => (invalid_activity_id, s)
  | Some id =>
      match FirstActivity s id with
      | None => (activity_not_found, s)
      | Some activity =>
          match body with
          | None => (bind_failure, s)
          | Some req =>
              let activity := update_activity req activity in
              match SaveActivity s (Clock c) activity with
              | None => (database_failure "Failed to update activity", s)
              | Some (activity, s) =>
                  let activity :=
                    default activity (FirstActivity s (ID (Activity_Base activity))) in
                  let s := audit c (ID (Activity_Base activity)) AuditActionUpdate s in
                  (Success StatusOK activity, s)
              end
          end
      end
  end.

(** The assignments of [PatchActivity]: the status, the completion time
    when the status is completed, the outcome when one is sent. *)
Definition complete_activity (req : ActivityStatusUpdateRequest) (now : Z)
    (activity : Activity) : Activity :=
  {| Activity_Base := Activity_Base activity;
     Activity_Title := Activity_Title activity;
     Activity_Description := Activity_Description activity;
     Activity_Type := Activity_Type activity;
     Activity_Status := ActivityStatusUpdate_Status req;
     Activity_CustomerID := Activity_CustomerID activity;
     Activity_DealID := Activity_DealID activity;
     Activity_ContactID := Activity_ContactID activity;
     Activity_AssignedTo := Activity_AssignedTo activity;
     Activity_DueDate := Activity_DueDate activity;
     Activity_CompletedAt :=
       if String.eqb (ActivityStatusUpdate_Status req) ActivityStatusCompleted
       then Some now else Activity_CompletedAt activity;
     Activity_Duration := Activity_Duration activity;
     Activity_Outcome :=
       or_keep (ActivityStatusUpdate_Outcome req) (Activity_Outcome activity);
     Activity_Priority := Activity_Priority activity |}.

Definition PatchActivity (body : option ActivityStatusUpdateRequest) (c : Context) (s : Store)
    : Answer Activity * Store :=
  match ParamID c with
  | None => (invalid_activity_id, s)
  | Some id =>
      match FirstActivity s id with
      | None => (activity_not_found, s)
      | Some activity =>
          match body with
          | None => (bind_failure, s)
          | Some req =>
              if negb (nonempty (ActivityStatusUpdate_Status req)) then (bind_failure, s)
              else
                let activity := complete_activity req (Clock c) activity in
                match SaveActivity s (Clock c) activity with
                | None => (database_failure "Failed to update activity", s)
                | Some (activity, s) =>
                    let activity :=
                      default activity (FirstActivity s (ID (Activity_Base activity))) in
                    let s := audit c (ID (Activity_Base activity)) AuditActionUpdate s in
                    (Success StatusOK activity, s)
                end
          end
      end
  end.

Definition DeleteActivity (c : Context) (s : Store) : Answer string * Store :=
  match ParamID c with
  | None => (invalid_activity_id, s)
  | Some id =>
      match FirstActivity s id with
      | None => (activity_not_found, s)
      | Some activity =>
          let s := DeleteActivityRow s (Clock c) activity in
          let s := audit c (ID (Activity_Base activity)) AuditActionDelete s in
          (Success StatusOK "Activity deleted successfully", s)
      end
  end.

(** *** customers.go: GetCustomer, which reads the activities *)

Record CustomerDetailResponse := {
  Detail_Customer : Customer;
  Detail_ContactsCount : Z;
  Detail_OpenDealsCount : Z;
  Detail_UpcomingActivitiesCount : Z;
  Detail_RecentActivities : list Activity
}.

(** [ORDER BY created_at DESC] *)
Definition newer (a b : Activity) : bool :=
  CreatedAt (Activity_Base b) <=? CreatedAt (Activity_Base a).

Definition activity_of (customerID : N) (a : Activity) : bool :=
  live Activity_Base a
  && match Activity_CustomerID a with
     | Some k => (k =? customerID)%N
     | None => false
     end.

Definition GetCustomer (c : Context) (s : Store) : Answer CustomerDetailResponse :=
  match ParamID c with
  | None => Failure StatusBadRequest "validation_error" "INVALID_ID" "Invalid customer ID"
  | Some id =>
      match FirstCustomer (core s) id with
      | None => Failure StatusNotFound "not_found" "CUSTOMER_NOT_FOUND" "Customer not found"
      | Some customer =>
          let contactsCount :=
            Z.of_nat (length (List.filter
                                (fun r => live Contact_Base r && (Contact_CustomerID r =? id)%N)
                                (contacts (core s)))) in
          let openDealsCount :=
            Z.of_nat (length (List.filter
                                (fun d => live Deal_Base d && (Deal_CustomerID d =? id)%N
                                          && negb (existsb (String.eqb (Deal_Stage d))
                                                     [DealStageClosedWon; DealStageClosedLost]))
                                (deals (core s)))) in
          let upcomingActivitiesCount :=
            Z.of_nat (length (List.filter
                                (fun a => activity_of id a
                                          && String.eqb (Activity_Status a)
                                               ActivityStatusScheduled
                                          && match Activity_DueDate a with
                                             | Some due => Clock c <? due
                                             | None => false
                                             end)
                                (activities s))) in
          let recentActivities :=
            Limit 5 (merge_sort (fun a b => Is_true (newer a b))
                       (List.filter (activity_of id) (activities s))) in
          Success StatusOK
            {| Detail_Customer := customer;
               Detail_ContactsCount := contactsCount;
               Detail_OpenDealsCount := openDealsCount;
               Detail_UpcomingActivitiesCount := upcomingActivitiesCount;
               Detail_RecentActivities := recentActivities |}
      end
  end.

(** *** The writes, for the properties *)

Inductive ActivityOp :=
| PostActivity (c : Context) (body : option ActivityCreateRequest)
| PutActivity (c : Context) (body : option ActivityUpdateRequest)
| PatchActivity_ (c : Context) (body : option ActivityStatusUpdateRequest)
| DeleteActivity_ (c : Context).

Definition run_activity_op (op : ActivityOp) (s : Store) : Store :=
  match op with
  | PostActivity c body => snd (CreateActivity body c s)
  | PutActivity c body => snd (UpdateActivity body c s)
  | PatchActivity_ c body => snd (PatchActivity body c s)
  | DeleteActivity_ c => snd (DeleteActivity c s)
  end.

Definition run_activity_ops (ops : list ActivityOp) (s : Store) : Store :=
  fold_left (fun s op => run_activity_op op s) ops s.

(** A call for customer 1, assigned to a user, and the store of
    [fixtures.db_deal] without activities. *)
Definition call (assignee : option N) (dueDate : option Z) : ActivityCreateRequest :=
  {| ActivityCreate_Title := "Call"; ActivityCreate_Description := "";
     ActivityCreate_Type := "call"; ActivityCreate_Status := "";
     ActivityCreate_CustomerID := Some 1%N; ActivityCreate_DealID := None;
     ActivityCreate_ContactID := None; ActivityCreate_AssignedTo := assignee;
     ActivityCreate_DueDate := dueDate; ActivityCreate_Duration := 15;
     ActivityCreate_Priority := "" |}.

Definition no_activities : Store :=
  {| core := fixtures.db_deal; activities := []; activities_seq := 0 |}.

(** An activity is linked when it names a customer or a deal. *)
Definition linked (a : Activity) : Prop :=
  is_Some (Activity_CustomerID a) \/ is_Some (Activity_DealID a).

End activities.

(** ** routes.go: the routes of the /admin group

    Each route with its method, its full path, the gates in front of
    its handler, and the name of the handler; [JWTAuth] is in front of
    them all. *)

Module routes.
Import models gorm gin extern middleware.

Inductive Gate :=
| Permission (permission : string)
| Role (allowedRoles : list string).

Record Route := {
  Method : string;
  Path : string;
  Gates : list Gate;
  Handler : string
}.

Definition route (method path : string) (gates : list Gate) (handler : string) : Route :=
  {| Method := method; Path := path; Gates := gates; Handler := handler |}.

Definition admin_routes : list Route :=
  [ route "GET" "/admin/me" [] "GetMe";
    route "GET" "/admin/me/activities" [] "GetMyActivities";
    route "GET" "/admin/customers" [] "ListCustomers";
    route "POST" "/admin/customers" [Permission PermissionWrite] "CreateCustomer";
    route "GET" "/admin/customers/:id" [] "GetCustomer";
    route "PUT" "/admin/customers/:id" [Permission PermissionWrite] "UpdateCustomer";
    route "PATCH" "/admin/customers/:id" [Permission PermissionWrite] "PatchCustomer";
    route "DELETE" "/admin/customers/:id" [Permission PermissionDelete] "DeleteCustomer";
    route "GET" "/admin/customers/:id/contacts" [] "ListContacts";
    route "POST" "/admin/customers/:id/contacts" [Permission PermissionWrite] "CreateContact";
    route "POST" "/admin/customers/:id/tags/:tagId" [Permission PermissionWrite]
      "AssignTagToCustomer";
    route "DELETE" "/admin/customers/:id/tags/:tagId" [Permission PermissionWrite]
      "RemoveTagFromCustomer";
    route "PUT" "/admin/contacts/:id" [Permission PermissionWrite] "UpdateContact";
    route "DELETE" "/admin/contacts/:id" [Permission PermissionDelete] "DeleteContact";
    route "GET" "/admin/deals" [] "ListDeals";
    route "POST" "/admin/deals" [Permission PermissionWrite] "CreateDeal";
    route "GET" "/admin/deals/:id" [] "GetDeal";
    route "PUT" "/admin/deals/:id" [Permission PermissionWrite] "UpdateDeal";
    route "PATCH" "/admin/deals/:id" [Permission PermissionWrite] "PatchDeal";
    route "DELETE" "/admin/deals/:id" [Permission PermissionDelete] "DeleteDeal";
    route "GET" "/admin/activities" [] "ListActivities";
    route "POST" "/admin/activities" [Permission PermissionWrite] "CreateActivity";
    route "GET" "/admin/activities/:id" [] "GetActivity";
    route "PUT" "/admin/activities/:id" [Permission PermissionWrite] "UpdateActivity";
    route "PATCH" "/admin/activities/:id" [Permission PermissionWrite] "PatchActivity";
    route "DELETE" "/admin/activities/:id" [Permission PermissionDelete] "DeleteActivity";
    route "GET" "/admin/tags" [] "ListTags";
    route "POST" "/admin/tags" [Role [RoleAdmin]] "CreateTag";
    route "PUT" "/admin/tags/:id" [Role [RoleAdmin]] "UpdateTag";
    route "DELETE" "/admin/tags/:id" [Role [RoleAdmin]] "DeleteTag";
    route "GET" "/admin/reports/overview" [] "GetOverview" ].

Definition gate (g : Gate) : HandlerFunc :=
  match g with
  | Permission permission => RequirePermission permission
  | Role allowedRoles => RequireRole allowedRoles
  end.

(** The handlers gin runs for a request of the route, from the group's
    [JWTAuth] on, with [h] the handler of the route. *)
Definition chain (lib : Library) (jwtSecret : string) (r : Route) (h : HandlerFunc)
    : list HandlerFunc :=
  JWTAuth lib jwtSecret :: List.map gate (Gates r) ++ [h].

(** Whether a gate lets a role through. *)
Definition passes (role : string) (g : Gate) : bool :=
  match g with
  | Permission permission => HasPermission role permission
  | Role allowedRoles => existsb (fun allowed => String.eqb role allowed) allowedRoles
  end.

End routes.

(** ** config.go and cors.go

    The environment of the process is a map from names to values;
    [os.LookupEnv] is the lookup. *)

Module config.
Import handlers.

Record Config := {
  ServerPort : string;
  DBHost : string;
  DBPort : string;
  DBName : string;
  DBUser : string;
  DBPassword : string;
  DBSSLMode : string;
  JWTSecret : string;
  JWTIssuer : string;
  CORSAllowedOrigins : list string;
  Environment : string
}.

Definition getEnv (env : gmap string string) (key defaultValue : string) : string :=
  match env !! key with
  | Some value => value
  | None => defaultValue
  end.

Definition getEnvAsSlice (env : gmap string string) (key : string)
    (defaultValue : list string) : list string :=
  match env !! key with
  | Some value => Split value
  | None => defaultValue
  end.

Definition Load (env : gmap string string) : Config :=
  {| ServerPort := getEnv env "SERVER_PORT" "3000";
     DBHost := getEnv env "DB_HOST" "localhost";
     DBPort := getEnv env "DB_PORT" "5432";
     DBName := getEnv env "DB_NAME" "crm_db";
     DBUser := getEnv env "DB_USER" "postgres";
     DBPassword := getEnv env "DB_PASSWORD" "postgres";
     DBSSLMode := getEnv env "DB_SSLMODE" "disable";
     JWTSecret := getEnv env "JWT_SECRET" "your-super-secret-key-change-in-production";
     JWTIssuer := getEnv env "JWT_ISSUER" "cms";
     CORSAllowedOrigins :=
       getEnvAsSlice env "CORS_ALLOWED_ORIGINS"
         ["http://localhost:3000"; "http://localhost:3001"];
     Environment := getEnv env "ENVIRONMENT" "development" |}.

Definition IsDevelopment (c : Config) : bool := String.eqb (Environment c) "development".

Definition IsProduction (c : Config) : bool := String.eqb (Environment c) "production".

Definition GetDSN (c : Config) : string :=
  String.append "host=" (String.append (DBHost c)
    (String.append " user=" (String.append (DBUser c)
      (String.append " password=" (String.append (DBPassword c)
        (String.append " dbname=" (String.append (DBName c)
          (String.append " port=" (String.append (DBPort c)
            (String.append " sslmode=" (String.append (DBSSLMode c) " TimeZone=UTC"))))))))))).

End config.

Module cors.

(** The [cors.Config] that [CORS] hands to [cors.New]; [MaxAge] in
    hours. *)
Record Config := {
  AllowAllOrigins : bool;
  AllowOrigins : list string;
  AllowMethods : list string;
  AllowHeaders : list string;
  ExposeHeaders : list string;
  AllowCredentials : bool;
  MaxAge : Z
}.

Definition CORS (allowedOrigins : list string) : Config :=
  let config :=
    {| AllowAllOrigins := false;
       AllowOrigins := allowedOrigins;
       AllowMethods := ["GET"; "POST"; "PUT"; "PATCH"; "DELETE"; "OPTIONS"];
       AllowHeaders := ["Origin"; "Content-Type"; "Accept"; "Authorization"; "X-Request-ID"];
       ExposeHeaders := ["Content-Length"; "X-Request-ID"];
       AllowCredentials := true;
       MaxAge := 12 |} in
  if (length allowedOrigins =? 0)%nat then
    {| AllowAllOrigins := true;
       AllowOrigins := AllowOrigins config;
       AllowMethods := AllowMethods config;
       AllowHeaders := AllowHeaders config;
       ExposeHeaders := ExposeHeaders config;
       AllowCredentials := AllowCredentials config;
       MaxAge := MaxAge config |}
  else config.

End cors.

(** ** database.go: the seeding of the pipeline stages *)

Module database.
Import models gorm.

Record PipelineStage := {
  Stage_Base : BaseModel;
  Stage_Name : string;
  Stage_DisplayName : string;
  Stage_Order : Z;
  Stage_Color : string;
  Stage_IsActive : bool
}.

Definition Stage_with_Base (b : BaseModel) (s : PipelineStage) : PipelineStage :=
  {| Stage_Base := b; Stage_Name := Stage_Name s;
     Stage_DisplayName := Stage_DisplayName s; Stage_Order := Stage_Order s;
     Stage_Color := Stage_Color s; Stage_IsActive := Stage_IsActive s |}.

(** The table [pipeline_stages] and its sequence. *)
Record Stages := {
  pipeline_stages : list PipelineStage;
  pipeline_stages_seq : N
}.

Definition stage_columns_ok (s : PipelineStage) : bool :=
  fits 100 (Stage_Name s) && fits 100 (Stage_DisplayName s) && fits 7 (Stage_Color s).

(** [db.Where("name = ?", name).First(&existing)] *)
Definition FirstStageByName (t : Stages) (name : string) : option PipelineStage :=
  FirstWhere Stage_Base (fun r => String.eqb (Stage_Name r) name) (pipeline_stages t).

(** [db.Create(&stage)]: the unique index on [name] covers every row,
    deleted or not. *)
Definition CreateStage (t : Stages) (now : Z) (s : PipelineStage)
    : option (PipelineStage * Stages) :=
  if stage_columns_ok s
     && negb (existsb (fun r => String.eqb (Stage_Name r) (Stage_Name s)) (pipeline_stages t))
  then
    let '(s', rows, seq) :=
      Create Stage_with_Base s now (pipeline_stages_seq t) (pipeline_stages t) in
    Some (s', {| pipeline_stages := rows; pipeline_stages_seq := seq |})
  else None.

Definition stage (name displayName : string) (order : Z) (color : string) : PipelineStage :=
  {| Stage_Base := fresh 0 0; Stage_Name := name; Stage_DisplayName := displayName;
     Stage_Order := order; Stage_Color := color; Stage_IsActive := true |}.

Definition default_stages : list PipelineStage :=
  [ stage "prospecting" "Prospecting" 1 "#6366f1";
    stage "qualification" "Qualification" 2 "#8b5cf6";
    stage "proposal" "Proposal" 3 "#a855f7";
    stage "negotiation" "Negotiation" 4 "#f59e0b";
    stage "closed_won" "Closed Won" 5 "#22c55e";
    stage "closed_lost" "Closed Lost" 6 "#ef4444" ].

(** The loop of [SeedPipelineStages]; the first component is the error
    it returns. *)
Fixpoint seed (stages : list PipelineStage) (now : Z) (t : Stages) : option string * Stages :=
  match stages with
  | [] => (None, t)
  | s :: rest =>
      match FirstStageByName t (Stage_Name s) with
      | None =>
          match CreateStage t now s with
          | None => (Some (String.append "failed to seed pipeline stage " (Stage_Name s)), t)
          | Some (_, t) => seed rest now t
          end
      | Some _ => seed rest now t
      end
  end.

Definition SeedPipelineStages (now : Z) (t : Stages) : option string * Stages :=
  seed default_stages now t.

End database.

(** ** reports.go: the customer statistics *)

Module reports.
Import models gorm.

Record CustomerStats := {
  Stats_Total : Z;
  Stats_ByStatus : gmap string Z
}.

Definition CustomerStatusProspect := "prospect".
Definition CustomerStatusActive := "active".
Definition CustomerStatusInactive := "inactive".
Definition CustomerStatusChurned := "churned".

Definition statuses : list string :=
  [CustomerStatusLead; CustomerStatusProspect; CustomerStatusActive;
   CustomerStatusInactive; CustomerStatusChurned].

(** [db.Model(&models.Customer{}).Where("status = ?", status).Count(&count)] *)
Definition count_status (db : DB) (status : string) : Z :=
  Z.of_nat (length (List.filter (fun r => live Customer_Base r
                                          && String.eqb (Customer_Status r) status)
                      (customers db))).

Definition getCustomerStats (db : DB) : CustomerStats :=
  let total := Z.of_nat (length (List.filter (live Customer_Base) (customers db))) in
  let byStatus :=
    fold_left (fun (byStatus : gmap string Z) status =>
                 <[status := count_status db status]> byStatus)
      statuses ∅ in
  {| Stats_Total := total; Stats_ByStatus := byStatus |}.

(** The sum of the buckets of the report. *)
Definition buckets (stats : CustomerStats) : Z :=
  map_fold (fun _ count sum => sum + count) 0 (Stats_ByStatus stats).

End reports.

(** * Properties *)

Import models gorm gin extern middleware handlers.

(** The status of the response a context carries. *)
Definition status_of (c : Context) : option Z := Status <$> Writer c.

(** The same request served at another instant. *)
Definition later (now : Z) (c : Context) : Context :=
  {| Req := Req c; Clock := now; Keys := Keys c; Aborted := Aborted c; Writer := Writer c |}.

(** A customer row without its last-update timestamp. *)
Definition forget_updated_at (r : Customer) : Customer :=
  Customer_with_Base
    {| ID := ID (Customer_Base r); CreatedAt := CreatedAt (Customer_Base r);
       UpdatedAt := 0; DeletedAt := DeletedAt (Customer_Base r) |} r.

(** A create or an update of a contact, with the context it is served in. *)
Inductive ContactOp :=
| CreateOp (c : Context) (body : option ContactCreateRequest)
| UpdateOp (c : Context) (body : option ContactUpdateRequest).

Definition run_op (op : ContactOp) (db : DB) : Context * DB :=
  match op with
  | CreateOp c body => CreateContact body c db
  | UpdateOp c body => UpdateContact body c db
  end.

Definition run_ops (ops : list ContactOp) (db : DB) : DB :=
  fold_left (fun db op => snd (run_op op db)) ops db.

(** The contacts of a customer that carry [is_primary = true], among the
    rows that are not deleted. *)
Definition is_primary_of (customerID : N) (r : Contact) : bool :=
  live Contact_Base r && (Contact_CustomerID r =? customerID)%N && Contact_IsPrimary r.

Definition primaries (customerID : N) (db : DB) : list Contact :=
  List.filter (is_primary_of customerID) (contacts db).

(** The operation, run on [db], sets [is_primary = true] for a contact of
    the customer: its payload asks for it and it answers 201 or 200 with
    a contact of that customer. *)
Definition asks_primary (op : ContactOp) : bool :=
  match op with
  | CreateOp _ (Some req) => ContactCreate_IsPrimary req
  | UpdateOp _ (Some req) =>
      match ContactUpdate_IsPrimary req with Some true => true | _ => false end
  | _ => false
  end.

Definition sets_primary (customerID : N) (op : ContactOp) (db : DB) : bool :=
  asks_primary op
  && match Writer (fst (run_op op db)) with
     | Some {| Status := code; Payload := ContactBody contact |} =>
         ((code =? StatusCreated) || (code =? StatusOK))
         && (Contact_CustomerID contact =? customerID)%N
     | _ => false
     end.

(** The key of [contacts]: no two rows share an identifier, and the
    sequence is past every identifier handed out. *)
Definition contact_keys_ok (db : DB) : Prop :=
  NoDup (List.map (fun r => ID (Contact_Base r)) (contacts db))
  /\ Forall (fun r => (ID (Contact_Base r) <= contacts_seq db)%N) (contacts db).

(** What [UpdateContactsWhere] with [unset_primary] makes of one row. *)
Definition unset_where (cond : Contact -> bool) (now : Z) (r : Contact) : Contact :=
  if live Contact_Base r && cond r
  then Contact_with_Base (touch now (Contact_Base r)) (unset_primary r) else r.

(** One step of case analysis on the outcome of a handler: the match
    at the head of the equation, never one inside a record. *)
Ltac head_case H :=
  cbv zeta in H;
  lazymatch type of H with
  | (match ?x with _ => _ end) = _ => destruct x eqn:?
  end.

Arguments FirstCustomer : simpl never.
Arguments FirstCustomerByEmail : simpl never.
Arguments FirstContact : simpl never.
Arguments FirstDeal : simpl never.
Arguments gorm.CreateCustomer : simpl never.
Arguments gorm.CreateContact : simpl never.
Arguments gorm.CreateDeal : simpl never.
Arguments SaveContact : simpl never.
Arguments SaveDeal : simpl never.
Arguments UpdatesCustomer : simpl never.
Arguments UpdateContactsWhere : simpl never.
Arguments logAudit : simpl never.
Arguments ParamID : simpl never.

(** ** The tables *)

Section table_laws.
Context {A : Type} (base : A -> BaseModel) (with_base : BaseModel -> A -> A).
Hypothesis base_with_base : forall b r, base (with_base b r) = b.

Lemma First_Some (rows : list A) (id : N) (x : A) :
  First base rows id = Some x ->
  In x rows /\ live base x = true /\ ID (base x) = id.
Proof.
  unfold First, FirstWhere. intros Hfind. apply find_some in Hfind as [Hin Hx].
  apply andb_true_iff in Hx as [Hlive Hid]. apply N.eqb_eq in Hid. done.
Qed.

(** What [Save] wrote is what [First] reads back. *)
Lemma First_Save (rows : list A) (id : N) (x y : A) (now : Z) :
  First base rows id = Some y ->
  live base x = true -> ID (base x) = id ->
  First base (snd (Save base with_base x now rows)) id
    = Some (fst (Save base with_base x now rows)).
Proof.
  intros Hy Hlive Hid. unfold Save, First, FirstWhere in *. simpl.
  set (x' := with_base (touch now (base x)) x).
  assert (Hx' : live base x' && has_id base id x' = true).
  { unfold live, has_id, x' in *. rewrite base_with_base. simpl.
    rewrite Hid, N.eqb_refl. by destruct (DeletedAt (base x)). }
  rewrite Hid. clear Hlive. induction rows as [|r rows IH]; simpl in *; [done|].
  destruct (live base r && has_id base id r) eqn:Hr; simpl.
  - by rewrite Hx'.
  - rewrite Hr. auto.
Qed.
End table_laws.

Lemma CreateDeal_Some db now d d' db' :
  gorm.CreateDeal db now d = Some (d', db') ->
  d' = Deal_with_Base (fresh (deals_seq db + 1) now) d
  /\ db' = with_deals (deals db ++ [d']) (deals_seq db + 1)%N db.
Proof.
  unfold gorm.CreateDeal, Create. intros H. case_match; simplify_eq/=. done.
Qed.

Lemma SaveDeal_Some db now d d' db' :
  SaveDeal db now d = Some (d', db') ->
  d' = fst (Save Deal_Base Deal_with_Base d now (deals db))
  /\ db' = with_deals (snd (Save Deal_Base Deal_with_Base d now (deals db))) (deals_seq db) db.
Proof.
  unfold SaveDeal. intros H. case_match; simplify_eq/=. done.
Qed.

(** A deal written by [SaveDeal] over the deal that was read is the deal
    read back. *)
Lemma FirstDeal_SaveDeal db now id d0 d d' db' :
  FirstDeal db id = Some d0 ->
  Deal_Base d = Deal_Base d0 ->
  SaveDeal db now d = Some (d', db') ->
  FirstDeal db' id = Some d' /\ d' = Deal_with_Base (touch now (Deal_Base d0)) d.
Proof.
  intros Hfirst Hbase Hsave. apply SaveDeal_Some in Hsave as [-> ->].
  apply (First_Some Deal_Base) in Hfirst as Hd0. destruct Hd0 as (_ & Hlive & Hid).
  split.
  - unfold FirstDeal. simpl. eapply (First_Save Deal_Base Deal_with_Base); eauto.
    + unfold live in *. by rewrite Hbase.
    + by rewrite Hbase.
  - simpl. by rewrite Hbase.
Qed.

(** ** C10: the role and permission table *)

Lemma RolePermissions_lookup (role : string) :
  RolePermissions !! role =
    if String.eqb role "admin" then Some ["read"; "write"; "delete"; "manage_all"]
    else if String.eqb role "manager" then Some ["read"; "write"; "delete"; "manage_all"]
    else if String.eqb role "agent" then Some ["read"; "write"; "manage_own"]
    else None.
Proof.
  unfold RolePermissions.
  destruct (String.eqb_spec role "admin") as [->|Hadmin]; [by rewrite lookup_insert_eq|].
  rewrite lookup_insert_ne by (unfold RoleAdmin; congruence).
  destruct (String.eqb_spec role "manager") as [->|Hmanager]; [by rewrite lookup_insert_eq|].
  rewrite lookup_insert_ne by (unfold RoleManager; congruence).
  destruct (String.eqb_spec role "agent") as [->|Hagent]; [by rewrite lookup_insert_eq|].
  rewrite lookup_insert_ne by (unfold RoleAgent; congruence).
  apply lookup_empty.
Qed.

Lemma existsb_eqb_elem_of (x : string) (l : list string) :
  existsb (fun y => String.eqb y x) l = true <-> x ∈ l.
Proof.
  rewrite existsb_exists, list_elem_of_In. split.
  - intros (y & Hin & Heq). apply String.eqb_eq in Heq. by subst.
  - intros Hin. exists x. split; [done | apply String.eqb_refl].
Qed.

(** C10. A role outside the table {admin, manager, agent} has no
    permission at all, and [RequirePermission] answers it 403 Forbidden
    whatever the permission; for every role, [HasPermission] holds
    exactly for the permissions of the role's fixed set. *)
Theorem HasPermission_fixed_table (role permission : string) :
  (role <> "admin" -> role <> "manager" -> role <> "agent" ->
     HasPermission role permission = false /\
     forall c db, Get c ContextKeyUserRole = Some (AnyString role) ->
       RequirePermission permission c db =
         (AbortWithStatusJSON c StatusForbidden
            (ErrorBody "forbidden" "INSUFFICIENT_PERMISSIONS"
               "You do not have permission to perform this action"), db))
  /\ (HasPermission role permission = true <-> permission ∈ spec.permission_set role).
Proof.
  split.
  - intros Hadmin Hmanager Hagent.
    assert (Hfalse : HasPermission role permission = false).
    { unfold HasPermission. rewrite RolePermissions_lookup.
      apply String.eqb_neq in Hadmin, Hmanager, Hagent.
      by rewrite Hadmin, Hmanager, Hagent. }
    split; [exact Hfalse|].
    intros c db Hrole. unfold RequirePermission. by rewrite Hrole, Hfalse.
  - unfold HasPermission, spec.permission_set. rewrite RolePermissions_lookup.
    destruct (role =? "admin")%string; [apply existsb_eqb_elem_of|].
    destruct (role =? "manager")%string; [apply existsb_eqb_elem_of|].
    destruct (role =? "agent")%string; [apply existsb_eqb_elem_of|].
    split; [done | by intros ?%elem_of_nil].
Qed.

(** The role "auditor", carried by a well-signed token, is refused the
    [read] permission. *)
Lemma HasPermission_fixed_table_witness :
  HasPermission "auditor" "read" = false
  /\ status_of (fst (Next [JWTAuth fixtures.lib "s3cret"; RequirePermission "read"]
                      (fixtures.incoming 1
                         (fixtures.request [("Authorization", "Bearer auditor.token")] [] []))
                      fixtures.empty_db))
     = Some StatusForbidden.
Proof.
  destruct (HasPermission_fixed_table "auditor" "read") as [Hunknown _].
  destruct Hunknown as [Hfalse Hforbidden]; [done | done | done |].
  split; [exact Hfalse|].
  set (c := fst (JWTAuth fixtures.lib "s3cret"
                   (fixtures.incoming 1
                      (fixtures.request [("Authorization", "Bearer auditor.token")] [] []))
                   fixtures.empty_db)).
  assert (Hrole : Get c ContextKeyUserRole = Some (AnyString "auditor")) by (vm_compute; done).
  specialize (Hforbidden c fixtures.empty_db Hrole).
  change (status_of (fst (if Aborted c then (c, fixtures.empty_db)
                          else Next [RequirePermission "read"] c fixtures.empty_db))
          = Some StatusForbidden).
  assert (Hpass : Aborted c = false) by (vm_compute; done).
  rewrite Hpass. simpl. by rewrite Hforbidden.
Defined.

(** ** C3: the probability of a deal *)

Lemma clamp_probability_spec (p : Z) :
  clamp_probability p = spec.clamped p /\ 0 <= clamp_probability p <= 100.
Proof.
  unfold clamp_probability, spec.clamped.
  destruct (Z.ltb_spec p 0); destruct (Z.ltb_spec 100 p);
    try destruct (Z.ltb_spec 100 0); lia.
Qed.

(** C3. A deal that [CreateDeal] or [UpdateDeal] stores carries the
    probability of the request clamped into [0,100]: 0 for an input below
    0, 100 for one above 100, the input itself inside the range. *)
Theorem deal_probability_clamped (c : Context) (db : DB) :
  (forall req c' db',
     CreateDeal (Some req) c db = (c', db') ->
     status_of c' = Some StatusCreated ->
     exists d, deals db' = deals db ++ [d]
               /\ Deal_Probability d = spec.clamped (DealCreate_Probability req)
               /\ 0 <= Deal_Probability d <= 100)
  /\ (forall req p c' db',
        UpdateDeal (Some req) c db = (c', db') ->
        status_of c' = Some StatusOK ->
        DealUpdate_Probability req = Some p ->
        exists id d, ParamID c = Some id
                     /\ FirstDeal db' id = Some d
                     /\ Writer c' = Some {| Status := StatusOK; Payload := DealBody d |}
                     /\ Deal_Probability d = spec.clamped p
                     /\ 0 <= Deal_Probability d <= 100).
Proof.
  split.
  - intros req c' db' Hrun Hstatus. unfold CreateDeal in Hrun.
    repeat head_case Hrun; simplify_eq/=; try done.
    match goal with H : gorm.CreateDeal _ _ _ = Some _ |- _ =>
      apply CreateDeal_Some in H as [-> ->] end.
    eexists. split; [done|]. simpl. apply clamp_probability_spec.
  - intros req p c' db' Hrun Hstatus Hp. unfold UpdateDeal in Hrun.
    repeat head_case Hrun; simplify_eq/=; try done.
    lazymatch goal with
    | Hfirst : FirstDeal db ?id = Some ?d0, Hsave : SaveDeal _ _ ?d = Some _ |- _ =>
        destruct (FirstDeal_SaveDeal _ _ id d0 d _ _ Hfirst eq_refl Hsave) as [Hback ->];
        apply (First_Some Deal_Base) in Hfirst as (_ & _ & Hid)
    end.
    simpl in *. rewrite Hid in *. rewrite Hback. simpl.
    eexists _, _. split; [done|]. split; [exact Hback|]. split; [done|].
    simpl. rewrite Hp. apply clamp_probability_spec.
Qed.

(** On Jane's database: a deal created with probability 250 is stored
    with 100, and updated with -5 it is stored with 0. *)
Lemma deal_probability_clamped_witness :
  (exists d, deals (snd (CreateDeal (Some (fixtures.deal_request "" 250))
                           (fixtures.as_admin 20 (fixtures.request [] [] []))
                           fixtures.db_jane))
             = deals fixtures.db_jane ++ [d]
             /\ Deal_Probability d = 100)
  /\ (exists d, FirstDeal (snd (UpdateDeal (Some (fixtures.deal_update "" (Some (-5))))
                                  (fixtures.as_admin 30 (fixtures.request [] [] [("id", "1")]))
                                  fixtures.db_deal)) 1
                = Some d
                /\ Deal_Probability d = 0).
Proof.
  split.
  - pose proof (proj1 (deal_probability_clamped
                         (fixtures.as_admin 20 (fixtures.request [] [] []))
                         fixtures.db_jane)) as Hcreate.
    destruct (CreateDeal (Some (fixtures.deal_request "" 250))
                (fixtures.as_admin 20 (fixtures.request [] [] [])) fixtures.db_jane)
      as [c' db'] eqn:Hrun.
    destruct (Hcreate _ _ _ Hrun) as (d & Hrows & Hprob & _).
    { change c' with (fst (c', db')). rewrite <- Hrun. vm_compute. reflexivity. }
    exists d. split; [exact Hrows | exact Hprob].
  - pose proof (proj2 (deal_probability_clamped
                         (fixtures.as_admin 30 (fixtures.request [] [] [("id", "1")]))
                         fixtures.db_deal)) as Hupdate.
    destruct (UpdateDeal (Some (fixtures.deal_update "" (Some (-5))))
                (fixtures.as_admin 30 (fixtures.request [] [] [("id", "1")])) fixtures.db_deal)
      as [c' db'] eqn:Hrun.
    destruct (Hupdate _ (-5) _ _ Hrun) as (id & d & Hid & Hfirst & _ & Hprob & _).
    { change c' with (fst (c', db')). rewrite <- Hrun. vm_compute. reflexivity. }
    { reflexivity. }
    assert (id = 1%N) as -> by (vm_compute in Hid; congruence).
    exists d. split; [exact Hfirst | exact Hprob].
Defined.

(** ** C4: the stage of a deal *)

(** [UpdateDeal] and [PatchDeal] refuse a stage outside the six known
    values and leave the database as it was. *)
Lemma UpdateDeal_rejects_unknown_stage req c db id deal :
  ParamID c = Some id -> FirstDeal db id = Some deal ->
  DealUpdate_Stage req <> "" -> IsValidDealStage (DealUpdate_Stage req) = false ->
  UpdateDeal (Some req) c db = (invalid_stage c, db).
Proof.
  intros Hid Hdeal Hstage Hvalid. unfold UpdateDeal. rewrite Hid, Hdeal, Hvalid.
  unfold nonempty. apply String.eqb_neq in Hstage. by rewrite Hstage.
Qed.

Lemma PatchDeal_rejects_unknown_stage req c db id deal :
  ParamID c = Some id -> FirstDeal db id = Some deal ->
  DealStageTransition_Stage req <> "" ->
  IsValidDealStage (DealStageTransition_Stage req) = false ->
  PatchDeal (Some req) c db = (invalid_stage c, db).
Proof.
  intros Hid Hdeal Hstage Hvalid. unfold PatchDeal. rewrite Hid, Hdeal, Hvalid.
  unfold nonempty. apply String.eqb_neq in Hstage. by rewrite Hstage.
Qed.

(** C4, on [CreateDeal]: the stage "bogus" is none of the six known
    values, yet the deal is created with it: the answer is 201 and the
    row is in the table.  [CreateDeal] never calls [IsValidDealStage]. *)
Theorem CreateDeal_stores_unknown_stage :
  let '(c', db') :=
    CreateDeal (Some (fixtures.deal_request "bogus" 0))
      (fixtures.as_admin 20 (fixtures.request [] [] [])) fixtures.db_jane in
  IsValidDealStage "bogus" = false
  /\ status_of c' = Some StatusCreated
  /\ Deal_Stage <$> FirstDeal db' 1 = Some "bogus".
Proof. vm_compute. done. Qed.

(** ** C5: the page size of a list query *)

(** When [Atoi] reports an error its value is 0 or a bound of [int]. *)
Lemma Atoi_error_value (s : string) (n : Z) (e : strconv.NumError) :
  strconv.Atoi s = (n, Some e) -> n = 0 \/ n = 2 ^ 63 - 1 \/ n = - 2 ^ 63.
Proof.
  unfold strconv.Atoi, strconv.ParseInt. destruct s as [|ch rest]; [intros [= <- _]; auto|].
  destruct (strconv.ParseUint _ 64) as [un err].
  destruct err as [[]|]; repeat case_match; intros [= <- ?]; auto; done.
Qed.

Lemma ListCustomers_page_size lib c db c' db' r :
  ListCustomers lib c db = (c', db') ->
  Writer c' = Some {| Status := StatusOK; Payload := CustomerListBody r |} ->
  CustomerList_Page r = fst (pagination c)
  /\ CustomerList_PageSize r = snd (pagination c)
  /\ Z.of_nat (length (CustomerList_Data r)) <= Z.max 0 (snd (pagination c)).
Proof.
  unfold ListCustomers. destruct (pagination c) as [page pageSize]. intros Hrun Hbody.
  head_case Hrun; simplify_eq/=; try done.
  split; [done|]. split; [done|]. unfold Limit. rewrite length_take. lia.
Qed.

Lemma ListDeals_page_size lib c db c' db' r :
  ListDeals lib c db = (c', db') ->
  Writer c' = Some {| Status := StatusOK; Payload := DealListBody r |} ->
  DealList_Page r = fst (pagination c)
  /\ DealList_PageSize r = snd (pagination c)
  /\ Z.of_nat (length (DealList_Data r)) <= Z.max 0 (snd (pagination c)).
Proof.
  unfold ListDeals. destruct (pagination c) as [page pageSize]. intros Hrun Hbody.
  head_case Hrun; simplify_eq/=; try done.
  split; [done|]. split; [done|]. unfold Limit. rewrite length_take. lia.
Qed.

(** C5 as stated fails: a request for 150 rows a page is served with 20,
    not with 100, and a request for 0 with 20, not with 1. *)
Lemma page_size_is_not_clamped :
  let big := fixtures.incoming 1 (fixtures.request [] [("page_size", "150")] []) in
  let zero := fixtures.incoming 1 (fixtures.request [] [("page_size", "0")] []) in
  snd (pagination big) = 20 /\ spec.clamped_page_size 150 = 100
  /\ snd (pagination zero) = 20 /\ spec.clamped_page_size 0 = 1
  /\ exists r, Writer (fst (ListCustomers fixtures.lib big fixtures.db_jane))
               = Some {| Status := StatusOK; Payload := CustomerListBody r |}
               /\ CustomerList_PageSize r = 20.
Proof.
  repeat split; try (vm_compute; reflexivity).
  eexists. split; [vm_compute; reflexivity|]. reflexivity.
Qed.

(** C5, amended. The page size of a list query is 20 when [page_size]
    is omitted, the requested number when that parses and lies in
    [1,100], and the default 20 when it does not parse or lies outside
    [1,100]; it is the page size [ListCustomers] and [ListDeals] answer
    with, and bounds the rows they return. *)
Theorem page_size_default_outside_range (c : Context) :
  (URLQuery (Req c) !! "page_size" = None -> snd (pagination c) = 20)
  /\ (forall s n err,
        URLQuery (Req c) !! "page_size" = Some s -> strconv.Atoi s = (n, err) ->
        (err = None -> 1 <= n <= 100 -> snd (pagination c) = n)
        /\ (err <> None \/ n < 1 \/ 100 < n -> snd (pagination c) = 20))
  /\ 1 <= snd (pagination c) <= 100
  /\ (forall lib db r,
        Writer (fst (ListCustomers lib c db))
          = Some {| Status := StatusOK; Payload := CustomerListBody r |} ->
        CustomerList_PageSize r = snd (pagination c)
        /\ Z.of_nat (length (CustomerList_Data r)) <= snd (pagination c))
  /\ (forall lib db r,
        Writer (fst (ListDeals lib c db))
          = Some {| Status := StatusOK; Payload := DealListBody r |} ->
        DealList_PageSize r = snd (pagination c)
        /\ Z.of_nat (length (DealList_Data r)) <= snd (pagination c)).
Proof.
  assert (Hrange : 1 <= snd (pagination c) <= 100).
  { unfold pagination. simpl.
    destruct (Z.ltb_spec (fst (strconv.Atoi (DefaultQuery c "page_size" "20"))) 1);
      destruct (Z.ltb_spec 100 (fst (strconv.Atoi (DefaultQuery c "page_size" "20"))));
      simpl; lia. }
  split; [|split; [|split; [exact Hrange|split]]].
  - intros Hnone. unfold pagination, DefaultQuery. rewrite Hnone. reflexivity.
  - intros s n err Hsome Hatoi. unfold pagination, DefaultQuery. rewrite Hsome. simpl.
    rewrite Hatoi. simpl. split.
    + intros _ Hn.
      destruct (Z.ltb_spec n 1); destruct (Z.ltb_spec 100 n); simpl; lia.
    + intros Hout.
      assert (n < 1 \/ 100 < n) as Hn.
      { destruct Hout as [Herr|Hout]; [|exact Hout].
        destruct err as [e|]; [|done].
        apply Atoi_error_value in Hatoi. lia. }
      destruct (Z.ltb_spec n 1); destruct (Z.ltb_spec 100 n); simpl; lia.
  - intros lib db r Hbody.
    destruct (ListCustomers lib c db) as [c' db'] eqn:Hrun.
    destruct (ListCustomers_page_size _ _ _ _ _ _ Hrun Hbody) as (_ & ? & ?).
    split; [done | lia].
  - intros lib db r Hbody.
    destruct (ListDeals lib c db) as [c' db'] eqn:Hrun.
    destruct (ListDeals_page_size _ _ _ _ _ _ Hrun Hbody) as (_ & ? & ?).
    split; [done | lia].
Qed.

(** A request for 50 rows a page is served with 50, one for 150, or for
    a text that is no number, with 20. *)
Lemma page_size_default_outside_range_witness :
  snd (pagination (fixtures.incoming 1 (fixtures.request [] [("page_size", "50")] []))) = 50
  /\ snd (pagination (fixtures.incoming 1 (fixtures.request [] [("page_size", "150")] []))) = 20
  /\ snd (pagination (fixtures.incoming 1 (fixtures.request [] [("page_size", "many")] []))) = 20
  /\ snd (pagination (fixtures.incoming 1 (fixtures.request [] [] []))) = 20.
Proof.
  split; [|split; [|split]].
  - refine (proj1 (proj1 (proj2 (page_size_default_outside_range _)) "50" 50 None _ _) _ _);
      [reflexivity | reflexivity | reflexivity | lia].
  - refine (proj2 (proj1 (proj2 (page_size_default_outside_range _)) "150" 150 None _ _) _);
      [reflexivity | reflexivity | lia].
  - refine (proj2 (proj1 (proj2 (page_size_default_outside_range _)) "many" 0
                     (Some strconv.ErrSyntax) _ _) _);
      [reflexivity | reflexivity | left; discriminate].
  - refine (proj1 (page_size_default_outside_range _) _). reflexivity.
Defined.

(** ** C8: a request the guards reject *)

Lemma JWTAuth_db lib jwtSecret c db : snd (JWTAuth lib jwtSecret c db) = db.
Proof. unfold JWTAuth. repeat case_match; reflexivity. Qed.

Lemma RequirePermission_db permission c db : snd (RequirePermission permission c db) = db.
Proof. unfold RequirePermission. repeat case_match; reflexivity. Qed.

Lemma RequireRole_db allowedRoles c db : snd (RequireRole allowedRoles c db) = db.
Proof. unfold RequireRole. repeat case_match; reflexivity. Qed.

Lemma Next_aborted (h : HandlerFunc) (rest : list HandlerFunc) c db :
  Aborted (fst (h c db)) = true -> Next (h :: rest) c db = h c db.
Proof. simpl. destruct (h c db) as [c' db']. simpl. by intros ->. Qed.

Lemma Next_passed (h : HandlerFunc) (rest : list HandlerFunc) c db :
  Aborted (fst (h c db)) = false -> Next (h :: rest) c db = Next rest (fst (h c db)) (snd (h c db)).
Proof. simpl. destruct (h c db) as [c' db']. simpl. by intros ->. Qed.

(** C8. On a protected route, whose chain is [JWTAuth], possibly a
    permission or role gate, and then the handlers [rest]: when the
    identity verification or the gate aborts, the chain ends there with
    the guard's response, whatever [rest] is, and the database is the one
    before the request; a request without an Authorization header is
    answered 401 MISSING_TOKEN. *)
Theorem guard_failure_leaves_store_unchanged (lib : Library) (jwtSecret : string)
    (rest : list HandlerFunc) (c : Context) (db : DB) :
  let auth := JWTAuth lib jwtSecret in
  let verified := fst (auth c db) in
  (Aborted verified = true -> Next (auth :: rest) c db = (verified, db))
  /\ (forall permission,
        let gate := RequirePermission permission in
        Aborted verified = false -> Aborted (fst (gate verified db)) = true ->
        Next (auth :: gate :: rest) c db = (fst (gate verified db), db))
  /\ (forall allowedRoles,
        let gate := RequireRole allowedRoles in
        Aborted verified = false -> Aborted (fst (gate verified db)) = true ->
        Next (auth :: gate :: rest) c db = (fst (gate verified db), db))
  /\ (Header (Req c) !! "Authorization" = None ->
        Next (auth :: rest) c db =
          (AbortWithStatusJSON c StatusUnauthorized
             (ErrorBody "unauthorized" "MISSING_TOKEN" "Authorization header is required"), db)).
Proof.
  intros auth verified. subst auth verified.
  pose proof (JWTAuth_db lib jwtSecret c db) as Hauth.
  split; [|split; [|split]].
  - intros Habort. rewrite Next_aborted by exact Habort.
    destruct (JWTAuth lib jwtSecret c db); simpl in *; congruence.
  - intros permission gate Hpass Habort. subst gate.
    rewrite Next_passed by exact Hpass. rewrite Hauth in *.
    rewrite Next_aborted by exact Habort.
    pose proof (RequirePermission_db permission (fst (JWTAuth lib jwtSecret c db)) db) as Hgate.
    destruct (RequirePermission _ _ _); simpl in *; congruence.
  - intros allowedRoles gate Hpass Habort. subst gate.
    rewrite Next_passed by exact Hpass. rewrite Hauth in *.
    rewrite Next_aborted by exact Habort.
    pose proof (RequireRole_db allowedRoles (fst (JWTAuth lib jwtSecret c db)) db) as Hgate.
    destruct (RequireRole _ _ _); simpl in *; congruence.
  - intros Hheader.
    assert (Hrun : JWTAuth lib jwtSecret c db =
                   (AbortWithStatusJSON c StatusUnauthorized
                      (ErrorBody "unauthorized" "MISSING_TOKEN"
                         "Authorization header is required"), db)).
    { unfold JWTAuth, GetHeader. by rewrite Hheader. }
    rewrite Next_aborted; rewrite Hrun; reflexivity.
Qed.

(** Creating Jane without an Authorization header, or as an "auditor",
    leaves the empty database empty; the same chain run by an admin
    stores her. *)
Lemma guard_failure_leaves_store_unchanged_witness :
  let create := CreateCustomer fixtures.lib (Some fixtures.jane) in
  let chain := [JWTAuth fixtures.lib "s3cret"; RequirePermission "write"; create] in
  let anonymous := fixtures.incoming 10 (fixtures.request [] [] []) in
  let auditor :=
    fixtures.incoming 10 (fixtures.request [("Authorization", "Bearer auditor.token")] [] []) in
  let admin :=
    fixtures.incoming 10 (fixtures.request [("Authorization", "Bearer admin.token")] [] []) in
  snd (Next chain anonymous fixtures.empty_db) = fixtures.empty_db
  /\ status_of (fst (Next chain anonymous fixtures.empty_db)) = Some StatusUnauthorized
  /\ snd (Next chain auditor fixtures.empty_db) = fixtures.empty_db
  /\ status_of (fst (Next chain auditor fixtures.empty_db)) = Some StatusForbidden
  /\ customers (snd (Next chain admin fixtures.empty_db)) <> [].
Proof.
  intros create chain anonymous auditor admin.
  destruct (guard_failure_leaves_store_unchanged fixtures.lib "s3cret"
              [RequirePermission "write"; create] anonymous fixtures.empty_db)
    as (_ & _ & _ & Hmissing).
  destruct (guard_failure_leaves_store_unchanged fixtures.lib "s3cret"
              [create] auditor fixtures.empty_db)
    as (_ & Hgate & _ & _).
  specialize (Hmissing eq_refl).
  specialize (Hgate "write" eq_refl eq_refl).
  unfold chain. rewrite Hmissing, Hgate.
  repeat split; try reflexivity.
  vm_compute. discriminate.
Defined.

(** ** C2: the close date of a deal *)

(** C2 as stated fails on the full update: [UpdateDeal] moves "Deal A"
    from [prospecting] to [closed_won] and leaves its close date null. *)
Lemma UpdateDeal_closing_leaves_close_date_null :
  let '(c', db') :=
    UpdateDeal (Some (fixtures.deal_update "closed_won" None))
      (fixtures.as_admin 30 (fixtures.request [] [] [("id", "1")])) fixtures.db_deal in
  Deal_Stage <$> FirstDeal fixtures.db_deal 1 = Some "prospecting"
  /\ status_of c' = Some StatusOK
  /\ Deal_Stage <$> FirstDeal db' 1 = Some "closed_won"
  /\ Deal_ActualCloseDate <$> FirstDeal db' 1 = Some None.
Proof. vm_compute. done. Qed.

(** C2, amended. A stage-transition patch whose stage is [closed_won] or
    [closed_lost] persists the deal with that stage and with the instant
    of the request as its close date, whatever the stage was before.  A
    full update persists the close date of its payload when there is
    one, and otherwise the close date the deal had, whatever stage it
    sets. *)
Theorem PatchDeal_stamps_close_date (c : Context) (db : DB) :
  (forall req c' db',
     PatchDeal (Some req) c db = (c', db') ->
     status_of c' = Some StatusOK ->
     DealStageTransition_Stage req = DealStageClosedWon
     \/ DealStageTransition_Stage req = DealStageClosedLost ->
     exists id d, ParamID c = Some id
                  /\ FirstDeal db' id = Some d
                  /\ Writer c' = Some {| Status := StatusOK; Payload := DealBody d |}
                  /\ Deal_Stage d = DealStageTransition_Stage req
                  /\ Deal_ActualCloseDate d = Some (Clock c))
  /\ (forall req c' db' id d0,
        UpdateDeal (Some req) c db = (c', db') ->
        status_of c' = Some StatusOK ->
        ParamID c = Some id -> FirstDeal db id = Some d0 ->
        exists d, FirstDeal db' id = Some d
                  /\ Deal_ActualCloseDate d =
                       match DealUpdate_ActualCloseDate req with
                       | Some t => Some t
                       | None => Deal_ActualCloseDate d0
                       end).
Proof.
  split.
  - intros req c' db' Hrun Hstatus Hclosed. unfold PatchDeal in Hrun.
    repeat head_case Hrun; simplify_eq/=; try done.
    lazymatch goal with
    | Hfirst : FirstDeal db ?id = Some ?d0, Hsave : SaveDeal _ _ ?d = Some _ |- _ =>
        destruct (FirstDeal_SaveDeal _ _ id d0 d _ _ Hfirst eq_refl Hsave) as [Hback ->];
        apply (First_Some Deal_Base) in Hfirst as (_ & _ & Hid)
    end.
    simpl in *. rewrite Hid in *. rewrite Hback. simpl.
    eexists _, _. split; [done|]. split; [exact Hback|]. split; [done|].
    simpl. split; [done|].
    assert (is_closed (DealStageTransition_Stage req) = true) as ->; [|done].
    unfold is_closed. destruct Hclosed as [-> | ->]; reflexivity.
  - intros req c' db' id d0 Hrun Hstatus Hid Hfirst0. unfold UpdateDeal in Hrun.
    rewrite Hid, Hfirst0 in Hrun.
    repeat head_case Hrun; simplify_eq/=; try done.
    lazymatch goal with
    | Hsave : SaveDeal _ _ ?d = Some _ |- _ =>
        destruct (FirstDeal_SaveDeal _ _ id d0 d _ _ Hfirst0 eq_refl Hsave) as [Hback ->]
    end.
    eexists. split; [exact Hback|]. reflexivity.
Qed.

(** Patching "Deal A" to [closed_lost] with the reason "budget" at
    instant 30 stores the stage, the reason and 30 as the close date. *)
Lemma PatchDeal_stamps_close_date_witness :
  exists d,
    FirstDeal (snd (PatchDeal (Some (fixtures.deal_transition "closed_lost" "budget"))
                      (fixtures.as_admin 30 (fixtures.request [] [] [("id", "1")]))
                      fixtures.db_deal)) 1
    = Some d
    /\ Deal_Stage d = "closed_lost"
    /\ Deal_LostReason d = "budget"
    /\ Deal_ActualCloseDate d = Some 30.
Proof.
  pose proof (proj1 (PatchDeal_stamps_close_date
                       (fixtures.as_admin 30 (fixtures.request [] [] [("id", "1")]))
                       fixtures.db_deal)) as Hpatch.
  destruct (PatchDeal (Some (fixtures.deal_transition "closed_lost" "budget"))
              (fixtures.as_admin 30 (fixtures.request [] [] [("id", "1")])) fixtures.db_deal)
    as [c' db'] eqn:Hrun.
  destruct (Hpatch _ _ _ Hrun) as (id & d & Hid & Hfirst & Hbody & Hstage & Hdate).
  { change c' with (fst (c', db')). rewrite <- Hrun. vm_compute. reflexivity. }
  { right. reflexivity. }
  assert (id = 1%N) as -> by (vm_compute in Hid; congruence).
  exists d. split; [exact Hfirst|]. split; [exact Hstage|]. split; [|exact Hdate].
  assert (Hwritten : Writer (fst (c', db')) = Writer c') by reflexivity.
  rewrite <- Hrun in Hwritten. rewrite Hbody in Hwritten.
  vm_compute in Hwritten. by injection Hwritten as <-.
Defined.

(** ** C9: the same PATCH of a customer, twice *)

Lemma set_columns_idempotent updates b r :
  set_columns updates (Customer_with_Base b (set_columns updates r))
  = Customer_with_Base b (set_columns updates r).
Proof. unfold set_columns, Customer_with_Base. simpl. f_equal; repeat case_match; congruence. Qed.

Lemma customer_columns_ok_base b r :
  customer_columns_ok (Customer_with_Base b r) = customer_columns_ok r.
Proof. reflexivity. Qed.

(** Updating the same columns of the same rows again changes nothing
    but [updated_at]. *)
Lemma UpdateWhere_again (id : N) updates (t1 t2 : Z) (rows : list Customer) :
  let once := UpdateWhere Customer_Base Customer_with_Base (has_id Customer_Base id)
                (set_columns updates) t1 rows in
  let twice := UpdateWhere Customer_Base Customer_with_Base (has_id Customer_Base id)
                 (set_columns updates) t2 once in
  List.map forget_updated_at twice = List.map forget_updated_at once
  /\ (t2 = t1 -> twice = once).
Proof.
  simpl. unfold UpdateWhere. rewrite !List.map_map. split.
  - apply List.map_ext. intros r.
    destruct (live Customer_Base r && has_id Customer_Base id r) eqn:Hr.
    + unfold live, has_id in *. simpl. rewrite Hr. simpl.
      rewrite set_columns_idempotent. reflexivity.
    + rewrite Hr. reflexivity.
  - intros ->. apply List.map_ext. intros r.
    destruct (live Customer_Base r && has_id Customer_Base id r) eqn:Hr.
    + unfold live, has_id in *. simpl. rewrite Hr. simpl.
      rewrite set_columns_idempotent. reflexivity.
    + rewrite Hr. reflexivity.
Qed.

Lemma UpdatesCustomer_Some db now id set db' :
  UpdatesCustomer db now id set = Some db' ->
  db' = with_customers
          (UpdateWhere Customer_Base Customer_with_Base (has_id Customer_Base id) set now
             (customers db))
          (customers_seq db) db.
Proof. unfold UpdatesCustomer. intros H. case_match; simplify_eq/=. done. Qed.

Lemma UpdatesCustomer_None db t1 t2 id set :
  UpdatesCustomer db t1 id set = None -> UpdatesCustomer db t2 id set = None.
Proof. unfold UpdatesCustomer. by case_match. Qed.

(** What [PatchCustomer] does to the database: nothing, at whatever
    instant it is served, or an update of the columns of the payload on
    the rows of the customer. *)
Lemma PatchCustomer_outcome body c db :
  (forall now, snd (PatchCustomer body (later now c) db) = db)
  \/ exists id req,
       ParamID c = Some id /\ body = Some req
       /\ forall now,
            customers (snd (PatchCustomer body (later now c) db))
            = UpdateWhere Customer_Base Customer_with_Base (has_id Customer_Base id)
                (set_columns (patch_updates req)) now (customers db).
Proof.
  unfold PatchCustomer. change (ParamID (later _ c)) with (ParamID c).
  destruct (ParamID c) as [id|]; [|by left].
  destruct (FirstCustomer db id) as [customer|] eqn:Hfirst; [|by left].
  destruct body as [req|]; [|by left].
  destruct (is_empty (patch_updates req)); [by left|].
  apply (First_Some Customer_Base) in Hfirst as (_ & _ & ->).
  destruct (UpdatesCustomer db (Clock c) id (set_columns (patch_updates req))) as [db'|] eqn:Hupd.
  - right. exists id, req. split; [done|]. split; [done|]. intros now.
    change (Clock (later now c)) with now.
    destruct (UpdatesCustomer db now id (set_columns (patch_updates req))) as [db''|] eqn:Hupd'.
    + apply UpdatesCustomer_Some in Hupd' as ->. reflexivity.
    + apply (UpdatesCustomer_None _ _ (Clock c)) in Hupd'. congruence.
  - left. intros now. change (Clock (later now c)) with now.
    by rewrite (UpdatesCustomer_None _ _ now _ _ Hupd).
Qed.

Lemma later_same c : later (Clock c) c = c.
Proof. by destruct c. Qed.

Lemma later_later t1 t2 c : later t2 (later t1 c) = later t2 c.
Proof. reflexivity. Qed.

Lemma PatchCustomer_twice body c (t1 t2 : Z) db :
  let db1 := snd (PatchCustomer body (later t1 c) db) in
  let db2 := snd (PatchCustomer body (later t2 c) db1) in
  List.map forget_updated_at (customers db2) = List.map forget_updated_at (customers db1)
  /\ (t2 = t1 -> customers db2 = customers db1).
Proof.
  intros db1 db2. subst db1 db2.
  destruct (PatchCustomer_outcome body c db) as [Hnone | (id & req & Hid & Hbody & Hfirst)].
  - rewrite (Hnone t1), (Hnone t2). done.
  - destruct (PatchCustomer_outcome body c (snd (PatchCustomer body (later t1 c) db)))
      as [Hnone | (id' & req' & Hid' & Hbody' & Hsecond)].
    + rewrite Hnone. done.
    + assert (id' = id) as -> by congruence. assert (req' = req) as -> by congruence.
      rewrite Hsecond, Hfirst. apply UpdateWhere_again.
Qed.

(** C9 as stated fails: the second of two identical PATCH requests,
    served at a later instant, leaves a customer row that differs from
    the row after the first in its last-update timestamp. *)
Lemma PatchCustomer_twice_differs :
  let patch : CustomerPatchRequest :=
    {| CustomerPatch_Status := Some "active"; CustomerPatch_AssignedTo := None;
       CustomerPatch_Contacted := Some true; CustomerPatch_NextFollowUpAt := None |} in
  let c := fixtures.as_admin 30 (fixtures.request [] [] [("id", "1")]) in
  let db1 := snd (PatchCustomer (Some patch) c fixtures.db_jane) in
  let db2 := snd (PatchCustomer (Some patch) (later 40 c) db1) in
  customers db2 <> customers db1
  /\ (UpdatedAt ∘ Customer_Base) <$> customers db1 = [30]
  /\ (UpdatedAt ∘ Customer_Base) <$> customers db2 = [40].
Proof. vm_compute. split; [discriminate | done]. Qed.

(** C9, amended. Two identical PATCH requests against a customer, the
    second served at the instant [now], leave the table of customers
    after the second as it was after the first in every column but the
    last-update timestamp, which each successful call sets to its own
    instant; when both are served at the same instant the table is the
    same. *)
Theorem PatchCustomer_idempotent (body : option CustomerPatchRequest) (c : Context)
    (now : Z) (db : DB) :
  let db1 := snd (PatchCustomer body c db) in
  let db2 := snd (PatchCustomer body (later now c) db1) in
  List.map forget_updated_at (customers db2) = List.map forget_updated_at (customers db1)
  /\ (now = Clock c -> customers db2 = customers db1).
Proof.
  pose proof (PatchCustomer_twice body c (Clock c) now db) as Htwice.
  rewrite later_same in Htwice. exact Htwice.
Qed.

(** Jane, patched to "active" and contacted at instant 30 and again at
    instant 40: the rows differ in nothing but [updated_at]; patched
    twice at instant 30, they are equal. *)
Lemma PatchCustomer_idempotent_witness :
  let patch : CustomerPatchRequest :=
    {| CustomerPatch_Status := Some "active"; CustomerPatch_AssignedTo := None;
       CustomerPatch_Contacted := Some true; CustomerPatch_NextFollowUpAt := None |} in
  let c := fixtures.as_admin 30 (fixtures.request [] [] [("id", "1")]) in
  let db1 := snd (PatchCustomer (Some patch) c fixtures.db_jane) in
  Customer_Status <$> customers db1 = ["active"]
  /\ List.map forget_updated_at (customers (snd (PatchCustomer (Some patch) (later 40 c) db1)))
     = List.map forget_updated_at (customers db1)
  /\ customers (snd (PatchCustomer (Some patch) (later 30 c) db1)) = customers db1.
Proof.
  intros patch c db1. split; [vm_compute; reflexivity|]. split.
  - exact (proj1 (PatchCustomer_idempotent (Some patch) c 40 fixtures.db_jane)).
  - exact (proj2 (PatchCustomer_idempotent (Some patch) c 30 fixtures.db_jane) eq_refl).
Defined.

(** ** C7: two customers with one email *)

Lemma FirstWhere_None {A : Type} (base : A -> BaseModel) (cond : A -> bool) (rows : list A) :
  existsb cond rows = false -> FirstWhere base cond rows = None.
Proof.
  unfold FirstWhere. induction rows as [|r rows IH]; simpl; [done|].
  intros [Hr Hrows]%orb_false_iff. rewrite Hr, andb_false_r. auto.
Qed.

Lemma FirstWhere_last {A : Type} (base : A -> BaseModel) (cond : A -> bool)
    (rows : list A) (x : A) :
  existsb cond rows = false -> live base x = true -> cond x = true ->
  FirstWhere base cond (rows ++ [x]) = Some x.
Proof.
  unfold FirstWhere. intros Hrows Hlive Hx.
  induction rows as [|r rows IH]; simpl in *.
  - by rewrite Hlive, Hx.
  - apply orb_false_iff in Hrows as [Hr Hrows]. rewrite Hr, andb_false_r. auto.
Qed.

Lemma CreateCustomer_ok db now c :
  customer_columns_ok c = true -> email_taken (Customer_Email c) (customers db) = false ->
  gorm.CreateCustomer db now c =
    let c' := Customer_with_Base (fresh (customers_seq db + 1) now) c in
    Some (c', with_customers (customers db ++ [c']) (customers_seq db + 1)%N db).
Proof. intros Hcolumns Hfree. unfold gorm.CreateCustomer. by rewrite Hcolumns, Hfree. Qed.

(** When no row of the table, deleted or not, carries the email, the
    first of two valid creations succeeds and the second is refused with
    409 EMAIL_EXISTS and changes nothing. *)
Lemma CreateCustomer_twice lib req c1 c2 db :
  within 1 255 (CustomerCreate_Name req) = true ->
  validator_email lib (CustomerCreate_Email req) = true ->
  isValidEmail (CustomerCreate_Email req) = true ->
  customer_columns_ok
    (new_customer req (if String.eqb (CustomerCreate_Status req) "" then CustomerStatusLead
                       else CustomerCreate_Status req)) = true ->
  email_taken (CustomerCreate_Email req) (customers db) = false ->
  let first := CreateCustomer lib (Some req) c1 db in
  let second := CreateCustomer lib (Some req) c2 (snd first) in
  status_of (fst first) = Some StatusCreated
  /\ length (customers (snd first)) = S (length (customers db))
  /\ Writer (fst second)
     = Some {| Status := StatusConflict;
               Payload := ErrorBody "conflict" "EMAIL_EXISTS"
                            "A customer with this email already exists" |}
  /\ snd second = snd first.
Proof.
  intros Hname Hvalidator Hregex Hcolumns Hfree first second.
  assert (Hnonempty : nonempty (CustomerCreate_Email req) = true).
  { unfold nonempty. destruct (CustomerCreate_Email req); [discriminate Hregex | done]. }
  assert (Hguards : forall c db0,
             CreateCustomer lib (Some req) c db0 =
             match FirstCustomerByEmail db0 (CustomerCreate_Email req) with
             | Some _ =>
                 (JSON c StatusConflict
                    (ErrorBody "conflict" "EMAIL_EXISTS"
                       "A customer with this email already exists"), db0)
             | None =>
                 match gorm.CreateCustomer db0 (Clock c)
                         (new_customer req
                            (if String.eqb (CustomerCreate_Status req) ""
                             then CustomerStatusLead else CustomerCreate_Status req)) with
                 | None => (database_error c "Failed to create customer", db0)
                 | Some (customer, db0') =>
                     (JSON c StatusCreated (CustomerBody customer),
                      logAudit c "customer" (ID (Customer_Base customer)) AuditActionCreate db0')
                 end
             end).
  { intros c db0. unfold CreateCustomer. rewrite Hname, Hnonempty, Hvalidator, Hregex.
    simpl. destruct (FirstCustomerByEmail db0 _); [done|].
    by destruct (gorm.CreateCustomer _ _ _) as [[]|]. }
  assert (Hnone : FirstCustomerByEmail db (CustomerCreate_Email req) = None)
    by (apply FirstWhere_None; exact Hfree).
  assert (Hfirst : CreateCustomer lib (Some req) c1 db =
            let customer :=
              Customer_with_Base (fresh (customers_seq db + 1) (Clock c1))
                (new_customer req
                   (if String.eqb (CustomerCreate_Status req) ""
                    then CustomerStatusLead else CustomerCreate_Status req)) in
            (JSON c1 StatusCreated (CustomerBody customer),
             logAudit c1 "customer" (ID (Customer_Base customer)) AuditActionCreate
               (with_customers (customers db ++ [customer]) (customers_seq db + 1)%N db))).
  { rewrite Hguards, Hnone, (CreateCustomer_ok db (Clock c1) _ Hcolumns Hfree). reflexivity. }
  subst first second. rewrite Hfirst. cbv zeta. cbn [fst snd].
  split; [done|]. split; [simpl; by rewrite length_app, Nat.add_1_r|].
  rewrite Hguards. unfold FirstCustomerByEmail. simpl.
  rewrite (FirstWhere_last Customer_Base); [done | exact Hfree | done | apply String.eqb_refl].
Qed.

(** C7, where the code departs from it.  Jane is created, soft-deleted,
    and created again.  Before the second creation no customer that is
    not deleted carries her email, and her request is the valid one that
    succeeded before; yet the creation fails with 500 DATABASE_ERROR and
    stores nothing: the unique index on [customers.email] covers the
    deleted row, which the handler's own check does not see. *)
Theorem CreateCustomer_after_soft_delete_fails :
  let admin := fun now params => fixtures.as_admin now (fixtures.request [] [] params) in
  let '(c1, db1) := CreateCustomer fixtures.lib (Some fixtures.jane) (admin 10 []) fixtures.empty_db in
  let '(c2, db2) := DeleteCustomer (admin 11 [("id", "1")]) db1 in
  let '(c3, db3) := CreateCustomer fixtures.lib (Some fixtures.jane) (admin 12 []) db2 in
  status_of c1 = Some StatusCreated
  /\ status_of c2 = Some StatusOK
  /\ List.filter (live Customer_Base) (customers db2) = []
  /\ FirstCustomerByEmail db2 "jane@x.com" = None
  /\ Writer c3 = Some {| Status := StatusInternalServerError;
                         Payload := ErrorBody "internal_error" "DATABASE_ERROR"
                                      "Failed to create customer" |}
  /\ db3 = db2.
Proof. vm_compute. done. Qed.

(** ** C6: the page of a list query *)

Lemma pagination_range (c : Context) :
  1 <= fst (pagination c) /\ 1 <= snd (pagination c) <= 100.
Proof.
  unfold pagination. simpl.
  destruct (Z.ltb_spec (fst (strconv.Atoi (DefaultQuery c "page" "1"))) 1);
    destruct (Z.ltb_spec (fst (strconv.Atoi (DefaultQuery c "page_size" "20"))) 1);
    destruct (Z.ltb_spec 100 (fst (strconv.Atoi (DefaultQuery c "page_size" "20"))));
    simpl; lia.
Qed.

Lemma wrap_int_in_range (z : Z) : - 2 ^ 63 <= z <= strconv.maxInt64 -> wrap_int z = z.
Proof.
  unfold wrap_int, strconv.maxInt64. intros Hz.
  rewrite Z.mod_small by lia. lia.
Qed.

Lemma ceil_div_spec (total pageSize : Z) :
  0 <= total -> 1 <= pageSize -> ceil_div total pageSize = spec.total_pages total pageSize.
Proof.
  intros Htotal Hsize. unfold ceil_div, spec.total_pages.
  pose proof (Z.div_mod total pageSize ltac:(lia)) as Hdiv.
  pose proof (Z.mod_pos_bound total pageSize ltac:(lia)) as Hmod.
  destruct (Z.eqb_spec (total mod pageSize) 0) as [Hzero | Hnonzero].
  - symmetry. apply (Z.div_unique _ _ _ (pageSize - 1)); lia.
  - symmetry. apply (Z.div_unique _ _ _ (total mod pageSize - 1)); lia.
Qed.

Lemma page_length {A : Type} (rows : list A) (page pageSize : Z) :
  1 <= page -> 1 <= pageSize ->
  Z.of_nat (length (Limit pageSize (Offset ((page - 1) * pageSize) rows)))
  = spec.page_items (Z.of_nat (length rows)) page pageSize.
Proof.
  intros Hpage Hsize. unfold Limit, Offset, spec.page_items.
  destruct (Z.ltb_spec 0 ((page - 1) * pageSize)).
  - rewrite length_take, length_drop. lia.
  - rewrite length_take. assert ((page - 1) * pageSize = 0) as -> by nia. lia.
Qed.

(** Within the range of [int]: the page [ListCustomers] answers with is
    cut from the rows that its count counted, [total_pages] is the
    ceiling of total over page size, and the page holds
    min(page_size, max(0, total - (page-1)*page_size)) rows. *)
Lemma ListCustomers_page_counts lib c db c' db' r :
  ListCustomers lib c db = (c', db') ->
  Writer c' = Some {| Status := StatusOK; Payload := CustomerListBody r |} ->
  let page := fst (pagination c) in
  let pageSize := snd (pagination c) in
  (page - 1) * pageSize <= strconv.maxInt64 ->
  (exists query rows,
     customer_result lib query db = Some rows
     /\ CustomerList_Total r = customer_count lib query db
     /\ CustomerList_Total r = Z.of_nat (length rows)
     /\ CustomerList_Data r = Limit pageSize (Offset ((page - 1) * pageSize) rows))
  /\ CustomerList_TotalPages r = spec.total_pages (CustomerList_Total r) pageSize
  /\ Z.of_nat (length (CustomerList_Data r))
     = spec.page_items (CustomerList_Total r) page pageSize.
Proof.
  intros Hrun Hbody page pageSize Hrange. subst page pageSize.
  pose proof (pagination_range c) as (Hpage & Hsize & _).
  unfold ListCustomers in Hrun. destruct (pagination c) as [page pageSize]. simpl in *.
  head_case Hrun; simplify_eq/=; try done.
  lazymatch goal with
  | Hrows : customer_result lib ?q ?db0 = Some ?rows |- _ =>
      assert (Hcount : customer_count lib q db0 = Z.of_nat (length rows))
        by (unfold customer_count; by rewrite Hrows);
      rewrite Hcount; rewrite wrap_int_in_range by (unfold strconv.maxInt64 in *; nia);
      split; [exists q, rows; by rewrite Hcount|]
  end.
  split; [apply ceil_div_spec; lia | by apply page_length].
Qed.

(** The scenario of the specification: page 3 of 45 customers, 20 a
    page, holds 5 rows, and there are 3 pages. *)
Lemma ListCustomers_third_page :
  let c := fixtures.as_admin 50 (fixtures.request [] [("page", "3"); ("page_size", "20")] []) in
  exists r,
    Writer (fst (ListCustomers fixtures.lib c (fixtures.db_leads 45)))
    = Some {| Status := StatusOK; Payload := CustomerListBody r |}
    /\ CustomerList_Total r = 45
    /\ CustomerList_TotalPages r = 3
    /\ length (CustomerList_Data r) = 5%nat.
Proof. eexists. split; [vm_compute; reflexivity|]. done. Qed.

(** C6, where the code departs from it.  Page 4611686018427387905
    (2^62 + 1) of the same 45 customers, 20 a page, lies far beyond the
    last row and should be empty.  The handler computes the offset
    [(page - 1) * pageSize] in [int], where 2^62 * 20 wraps around to 0,
    and answers with the first 20 rows. *)
Theorem ListCustomers_page_overflow :
  let c := fixtures.as_admin 50
             (fixtures.request [] [("page", "4611686018427387905"); ("page_size", "20")] []) in
  exists r,
    Writer (fst (ListCustomers fixtures.lib c (fixtures.db_leads 45)))
    = Some {| Status := StatusOK; Payload := CustomerListBody r |}
    /\ CustomerList_Page r = 4611686018427387905
    /\ CustomerList_PageSize r = 20
    /\ CustomerList_Total r = 45
    /\ CustomerList_TotalPages r = spec.total_pages 45 20
    /\ length (CustomerList_Data r) = 20%nat
    /\ spec.page_items 45 4611686018427387905 20 = 0
    /\ wrap_int ((4611686018427387905 - 1) * 20) = 0.
Proof. eexists. split; [vm_compute; reflexivity|]. done. Qed.

(** ** C1: the primary contact of a customer *)

Lemma filter_map_length {A B : Type} (p : B -> bool) (f : A -> B) (l : list A) :
  length (List.filter p (List.map f l)) = length (List.filter (fun x => p (f x)) l).
Proof. induction l as [|x l IH]; simpl; [done|]. destruct (p (f x)); simpl; lia. Qed.

Lemma filter_length_le {A : Type} (p q : A -> bool) (l : list A) :
  (forall x, In x l -> p x = true -> q x = true) ->
  (length (List.filter p l) <= length (List.filter q l))%nat.
Proof.
  induction l as [|x l IH]; simpl; [done|]. intros Himp.
  assert (Hl : (length (List.filter p l) <= length (List.filter q l))%nat) by (apply IH; auto).
  destruct (p x) eqn:Hp.
  - rewrite (Himp x) by auto. simpl. lia.
  - destruct (q x); simpl; lia.
Qed.

Lemma filter_length_zero {A : Type} (p : A -> bool) (l : list A) :
  (forall x, In x l -> p x = false) -> length (List.filter p l) = 0%nat.
Proof.
  induction l as [|x l IH]; simpl; [done|]. intros Hnone.
  rewrite (Hnone x) by auto. auto.
Qed.

Lemma filter_length_app {A : Type} (p : A -> bool) (l1 l2 : list A) :
  length (List.filter p (l1 ++ l2))
  = (length (List.filter p l1) + length (List.filter p l2))%nat.
Proof. by rewrite List.filter_app, length_app. Qed.

(** A row of a table without duplicate keys splits the table into the rows before it and
    the rows after it, none of which has its key. *)
Lemma split_at_key {A : Type} (key : A -> N) (rows : list A) (x : A) :
  NoDup (List.map key rows) -> In x rows ->
  exists before after,
    rows = before ++ x :: after
    /\ (forall r, In r before -> key r <> key x)
    /\ (forall r, In r after -> key r <> key x).
Proof.
  intros Hnodup Hin. apply in_split in Hin as (before & after & ->).
  exists before, after. split; [done|].
  rewrite List.map_app in Hnodup. simpl in Hnodup.
  apply NoDup_ListNoDup, List.NoDup_remove_2 in Hnodup.
  split; intros r Hr Heq; apply Hnodup, in_or_app; [left | right];
    rewrite <- Heq; by apply in_map.
Qed.

(** What the three writes of the contact handlers do to the rows. *)

Lemma unset_where_key cond now r :
  ID (Contact_Base (unset_where cond now r)) = ID (Contact_Base r).
Proof. unfold unset_where. by case_match. Qed.

Lemma unset_where_primary cid cond now r :
  is_primary_of cid (unset_where cond now r) = is_primary_of cid r && negb (cond r).
Proof.
  unfold unset_where, is_primary_of, live. 
  destruct (DeletedAt (Contact_Base r)) eqn:Hdel; simpl; [by rewrite Hdel|].
  destruct (cond r); simpl; rewrite ?Hdel; simpl; [by rewrite !andb_false_r | by rewrite andb_true_r].
Qed.

Lemma UpdateContactsWhere_contacts db now cond :
  contacts (UpdateContactsWhere db now cond unset_primary)
  = List.map (unset_where cond now) (contacts db).
Proof. reflexivity. Qed.

Lemma UpdateContactsWhere_keys db now cond :
  contact_keys_ok db -> contact_keys_ok (UpdateContactsWhere db now cond unset_primary).
Proof.
  intros [Hnodup Hseq]. unfold contact_keys_ok. rewrite UpdateContactsWhere_contacts.
  split.
  - rewrite List.map_map. erewrite List.map_ext; [exact Hnodup|].
    intros r. apply unset_where_key.
  - apply Forall_map. eapply Forall_impl; [exact Hseq|].
    intros r Hr. simpl. by rewrite unset_where_key.
Qed.

Lemma UpdateContactsWhere_primaries db now cond cid :
  length (primaries cid (UpdateContactsWhere db now cond unset_primary))
  = length (List.filter (fun r => is_primary_of cid r && negb (cond r)) (contacts db)).
Proof.
  unfold primaries. rewrite UpdateContactsWhere_contacts, filter_map_length.
  f_equal. apply List.filter_ext. intros r. apply unset_where_primary.
Qed.

Lemma CreateContact_Some db now x x' db' :
  gorm.CreateContact db now x = Some (x', db') ->
  x' = Contact_with_Base (fresh (contacts_seq db + 1) now) x
  /\ db' = with_contacts (contacts db ++ [x']) (contacts_seq db + 1)%N db.
Proof. unfold gorm.CreateContact, Create. intros H. case_match; simplify_eq/=. done. Qed.

Lemma SaveContact_Some db now x x' db' :
  SaveContact db now x = Some (x', db') ->
  x' = Contact_with_Base (touch now (Contact_Base x)) x
  /\ db' = with_contacts
             (List.map (fun r => if live Contact_Base r && has_id Contact_Base (ID (Contact_Base x)) r
                                 then x' else r) (contacts db))
             (contacts_seq db) db.
Proof. unfold SaveContact, Save. intros H. case_match; simplify_eq/=. done. Qed.

(** Appending a row with the next key of the sequence. *)
Lemma append_keys db (x : Contact) :
  contact_keys_ok db -> ID (Contact_Base x) = (contacts_seq db + 1)%N ->
  contact_keys_ok (with_contacts (contacts db ++ [x]) (contacts_seq db + 1)%N db).
Proof.
  intros [Hnodup Hseq] Hkey. split; simpl.
  - rewrite List.map_app. simpl. apply NoDup_app. split; [done|].
    split; [|apply NoDup_singleton].
    intros k Hk ->%list_elem_of_singleton.
    apply list_elem_of_In, in_map_iff in Hk as (r & Hr & Hin).
    rewrite Forall_forall in Hseq. apply list_elem_of_In, Hseq in Hin. lia.
  - apply Forall_app. split; [|apply Forall_singleton; lia].
    eapply Forall_impl; [exact Hseq|]. intros r Hr. simpl in *. lia.
Qed.

(** Writing [x'] over the one live row that has its key. *)
Lemma save_rows (rows before after : list Contact) (old x' : Contact) :
  rows = before ++ old :: after ->
  (forall r, In r before -> ID (Contact_Base r) <> ID (Contact_Base old)) ->
  (forall r, In r after -> ID (Contact_Base r) <> ID (Contact_Base old)) ->
  live Contact_Base old = true ->
  List.map (fun r => if live Contact_Base r && has_id Contact_Base (ID (Contact_Base old)) r
                     then x' else r) rows
  = before ++ x' :: after.
Proof.
  intros -> Hbefore Hafter Hlive.
  assert (Hkeep : forall l : list Contact,
             (forall r, In r l -> ID (Contact_Base r) <> ID (Contact_Base old)) ->
             List.map (fun r => if live Contact_Base r && has_id Contact_Base (ID (Contact_Base old)) r
                                then x' else r) l = l).
  { intros l Hl. rewrite <- (List.map_id l) at 2. apply List.map_ext_in. intros r Hr.
    unfold has_id. apply Hl, N.eqb_neq in Hr. by rewrite Hr, andb_false_r. }
  rewrite List.map_app. simpl. rewrite !Hkeep by done.
  unfold has_id. by rewrite Hlive, N.eqb_refl.
Qed.

Lemma logAudit_contacts c t i a db :
  contacts (logAudit c t i a db) = contacts db /\ contacts_seq (logAudit c t i a db) = contacts_seq db.
Proof. done. Qed.

Lemma logAudit_keys c t i a db : contact_keys_ok db -> contact_keys_ok (logAudit c t i a db).
Proof. done. Qed.

Lemma logAudit_primaries c t i a db cid : primaries cid (logAudit c t i a db) = primaries cid db.
Proof. done. Qed.

(** Clearing the flag on the contacts of a customer leaves that customer
    without a primary contact and the other customers as they were. *)
Lemma unset_customer_primaries db now customerID cid :
  let db' := UpdateContactsWhere db now (fun r => (Contact_CustomerID r =? customerID)%N)
               unset_primary in
  (cid = customerID -> length (primaries cid db') = 0%nat)
  /\ (length (primaries cid db') <= length (primaries cid db))%nat.
Proof.
  simpl. rewrite UpdateContactsWhere_primaries. split.
  - intros ->. apply filter_length_zero. intros r _. unfold is_primary_of.
    destruct (Contact_CustomerID r =? customerID)%N; simpl;
      [apply andb_false_r | by rewrite andb_false_r].
  - apply filter_length_le. by intros r _ [? _]%andb_true_iff.
Qed.

Lemma primaries_append db seq (x : Contact) cid :
  length (primaries cid (with_contacts (contacts db ++ [x]) seq db))
  = (length (primaries cid db) + if is_primary_of cid x then 1 else 0)%nat.
Proof. unfold primaries. simpl. rewrite filter_length_app. simpl. by case_match. Qed.

Lemma new_contact_primary cid k now n req :
  is_primary_of cid (Contact_with_Base (fresh k now) (new_contact n req))
  = (n =? cid)%N && ContactCreate_IsPrimary req.
Proof. reflexivity. Qed.

Lemma CreateContact_primary body c db cid :
  contact_keys_ok db ->
  let db' := snd (CreateContact body c db) in
  contact_keys_ok db'
  /\ ((length (primaries cid db') <= 1)%nat
      \/ (length (primaries cid db') <= length (primaries cid db))%nat)
  /\ (sets_primary cid (CreateOp c body) db = true -> length (primaries cid db') = 1%nat).
Proof.
  intros Hkeys. unfold sets_primary, run_op, asks_primary. simpl.
  destruct (CreateContact body c db) as [c' db'] eqn:Hrun. simpl.
  unfold CreateContact in Hrun.
  repeat head_case Hrun; simplify_eq/=;
    try (split; [done|]; split; [by right | by rewrite ?andb_false_r]).
  - (* the contact is stored *)
    lazymatch goal with H : gorm.CreateContact _ _ _ = Some _ |- _ =>
      apply CreateContact_Some in H as [-> ->] end.
    rewrite logAudit_primaries.
    lazymatch goal with |- context [with_contacts (contacts ?d ++ _) _ ?d] => set (db1 := d) end.
    assert (Hkeys1 : contact_keys_ok db1).
    { subst db1. case_match; [by apply UpdateContactsWhere_keys | done]. }
    split; [by apply logAudit_keys, append_keys|].
    rewrite primaries_append, new_contact_primary.
    destruct (ContactCreate_IsPrimary c1) eqn:Hprimary; subst db1.
    + pose proof (unset_customer_primaries db (Clock c) n cid) as [Hzero Hle]. simpl in *.
      destruct (N.eqb_spec n cid) as [<- | Hother]; simpl.
      * rewrite Hzero by done. split; [left; lia | done].
      * split; [right; lia | done].
    + rewrite andb_false_r. simpl. split; [right; lia | done].
  - (* the database refuses the contact *)
    split.
    { case_match; [by apply UpdateContactsWhere_keys | done]. }
    split; [|by rewrite ?andb_false_r].
    right. case_match; [|done].
    apply (unset_customer_primaries db (Clock c) n cid).
Qed.

Lemma primaries_split db before (x : Contact) after cid :
  contacts db = before ++ x :: after ->
  length (primaries cid db)
  = (length (List.filter (is_primary_of cid) before)
     + (if is_primary_of cid x then 1 else 0)
     + length (List.filter (is_primary_of cid) after))%nat.
Proof.
  intros Hrows. unfold primaries. rewrite Hrows, filter_length_app. simpl.
  case_match; simpl; lia.
Qed.

Lemma keys_replace db rows before (old x : Contact) after :
  contact_keys_ok db ->
  contacts db = before ++ old :: after ->
  ID (Contact_Base x) = ID (Contact_Base old) ->
  rows = before ++ x :: after ->
  contact_keys_ok (with_contacts rows (contacts_seq db) db).
Proof.
  intros [Hnodup Hseq] Hrows Hkey ->. rewrite Hrows in *. split; simpl.
  - rewrite List.map_app in *. simpl in *. by rewrite Hkey.
  - apply Forall_app in Hseq as [Hbefore Hafter%Forall_cons].
    apply Forall_app. split; [done|]. apply Forall_cons. by rewrite Hkey.
Qed.

Lemma update_contact_primary cid b req contact :
  is_primary_of cid (Contact_with_Base (touch b (Contact_Base contact))
                       (update_contact req contact))
  = live Contact_Base contact && (Contact_CustomerID contact =? cid)%N
    && default (Contact_IsPrimary contact) (ContactUpdate_IsPrimary req).
Proof. reflexivity. Qed.

Lemma UpdateContact_primary body c db cid :
  contact_keys_ok db ->
  let db' := snd (UpdateContact body c db) in
  contact_keys_ok db'
  /\ ((length (primaries cid db') <= 1)%nat
      \/ (length (primaries cid db') <= length (primaries cid db))%nat)
  /\ (sets_primary cid (UpdateOp c body) db = true -> length (primaries cid db') = 1%nat).
Proof.
  intros Hkeys. unfold sets_primary, run_op, asks_primary. simpl.
  destruct (UpdateContact body c db) as [c' db'] eqn:Hrun. simpl.
  unfold UpdateContact in Hrun.
  destruct (ParamID c) as [id|];
    [|simplify_eq/=; split; [done|]; split; [by right | by rewrite ?andb_false_r]].
  destruct (FirstContact db id) as [contact|] eqn:Hfirst;
    [|simplify_eq/=; split; [done|]; split; [by right | by rewrite ?andb_false_r]].
  destruct body as [req|];
    [|simplify_eq/=; split; [done|]; split; [by right | by rewrite ?andb_false_r]].
  cbv zeta in Hrun.
  apply (First_Some Contact_Base) in Hfirst as (Hin & Hlive & Hid).
  destruct (split_at_key (fun r => ID (Contact_Base r)) _ _ (proj1 Hkeys) Hin)
    as (before & after & Hrows & Hbefore & Hafter).
  set (cond := fun r => (Contact_CustomerID r =? Contact_CustomerID contact)%N
                        && negb (ID (Contact_Base r) =? id)%N) in *.
  set (db1 := match ContactUpdate_IsPrimary req with
              | Some true => UpdateContactsWhere db (Clock c) cond unset_primary
              | _ => db
              end) in *.
  (* the rows of [db1]: the loaded contact stands where it stood *)
  assert (Hrows1 : exists before1 after1,
             contacts db1 = before1 ++ contact :: after1
             /\ (forall r, In r before1 -> ID (Contact_Base r) <> ID (Contact_Base contact))
             /\ (forall r, In r after1 -> ID (Contact_Base r) <> ID (Contact_Base contact))
             /\ (length (List.filter (is_primary_of cid) before1)
                 <= length (List.filter (is_primary_of cid) before))%nat
             /\ (length (List.filter (is_primary_of cid) after1)
                 <= length (List.filter (is_primary_of cid) after))%nat
             /\ (ContactUpdate_IsPrimary req = Some true -> cid = Contact_CustomerID contact ->
                 length (List.filter (is_primary_of cid) before1) = 0%nat
                 /\ length (List.filter (is_primary_of cid) after1) = 0%nat)).
  { assert (Hcleared : forall l,
               (forall r, In r l -> ID (Contact_Base r) <> ID (Contact_Base contact)) ->
               (forall r, In r (List.map (unset_where cond (Clock c)) l) ->
                          ID (Contact_Base r) <> ID (Contact_Base contact))
               /\ (length (List.filter (is_primary_of cid) (List.map (unset_where cond (Clock c)) l))
                   <= length (List.filter (is_primary_of cid) l))%nat
               /\ (cid = Contact_CustomerID contact ->
                   length (List.filter (is_primary_of cid)
                             (List.map (unset_where cond (Clock c)) l)) = 0%nat)).
    { intros l Hl. split; [|split].
      - intros r (r0 & <- & Hr0)%in_map_iff. rewrite unset_where_key. auto.
      - rewrite filter_map_length. apply filter_length_le.
        intros r _. rewrite unset_where_primary. by intros [? _]%andb_true_iff.
      - intros ->. rewrite filter_map_length. apply filter_length_zero.
        intros r Hr. rewrite unset_where_primary. unfold cond, is_primary_of.
        apply Hl in Hr. rewrite Hid in Hr. apply N.eqb_neq in Hr. rewrite Hr. simpl.
        destruct (Contact_CustomerID r =? Contact_CustomerID contact)%N; simpl;
          [apply andb_false_r | by rewrite andb_false_r]. }
    destruct (ContactUpdate_IsPrimary req) as [[]|] eqn:Hprimary; subst db1;
      try (exists before, after; repeat split; auto; done).
    exists (List.map (unset_where cond (Clock c)) before),
           (List.map (unset_where cond (Clock c)) after).
    destruct (Hcleared before Hbefore) as (? & ? & ?).
    destruct (Hcleared after Hafter) as (? & ? & ?).
    split; [|by auto 10].
    rewrite UpdateContactsWhere_contacts, Hrows, List.map_app. simpl. do 2 f_equal.
    unfold unset_where, cond. rewrite Hid, !N.eqb_refl. simpl. by rewrite !andb_false_r. }
  destruct Hrows1 as (before1 & after1 & Hrows1 & Hbefore1 & Hafter1 & Hle1 & Hle2 & Hzero).
  assert (Hkeys1 : contact_keys_ok db1).
  { assert (Hany : forall o : option bool,
               contact_keys_ok match o with
                               | Some true => UpdateContactsWhere db (Clock c) cond unset_primary
                               | _ => db
                               end)
      by (intros [[]|]; try done; by apply UpdateContactsWhere_keys).
    apply Hany. }
  assert (Hcount1 : (length (primaries cid db1) <= length (primaries cid db))%nat).
  { rewrite (primaries_split db1 _ _ _ cid Hrows1), (primaries_split db _ _ _ cid Hrows). lia. }
  repeat head_case Hrun; simplify_eq/=.
  - (* the contact is saved *)
    lazymatch goal with H : SaveContact _ _ _ = Some _ |- _ =>
      apply SaveContact_Some in H as [-> ->] end.
    rewrite logAudit_primaries.
    change (Contact_Base (update_contact req contact)) with (Contact_Base contact).
    rewrite (save_rows _ before1 after1 contact _ Hrows1 Hbefore1 Hafter1 Hlive).
    match goal with |- context [with_contacts (before1 ++ ?x :: after1)] => set (x' := x) end.
    split.
    { apply logAudit_keys. eapply keys_replace; [exact Hkeys1 | exact Hrows1 | | reflexivity].
      reflexivity. }
    rewrite (primaries_split (with_contacts (before1 ++ x' :: after1) (contacts_seq db1) db1)
               before1 x' after1 cid eq_refl).
    subst x'. rewrite update_contact_primary, Hlive. simpl.
    rewrite (primaries_split db _ _ _ cid Hrows).
    assert (Hold : is_primary_of cid contact
                   = (Contact_CustomerID contact =? cid)%N && Contact_IsPrimary contact)
      by (unfold is_primary_of; by rewrite Hlive).
    rewrite Hold.
    destruct (N.eqb_spec (Contact_CustomerID contact) cid) as [Hcid | Hcid]; simpl.
    + destruct (ContactUpdate_IsPrimary req) as [[]|] eqn:Hprimary; simpl.
      * destruct (Hzero eq_refl (eq_sym Hcid)) as [-> ->]. split; [left; lia | done].
      * split; [right; case_match; lia | done].
      * split; [right; lia | done].
    + split; [right; lia | by rewrite ?andb_false_r].
  - (* the database refuses the contact *)
    split; [done|]. split; [by right | by rewrite ?andb_false_r].
Qed.

Lemma run_op_primary op db cid :
  contact_keys_ok db ->
  let db' := snd (run_op op db) in
  contact_keys_ok db'
  /\ ((length (primaries cid db') <= 1)%nat
      \/ (length (primaries cid db') <= length (primaries cid db))%nat)
  /\ (sets_primary cid op db = true -> length (primaries cid db') = 1%nat).
Proof.
  destruct op as [c body | c body]; [apply CreateContact_primary | apply UpdateContact_primary].
Qed.

Lemma run_ops_app before after db : run_ops (before ++ after) db = run_ops after (run_ops before db).
Proof. apply fold_left_app. Qed.

Lemma run_ops_invariant ops db cid :
  contact_keys_ok db -> (length (primaries cid db) <= 1)%nat ->
  contact_keys_ok (run_ops ops db) /\ (length (primaries cid (run_ops ops db)) <= 1)%nat.
Proof.
  revert db. induction ops as [|op ops IH]; intros db Hkeys Hone; [done|].
  destruct (run_op_primary op db cid Hkeys) as (Hkeys' & Hle & _).
  simpl. apply IH; [done | lia].
Qed.

(** C1 as stated fails: Ann is created as the primary contact of Jane,
    so one operation of the sequence sets [is_primary = true]; she is
    then updated with [is_primary = false], and Jane is left with no
    primary contact. *)
Lemma primary_contact_cleared_by_update :
  let create :=
    CreateOp (fixtures.as_admin 20 (fixtures.request [] [] [("id", "1")]))
      (Some (fixtures.contact_request "Ann" true)) in
  let update :=
    UpdateOp (fixtures.as_admin 21 (fixtures.request [] [] [("id", "1")]))
      (Some (fixtures.contact_update (Some false))) in
  contacts fixtures.db_jane = []
  /\ sets_primary 1 create fixtures.db_jane = true
  /\ length (primaries 1 (run_ops [create] fixtures.db_jane)) = 1%nat
  /\ status_of (fst (run_op update (run_ops [create] fixtures.db_jane))) = Some StatusOK
  /\ length (primaries 1 (run_ops [create; update] fixtures.db_jane)) = 0%nat.
Proof. vm_compute. done. Qed.

(** C1, amended. From a database in which the customer has at most one
    primary contact (and the keys of [contacts] are sound), after every
    sequence of contact creates and updates the customer has at most one
    contact with [is_primary = true]; and when the last operation of the
    sequence sets [is_primary = true] for a contact of the customer, the
    customer has exactly one. *)
Theorem primary_contact_at_most_one (db : DB) (ops : list ContactOp) (customerID : N) :
  contact_keys_ok db ->
  (length (primaries customerID db) <= 1)%nat ->
  (length (primaries customerID (run_ops ops db)) <= 1)%nat
  /\ (forall before op,
        ops = before ++ [op] ->
        sets_primary customerID op (run_ops before db) = true ->
        length (primaries customerID (run_ops ops db)) = 1%nat).
Proof.
  intros Hkeys Hone. split; [by apply run_ops_invariant|].
  intros before op -> Hsets. rewrite run_ops_app. simpl.
  destruct (run_ops_invariant before db customerID Hkeys Hone) as [Hkeys' _].
  by apply (run_op_primary op _ customerID Hkeys').
Qed.

(** Jane gets the contact Bob, then the primary contact Ann, and then
    Bob is made primary: she has exactly one primary contact, Bob. *)
Lemma primary_contact_at_most_one_witness :
  let admin := fun now id => fixtures.as_admin now (fixtures.request [] [] [("id", id)]) in
  let ops :=
    [CreateOp (admin 20 "1") (Some (fixtures.contact_request "Bob" false));
     CreateOp (admin 21 "1") (Some (fixtures.contact_request "Ann" true));
     UpdateOp (admin 22 "1") (Some (fixtures.contact_update (Some true)))] in
  Contact_FirstName <$> primaries 1 (run_ops (take 2 ops) fixtures.db_jane) = ["Ann"]
  /\ length (primaries 1 (run_ops ops fixtures.db_jane)) = 1%nat
  /\ Contact_FirstName <$> primaries 1 (run_ops ops fixtures.db_jane) = ["Bob"].
Proof.
  intros admin ops. split; [vm_compute; reflexivity|]. split; [|vm_compute; reflexivity].
  assert (Hkeys : contact_keys_ok fixtures.db_jane).
  { unfold contact_keys_ok. replace (contacts fixtures.db_jane) with (@nil Contact)
      by (vm_compute; reflexivity).
    split; constructor. }
  assert (Hone : (length (primaries 1 fixtures.db_jane) <= 1)%nat) by (vm_compute; lia).
  apply (proj2 (primary_contact_at_most_one fixtures.db_jane ops 1 Hkeys Hone)
           (take 2 ops) (UpdateOp (admin 22 "1") (Some (fixtures.contact_update (Some true))))).
  - reflexivity.
  - vm_compute. reflexivity.
Defined.

(** * The rest of the service *)

Import answer auth handlers_rest.

Arguments SaveCustomer : simpl never.
Arguments FirstOtherCustomerByEmail : simpl never.
Arguments gorm.DeleteCustomer : simpl never.
Arguments DeleteContactRow : simpl never.
Arguments DeleteDealRow : simpl never.

(** ** Roles and the authenticated user *)

(** X1. [CanManageAll] holds for the roles admin and manager and for no
    other role: an agent, and any role outside the table, manages only
    what it owns. *)
Lemma CanManageAll_roles (role : string) :
  CanManageAll role = true <-> role = RoleAdmin \/ role = RoleManager.
Proof.
  unfold CanManageAll, HasPermission, RoleAdmin, RoleManager.
  rewrite RolePermissions_lookup.
  destruct (String.eqb_spec role "admin") as [->|Hadmin]; [by split; auto|].
  destruct (String.eqb_spec role "manager") as [->|Hmanager]; [by split; auto|].
  destruct (String.eqb_spec role "agent") as [->|Hagent].
  - split; [done|]. by intros [|].
  - split; [done|]. by intros [|].
Qed.

Lemma JWTAuth_passed lib jwtSecret c db :
  Aborted (fst (JWTAuth lib jwtSecret c db)) = false ->
  exists claims,
    Claims_Role claims <> ""
    /\ fst (JWTAuth lib jwtSecret c db) =
       Set_ (Set_ (Set_ (Set_ c ContextKeyUser
                           (AnyUser {| User_ID := Claims_UserID claims;
                                       User_Email := Claims_Email claims;
                                       User_Name := Claims_Name claims;
                                       User_Role := Claims_Role claims;
                                       User_IsActive := true |}))
                      ContextKeyUserID (AnyUint (Claims_UserID claims)))
                 ContextKeyUserRole (AnyString (Claims_Role claims)))
         ContextKeyClaims (AnyClaims claims).
Proof.
  unfold JWTAuth. intros Hpass.
  repeat (match type of Hpass with
          | context [if ?b then _ else _] => destruct b eqn:?
          | context [match ?x with _ => _ end] => destruct x eqn:?
          end; try discriminate Hpass).
  eexists; split; [|reflexivity].
  intros Hrole. rewrite Hrole in *. discriminate.
Qed.

Lemma passed_keys c user userID role claims :
  let c' := Set_ (Set_ (Set_ (Set_ c ContextKeyUser (AnyUser user))
                          ContextKeyUserID (AnyUint userID))
                    ContextKeyUserRole (AnyString role))
              ContextKeyClaims (AnyClaims claims) in
  Get c' ContextKeyUser = Some (AnyUser user)
  /\ Get c' ContextKeyUserID = Some (AnyUint userID)
  /\ Get c' ContextKeyUserRole = Some (AnyString role).
Proof.
  unfold Get, Set_, ContextKeyUser, ContextKeyUserID, ContextKeyUserRole, ContextKeyClaims.
  cbn [Keys].
  repeat split; repeat (rewrite lookup_insert_eq || rewrite lookup_insert_ne by done); done.
Qed.

(** X2. When [JWTAuth] lets a request through, the context it hands on
    is consistent: it holds a user who is active and has a non-empty
    role, [GetUserIDFromContext] gives that user's identifier, the role
    key holds that user's role, and no response has been written nor the
    database touched. *)
Lemma JWTAuth_stores_user (lib : Library) (jwtSecret : string) (c : Context) (db : DB) :
  Aborted (fst (JWTAuth lib jwtSecret c db)) = false ->
  let c' := fst (JWTAuth lib jwtSecret c db) in
  exists user,
    GetUserFromContext c' = (user, true)
    /\ User_IsActive user = true
    /\ User_Role user <> ""
    /\ GetUserIDFromContext c' = Some (User_ID user, true)
    /\ Get c' ContextKeyUserRole = Some (AnyString (User_Role user))
    /\ Writer c' = Writer c
    /\ snd (JWTAuth lib jwtSecret c db) = db.
Proof.
  intros Hpass c'. destruct (JWTAuth_passed _ _ _ _ Hpass) as (claims & Hrole & Hc).
  subst c'. rewrite Hc, JWTAuth_db.
  destruct (passed_keys c
              {| User_ID := Claims_UserID claims; User_Email := Claims_Email claims;
                 User_Name := Claims_Name claims; User_Role := Claims_Role claims;
                 User_IsActive := true |}
              (Claims_UserID claims) (Claims_Role claims) claims) as (Huser & Hid & Hkey).
  eexists. unfold GetUserFromContext, GetUserIDFromContext. rewrite Huser, Hid, Hkey.
  by repeat split.
Qed.

Lemma JWTAuth_stores_user_witness :
  exists user,
    GetUserFromContext (fixtures.as_admin 1 (fixtures.request [] [] [])) = (user, true)
    /\ User_ID user = 7%N /\ User_Role user = "admin".
Proof.
  destruct (JWTAuth_stores_user fixtures.lib "s3cret"
              (fixtures.incoming 1
                 (fixtures.request [("Authorization", "Bearer admin.token")] [] []))
              fixtures.empty_db) as (user & Huser & _).
  { vm_compute. reflexivity. }
  exists user. split; [exact Huser|].
  vm_compute in Huser. injection Huser as <-. by split.
Defined.

(** X3. Behind [JWTAuth] the two gates decide by the role of the token
    alone: [RequirePermission] runs the rest of the chain exactly when
    [HasPermission] grants the permission to that role, [RequireRole]
    exactly when the role is listed, and otherwise they answer 403; the
    answers NO_USER_CONTEXT and the panic of the type assertion cannot
    occur. *)
Lemma gates_after_JWTAuth (lib : Library) (jwtSecret : string) (rest : list HandlerFunc)
    (c : Context) (db : DB) :
  Aborted (fst (JWTAuth lib jwtSecret c db)) = false ->
  let c' := fst (JWTAuth lib jwtSecret c db) in
  let role := User_Role (fst (GetUserFromContext c')) in
  (forall permission,
     Next (JWTAuth lib jwtSecret :: RequirePermission permission :: rest) c db =
       if HasPermission role permission then Next rest c' db
       else (AbortWithStatusJSON c' StatusForbidden
               (ErrorBody "forbidden" "INSUFFICIENT_PERMISSIONS"
                  "You do not have permission to perform this action"), db))
  /\ (forall allowedRoles,
        Next (JWTAuth lib jwtSecret :: RequireRole allowedRoles :: rest) c db =
          if bool_decide (role ∈ allowedRoles) then Next rest c' db
          else (AbortWithStatusJSON c' StatusForbidden
                  (ErrorBody "forbidden" "INSUFFICIENT_PERMISSIONS"
                     "You do not have permission to access this resource"), db)).
Proof.
  intros Hpass c' role.
  destruct (JWTAuth_passed _ _ _ _ Hpass) as (claims & Hrole & Hc).
  assert (Hkey : Get c' ContextKeyUserRole = Some (AnyString role)).
  { subst role c'. rewrite Hc. unfold GetUserFromContext.
    edestruct passed_keys as (-> & _ & ->). done. }
  assert (Hlive : Aborted c' = false) by done.
  split.
  - intros permission. rewrite Next_passed by done. fold c'. rewrite JWTAuth_db.
    destruct (HasPermission role permission) eqn:Hperm.
    + rewrite Next_passed; unfold RequirePermission; rewrite Hkey, Hperm; simpl; done.
    + rewrite Next_aborted; unfold RequirePermission; rewrite Hkey, Hperm; simpl; done.
  - intros allowedRoles. rewrite Next_passed by done. fold c'. rewrite JWTAuth_db.
    assert (Hin : existsb (fun allowed => String.eqb role allowed) allowedRoles
                  = bool_decide (role ∈ allowedRoles)).
    { destruct (bool_decide_reflect (role ∈ allowedRoles)) as [Hyes|Hno].
      - apply existsb_exists. exists role.
        split; [by apply list_elem_of_In|apply String.eqb_refl].
      - apply not_true_is_false. intros (a & Ha & Heq)%existsb_exists.
        apply String.eqb_eq in Heq as <-. by apply Hno, list_elem_of_In. }
    destruct (bool_decide (role ∈ allowedRoles)) eqn:Hallowed.
    + rewrite Next_passed; unfold RequireRole; rewrite Hkey, Hin; simpl; done.
    + rewrite Next_aborted; unfold RequireRole; rewrite Hkey, Hin; simpl; done.
Qed.

Lemma gates_after_JWTAuth_witness :
  let auditor :=
    fixtures.incoming 1 (fixtures.request [("Authorization", "Bearer auditor.token")] [] []) in
  status_of (fst (Next [JWTAuth fixtures.lib "s3cret"; RequireRole ["admin"]; DeleteDeal]
                    auditor fixtures.db_deal))
  = Some StatusForbidden.
Proof.
  intros auditor.
  destruct (gates_after_JWTAuth fixtures.lib "s3cret" [DeleteDeal] auditor fixtures.db_deal)
    as [_ Hrole].
  { vm_compute. reflexivity. }
  rewrite (Hrole ["admin"]). vm_compute. reflexivity.
Defined.

(** X4. Behind [JWTAuth], [GetMe] always answers 200, with the user of
    the token and with exactly the permissions [HasPermission] grants to
    the user's role; for a role outside the table the list is empty. *)
Lemma GetMe_after_JWTAuth (lib : Library) (jwtSecret : string) (c : Context) (db : DB) :
  Aborted (fst (JWTAuth lib jwtSecret c db)) = false ->
  let c' := fst (JWTAuth lib jwtSecret c db) in
  exists me,
    GetMe c' = Success StatusOK me
    /\ GetUserFromContext c' = (Me_User me, true)
    /\ (forall permission,
          permission ∈ Me_Permissions me
          <-> HasPermission (User_Role (Me_User me)) permission = true)
    /\ (RolePermissions !! User_Role (Me_User me) = None -> Me_Permissions me = []).
Proof.
  intros Hpass c'. destruct (JWTAuth_passed _ _ _ _ Hpass) as (claims & Hrole & Hc).
  subst c'. rewrite Hc. unfold GetMe, GetUserFromContext.
  edestruct passed_keys as (-> & _ & _). cbn [negb].
  eexists. split; [reflexivity|]. split; [reflexivity|]. cbn [Me_User Me_Permissions User_Role].
  split.
  - intros permission. unfold HasPermission.
    destruct (RolePermissions !! Claims_Role claims) as [permissions|].
    + rewrite <- existsb_eqb_elem_of. done.
    + split; [by intros ?%elem_of_nil|done].
  - by intros ->.
Qed.

Lemma GetMe_after_JWTAuth_witness :
  exists me,
    GetMe (fixtures.as_admin 1 (fixtures.request [] [] [])) = Success StatusOK me
    /\ ("delete" ∈ Me_Permissions me <-> HasPermission (User_Role (Me_User me)) "delete" = true).
Proof.
  destruct (GetMe_after_JWTAuth fixtures.lib "s3cret"
              (fixtures.incoming 1
                 (fixtures.request [("Authorization", "Bearer admin.token")] [] []))
              fixtures.empty_db) as (me & Hme & _ & Hperm & _).
  { vm_compute. reflexivity. }
  exists me. split; [exact Hme|apply Hperm].
Defined.

(** ** Soft deletion *)

Section delete_laws.
Context {A : Type} (base : A -> BaseModel) (with_base : BaseModel -> A -> A).
Hypothesis base_with_base : forall b r, base (with_base b r) = b.

Lemma First_Delete (rows : list A) (x : A) (now : Z) :
  First base (Delete base with_base x now rows) (ID (base x)) = None.
Proof.
  unfold First, FirstWhere, Delete. induction rows as [|r rows IH]; [done|].
  cbn [List.map List.find]. destruct (live base r && has_id base (ID (base x)) r) eqn:Hr.
  - unfold live at 1. rewrite base_with_base. exact IH.
  - rewrite Hr. exact IH.
Qed.

Lemma First_Delete_other (rows : list A) (x : A) (now : Z) (id : N) :
  id <> ID (base x) ->
  First base (Delete base with_base x now rows) id = First base rows id.
Proof.
  intros Hid. unfold First, FirstWhere, Delete. induction rows as [|r rows IH]; [done|].
  cbn [List.map List.find]. destruct (live base r && has_id base (ID (base x)) r) eqn:Hr.
  - unfold live at 1. rewrite base_with_base. cbn [tombstone DeletedAt andb].
    apply andb_true_iff in Hr as [_ Hx]. apply N.eqb_eq in Hx.
    replace (has_id base id r) with false; [by rewrite andb_false_r|].
    symmetry. apply N.eqb_neq. congruence.
  - by rewrite IH.
Qed.

Lemma Delete_stamps (rows : list A) (x : A) (now : Z) :
  In x rows -> live base x = true ->
  exists y, In y (Delete base with_base x now rows)
            /\ ID (base y) = ID (base x) /\ DeletedAt (base y) = Some now.
Proof.
  intros Hin Hlive. exists (with_base (tombstone now (base x)) x).
  rewrite base_with_base. split; [|done].
  unfold Delete. apply in_map_iff. exists x. split; [|done].
  unfold has_id. by rewrite Hlive, N.eqb_refl.
Qed.

Lemma Delete_length (rows : list A) (x : A) (now : Z) :
  length (Delete base with_base x now rows) = length rows.
Proof. unfold Delete. by rewrite length_map. Qed.
End delete_laws.

Lemma logAudit_frame c t i a db :
  customers (logAudit c t i a db) = customers db
  /\ contacts (logAudit c t i a db) = contacts db
  /\ deals (logAudit c t i a db) = deals db
  /\ customer_tags (logAudit c t i a db) = customer_tags db.
Proof. done. Qed.

Lemma FirstDeal_logAudit c t i a db id : FirstDeal (logAudit c t i a db) id = FirstDeal db id.
Proof. done. Qed.

Lemma FirstCustomer_logAudit c t i a db id :
  FirstCustomer (logAudit c t i a db) id = FirstCustomer db id.
Proof. done. Qed.

Lemma FirstContact_logAudit c t i a db id :
  FirstContact (logAudit c t i a db) id = FirstContact db id.
Proof. done. Qed.

Lemma ParamID_same c c2 : Param c2 "id" = Param c "id" -> ParamID c2 = ParamID c.
Proof. unfold ParamID. by intros ->. Qed.

(** X5. Once [DeleteDeal] has answered 200, the deal is gone for every
    deal handler: [GetDeal], [UpdateDeal], [PatchDeal] and a second
    [DeleteDeal] on the same identifier answer 404 DEAL_NOT_FOUND and
    leave the database as it is, while the row itself is kept, stamped
    with the instant of the deletion. *)
Lemma DeleteDeal_hides_deal (c c2 : Context) (db : DB) :
  status_of (fst (DeleteDeal c db)) = Some StatusOK ->
  Param c2 "id" = Param c "id" ->
  let db' := snd (DeleteDeal c db) in
  let gone := (not_found c2 "DEAL_NOT_FOUND" "Deal not found", db') in
  GetDeal c2 db' = gone
  /\ (forall body, UpdateDeal body c2 db' = gone)
  /\ (forall body, PatchDeal body c2 db' = gone)
  /\ DeleteDeal c2 db' = gone
  /\ length (deals db') = length (deals db)
  /\ exists id d, ParamID c = Some id /\ In d (deals db')
                  /\ ID (Deal_Base d) = id /\ DeletedAt (Deal_Base d) = Some (Clock c).
Proof.
  intros Hok Hparam db' gone. subst db' gone. apply ParamID_same in Hparam.
  unfold DeleteDeal in Hok |- *. 
  destruct (ParamID c) as [id|] eqn:Hid; [|discriminate Hok].
  destruct (FirstDeal db id) as [deal|] eqn:Hdeal; [|discriminate Hok].
  cbn [snd].
  apply First_Some in Hdeal as (Hin & Hlive & Hkey).
  assert (Hgone : FirstDeal (logAudit c "deal" (ID (Deal_Base deal)) AuditActionDelete
                               (DeleteDealRow db (Clock c) deal)) id = None).
  { rewrite FirstDeal_logAudit, <- Hkey. apply (First_Delete Deal_Base Deal_with_Base). done. }
  unfold GetDeal, UpdateDeal, PatchDeal. rewrite Hparam, Hgone.
  repeat split; try done.
  - apply (Delete_length Deal_Base Deal_with_Base).
  - destruct (Delete_stamps Deal_Base Deal_with_Base (fun _ _ => eq_refl) (deals db) deal (Clock c))
      as (y & Hy & Hyid & Hydel); [done..|].
    exists id, y. repeat split; [exact Hy|congruence|exact Hydel].
Qed.

Lemma DeleteDeal_hides_deal_witness :
  let admin := fun now => fixtures.as_admin now (fixtures.request [] [] [("id", "1")]) in
  status_of (fst (GetDeal (admin 40) fixtures.db_deal)) = Some StatusOK
  /\ status_of (fst (GetDeal (admin 40) (snd (DeleteDeal (admin 30) fixtures.db_deal))))
     = Some StatusNotFound.
Proof.
  intros admin. split; [vm_compute; reflexivity|].
  destruct (DeleteDeal_hides_deal (admin 30) (admin 40) fixtures.db_deal) as [-> _].
  - vm_compute. reflexivity.
  - vm_compute. reflexivity.
  - reflexivity.
Defined.



Lemma primaries_Delete (x : Contact) (now : Z) (rows : list Contact) (cid : N) :
  List.filter (is_primary_of cid) (Delete Contact_Base Contact_with_Base x now rows)
  = List.filter (fun r => negb (ID (Contact_Base r) =? ID (Contact_Base x))%N)
      (List.filter (is_primary_of cid) rows).
Proof.
  unfold Delete. induction rows as [|r rows IH]; [done|].
  cbn [List.map List.filter].
  destruct (live Contact_Base r) eqn:Hlive; unfold has_id in *;
    destruct (N.eqb_spec (ID (Contact_Base r)) (ID (Contact_Base x))) as [Hid|Hid];
    cbn [andb].
  - replace (is_primary_of cid (Contact_with_Base (tombstone now (Contact_Base r)) r))
      with false by done.
    destruct (is_primary_of cid r); cbn [List.filter]; [|exact IH].
    apply N.eqb_eq in Hid. by rewrite Hid.
  - destruct (is_primary_of cid r); cbn [List.filter]; [|exact IH].
    apply N.eqb_neq in Hid. rewrite Hid. cbn [negb]. by rewrite IH.
  - replace (is_primary_of cid r) with false; [exact IH|].
    unfold is_primary_of. by rewrite Hlive.
  - replace (is_primary_of cid r) with false; [exact IH|].
    unfold is_primary_of. by rewrite Hlive.
Qed.

(** X7. [DeleteContact] promotes no one.  Once it has answered 200, the
    primary contacts of every customer are the former ones without the
    deleted contact, so deleting the primary contact leaves its customer
    with none and at most one primary stays at most one; and the contact
    is gone for [UpdateContact] and for a second [DeleteContact], which
    answer 404 and write nothing. *)
Lemma DeleteContact_primaries (c c2 : Context) (db : DB) (id : N) :
  ParamID c = Some id ->
  status_of (fst (DeleteContact c db)) = Some StatusOK ->
  Param c2 "id" = Param c "id" ->
  let db' := snd (DeleteContact c db) in
  (forall customerID,
     primaries customerID db'
     = List.filter (fun r => negb (ID (Contact_Base r) =? id)%N) (primaries customerID db))
  /\ (forall customerID,
        (length (primaries customerID db') <= length (primaries customerID db))%nat)
  /\ (forall body,
        UpdateContact body c2 db' = (not_found c2 "CONTACT_NOT_FOUND" "Contact not found", db'))
  /\ DeleteContact c2 db' = (not_found c2 "CONTACT_NOT_FOUND" "Contact not found", db').
Proof.
  intros Hid Hok Hparam db'. subst db'. apply ParamID_same in Hparam. rewrite Hid in Hparam.
  unfold DeleteContact in Hok |- *. rewrite Hid in Hok |- *.
  destruct (FirstContact db id) as [contact|] eqn:Hcontact; [|discriminate Hok].
  cbn [snd]. apply First_Some in Hcontact as (Hin & Hlive & Hkey).
  set (db' := logAudit c "contact" (ID (Contact_Base contact)) AuditActionDelete
                (DeleteContactRow db (Clock c) contact)).
  assert (Hgone : FirstContact db' id = None).
  { subst db'. rewrite FirstContact_logAudit, <- Hkey.
    apply (First_Delete Contact_Base Contact_with_Base). done. }
  assert (Hprimaries : forall customerID,
            primaries customerID db'
            = List.filter (fun r => negb (ID (Contact_Base r) =? id)%N)
                (primaries customerID db)).
  { intros customerID. subst db'. rewrite logAudit_primaries, <- Hkey.
    apply primaries_Delete. }
  split; [exact Hprimaries|]. split; [|split].
  - intros customerID. rewrite Hprimaries. apply List.filter_length_le.
  - intros body. unfold UpdateContact. by rewrite Hparam, Hgone.
  - by rewrite Hparam, Hgone.
Qed.

Lemma DeleteContact_primaries_witness :
  let admin := fun now => fixtures.as_admin now (fixtures.request [] [] [("id", "1")]) in
  let db := snd (CreateContact (Some (fixtures.contact_request "Ann" true)) (admin 20)
                   fixtures.db_jane) in
  Contact_FirstName <$> primaries 1 db = ["Ann"]
  /\ primaries 1 (snd (DeleteContact (admin 30) db)) = [].
Proof.
  intros admin db. split; [vm_compute; reflexivity|].
  destruct (DeleteContact_primaries (admin 30) (admin 30) db 1) as [-> _].
  - vm_compute. reflexivity.
  - vm_compute. reflexivity.
  - reflexivity.
  - vm_compute. reflexivity.
Defined.

(** X8. [CreateContact] is not atomic.  When the payload asks for the
    primary flag, the flag is cleared on the customer's contacts before
    the insert; if the insert then fails (the handler answers 500), the
    clearing stays: the customer is left with no primary contact, and no
    contact has been added. *)
Lemma CreateContact_failure_clears_primary (req : ContactCreateRequest) (c : Context)
    (db : DB) (customerID : N) :
  ParamID c = Some customerID ->
  ContactCreate_IsPrimary req = true ->
  status_of (fst (CreateContact (Some req) c db)) = Some StatusInternalServerError ->
  let db' := snd (CreateContact (Some req) c db) in
  primaries customerID db' = []
  /\ length (contacts db') = length (contacts db)
  /\ audit_logs db' = audit_logs db.
Proof.
  intros Hid Hprimary Hfail db'. subst db'.
  unfold CreateContact in Hfail |- *. rewrite Hid, Hprimary in Hfail |- *.
  destruct (FirstCustomer db customerID); [|discriminate Hfail].
  destruct (negb (within 1 100 (ContactCreate_FirstName req))); [discriminate Hfail|].
  destruct (gorm.CreateContact _ _ _) as [[contact db1]|] eqn:Hcreate; [discriminate Hfail|].
  cbn [snd]. split; [|split].
  - apply length_zero_iff_nil.
    by apply (unset_customer_primaries db (Clock c) customerID customerID).
  - rewrite UpdateContactsWhere_contacts. apply length_map.
  - done.
Qed.

Lemma CreateContact_failure_clears_primary_witness :
  let admin := fun now => fixtures.as_admin now (fixtures.request [] [] [("id", "1")]) in
  let db := snd (CreateContact (Some (fixtures.contact_request "Ann" true)) (admin 20)
                   fixtures.db_jane) in
  let bob :=
    {| ContactCreate_FirstName := "Bob"; ContactCreate_LastName := "";
       ContactCreate_Email := "";
       ContactCreate_Phone := "+00 000 000 000 000 000 000 000 000 000 000 000 000 000";
       ContactCreate_Position := ""; ContactCreate_IsPrimary := true;
       ContactCreate_Notes := "" |} in
  Contact_FirstName <$> primaries 1 db = ["Ann"]
  /\ primaries 1 (snd (CreateContact (Some bob) (admin 30) db)) = [].
Proof.
  intros admin db bob. split; [vm_compute; reflexivity|].
  apply (CreateContact_failure_clears_primary bob (admin 30) db 1).
  - vm_compute. reflexivity.
  - reflexivity.
  - vm_compute. reflexivity.
Defined.

(** X9. [UpdateContact] looks at the contacts only.  On two databases
    with the same contacts it gives the same answer and leaves the same
    contacts, whatever their customers, deals and audit rows are, and it
    writes neither customers nor deals.  It never looks the customer of
    the contact up: the contacts of a deleted customer are updated as
    before the deletion. *)
Lemma UpdateContact_reads_contacts_only (body : option ContactUpdateRequest) (c : Context)
    (db1 db2 : DB) :
  contacts db1 = contacts db2 ->
  fst (UpdateContact body c db1) = fst (UpdateContact body c db2)
  /\ contacts (snd (UpdateContact body c db1)) = contacts (snd (UpdateContact body c db2))
  /\ customers (snd (UpdateContact body c db1)) = customers db1
  /\ deals (snd (UpdateContact body c db1)) = deals db1.
Proof.
  intros Hsame. unfold UpdateContact. destruct (ParamID c) as [id|]; [|done].
  unfold FirstContact. rewrite <- Hsame.
  destruct (First Contact_Base (contacts db1) id) as [contact|]; [|done].
  destruct body as [req|]; [|done]. cbv zeta.
  unfold SaveContact, UpdateContactsWhere.
  destruct (contact_columns_ok (update_contact req contact));
    destruct (ContactUpdate_IsPrimary req) as [[|]|];
    cbn [fst snd contacts customers deals with_contacts Save];
    rewrite ?(proj1 (logAudit_contacts _ _ _ _ _));
    cbn [contacts with_contacts]; rewrite <- ?Hsame; done.
Qed.

Lemma UpdateContact_reads_contacts_only_witness :
  let admin := fun now => fixtures.as_admin now (fixtures.request [] [] [("id", "1")]) in
  let db := snd (CreateContact (Some (fixtures.contact_request "Ann" true)) (admin 20)
                   fixtures.db_jane) in
  let db' := snd (DeleteCustomer (admin 25) db) in
  let rename :=
    {| ContactUpdate_FirstName := "Anna"; ContactUpdate_LastName := "";
       ContactUpdate_Email := ""; ContactUpdate_Phone := "";
       ContactUpdate_Position := ""; ContactUpdate_IsPrimary := None;
       ContactUpdate_Notes := "" |} in
  FirstCustomer db' 1 = None
  /\ status_of (fst (UpdateContact (Some rename) (admin 30) db')) = Some StatusOK
  /\ Contact_FirstName <$> contacts (snd (UpdateContact (Some rename) (admin 30) db'))
     = ["Anna"].
Proof.
  intros admin db db' rename. split; [vm_compute; reflexivity|].
  destruct (UpdateContact_reads_contacts_only (Some rename) (admin 30) db' db)
    as (-> & -> & _).
  - vm_compute. reflexivity.
  - split; vm_compute; reflexivity.
Defined.

(** ** The audit trail *)














(** ** The full update of a customer *)

Lemma is_Some_FirstWhere {A : Type} (base : A -> BaseModel) (cond : A -> bool) (rows : list A) :
  bool_decide (is_Some (FirstWhere base cond rows))
  = existsb (fun r => live base r && cond r) rows.
Proof.
  unfold FirstWhere. induction rows as [|r rows IH]; [done|].
  cbn [List.find existsb]. destruct (live base r && cond r); [|exact IH].
  apply bool_decide_eq_true. by eexists.
Qed.

Lemma isValidEmail_nonempty email : isValidEmail email = true -> nonempty email = true.
Proof. by destruct email. Qed.

(** X11. [UpdateCustomer] refuses an email that another customer
    holds, and writes nothing: with 409 EMAIL_EXISTS when a customer that
    is not deleted holds it, and with 500 DATABASE_ERROR when only
    deleted customers hold it, because the handler's own check skips
    deleted rows while the unique index does not. *)
Lemma UpdateCustomer_email_in_use (lib : Library) (req : CustomerUpdateRequest)
    (c : Context) (db : DB) (id : N) (customer : Customer) :
  let email := CustomerUpdate_Email req in
  ParamID c = Some id ->
  FirstCustomer db id = Some customer ->
  CustomerUpdate_Name req = "" \/ within 1 255 (CustomerUpdate_Name req) = true ->
  validator_email lib email = true ->
  isValidEmail email = true ->
  email <> Customer_Email customer ->
  existsb (fun r => String.eqb (Customer_Email r) email && negb (ID (Customer_Base r) =? id)%N)
    (customers db) = true ->
  UpdateCustomer lib (Some req) c db =
    if existsb (fun r => live Customer_Base r
                         && (String.eqb (Customer_Email r) email
                             && negb (ID (Customer_Base r) =? id)%N))
         (customers db)
    then (JSON c StatusConflict
            (ErrorBody "conflict" "EMAIL_EXISTS" "A customer with this email already exists"),
          db)
    else (database_error c "Failed to update customer", db).
Proof.
  intros email Hid Hcustomer Hname Hvalidator Hvalid Hnew Htaken. subst email.
  unfold UpdateCustomer. rewrite Hid, Hcustomer, Hvalidator, Hvalid.
  rewrite (isValidEmail_nonempty _ Hvalid).
  replace (negb (nonempty (CustomerUpdate_Name req)) || within 1 255 (CustomerUpdate_Name req))
    with true by (by destruct Hname as [->| ->]; [|rewrite orb_true_r]).
  apply String.eqb_neq in Hnew. rewrite Hnew. cbn [negb andb orb].
  unfold FirstOtherCustomerByEmail. rewrite is_Some_FirstWhere.
  lazymatch goal with |- (if ?b then _ else _) = _ => destruct b; [done|] end.
  apply First_Some in Hcustomer as (_ & _ & Hkey).
  unfold SaveCustomer. cbn [update_customer Customer_Email Customer_Base].
  by rewrite Hkey, Htaken, andb_false_r.
Qed.

Lemma UpdateCustomer_email_in_use_witness :
  let admin := fun now id => fixtures.as_admin now (fixtures.request [] [] [("id", id)]) in
  let joe :=
    {| CustomerCreate_Name := "Joe"; CustomerCreate_Email := "joe@x.com";
       CustomerCreate_Phone := ""; CustomerCreate_Company := "";
       CustomerCreate_Role := ""; CustomerCreate_Status := "";
       CustomerCreate_AssignedTo := None; CustomerCreate_Notes := "";
       CustomerCreate_NextFollowUpAt := None |} in
  let rename :=
    {| CustomerUpdate_Name := ""; CustomerUpdate_Email := "jane@x.com";
       CustomerUpdate_Phone := ""; CustomerUpdate_Company := "";
       CustomerUpdate_Role := ""; CustomerUpdate_Status := "";
       CustomerUpdate_AssignedTo := None; CustomerUpdate_Contacted := None;
       CustomerUpdate_Notes := ""; CustomerUpdate_NextFollowUpAt := None |} in
  let db := snd (CreateCustomer fixtures.lib (Some joe) (admin 20 "") fixtures.db_jane) in
  let db' := snd (DeleteCustomer (admin 25 "1") db) in
  status_of (fst (UpdateCustomer fixtures.lib (Some rename) (admin 30 "2") db))
  = Some StatusConflict
  /\ status_of (fst (UpdateCustomer fixtures.lib (Some rename) (admin 30 "2") db'))
     = Some StatusInternalServerError.
Proof.
  intros admin joe rename db db'.
  assert (Hjoe : exists customer, FirstCustomer db 2 = Some customer
                                  /\ FirstCustomer db' 2 = Some customer).
  { eexists. split; vm_compute; reflexivity. }
  destruct Hjoe as (customer & Hdb & Hdb'). split.
  - rewrite (UpdateCustomer_email_in_use fixtures.lib rename (admin 30 "2") db 2 customer);
      [vm_compute; reflexivity|vm_compute; reflexivity|exact Hdb|by left|
       vm_compute; reflexivity..| |vm_compute; reflexivity].
    vm_compute in Hdb. injection Hdb as <-. vm_compute. discriminate.
  - rewrite (UpdateCustomer_email_in_use fixtures.lib rename (admin 30 "2") db' 2 customer);
      [vm_compute; reflexivity|vm_compute; reflexivity|exact Hdb'|by left|
       vm_compute; reflexivity..| |vm_compute; reflexivity].
    vm_compute in Hdb. injection Hdb as <-. vm_compute. discriminate.
Defined.

Lemma or_keep_nonempty provided current : current <> "" -> or_keep provided current <> "".
Proof.
  unfold or_keep, nonempty. intros Hcurrent.
  destruct (String.eqb_spec provided ""); cbn [negb]; done.
Qed.

(** X12. A full update cannot blank a field.  When [UpdateCustomer]
    answers 200 the stored customer keeps its key and its creation time,
    carries the instant of the request as its last update, and every
    text field that was not empty is still not empty, every assigned
    owner and follow-up date that was set is still set: an empty or
    absent field of the payload means "keep". *)
Lemma UpdateCustomer_cannot_blank (lib : Library) (req : CustomerUpdateRequest)
    (c : Context) (db : DB) (id : N) (customer : Customer) :
  ParamID c = Some id ->
  FirstCustomer db id = Some customer ->
  status_of (fst (UpdateCustomer lib (Some req) c db)) = Some StatusOK ->
  exists customer',
    FirstCustomer (snd (UpdateCustomer lib (Some req) c db)) id = Some customer'
    /\ Writer (fst (UpdateCustomer lib (Some req) c db))
       = Some {| Status := StatusOK; Payload := CustomerBody customer' |}
    /\ Customer_Base customer' = touch (Clock c) (Customer_Base customer)
    /\ (Customer_Name customer <> "" -> Customer_Name customer' <> "")
    /\ (Customer_Email customer <> "" -> Customer_Email customer' <> "")
    /\ (Customer_Phone customer <> "" -> Customer_Phone customer' <> "")
    /\ (Customer_Company customer <> "" -> Customer_Company customer' <> "")
    /\ (Customer_Role customer <> "" -> Customer_Role customer' <> "")
    /\ (Customer_Status customer <> "" -> Customer_Status customer' <> "")
    /\ (Customer_Notes customer <> "" -> Customer_Notes customer' <> "")
    /\ (is_Some (Customer_AssignedTo customer) -> is_Some (Customer_AssignedTo customer'))
    /\ (is_Some (Customer_NextFollowUpAt customer)
        -> is_Some (Customer_NextFollowUpAt customer')).
Proof.
  intros Hid Hcustomer Hok.
  destruct (UpdateCustomer lib (Some req) c db) as [c' db'] eqn:Hrun.
  unfold UpdateCustomer in Hrun. rewrite Hid, Hcustomer in Hrun.
  cbn [fst snd] in *.
  repeat head_case Hrun; simplify_eq; try discriminate Hok.
  all: match goal with
       | H : SaveCustomer _ _ _ = Some _ |- _ =>
           unfold SaveCustomer in H;
           destruct (_ && _) in H; [|discriminate H];
           injection H as <- <-
       end.
  all: pose proof Hcustomer as (_ & Hlive & Hkey)%First_Some.
  all: eexists; split;
    [ rewrite FirstCustomer_logAudit;
      apply (First_Save Customer_Base Customer_with_Base (fun _ _ => eq_refl)
               (customers db) id (update_customer req _ customer) customer (Clock c)
               Hcustomer Hlive Hkey)
    | split; [reflexivity|split; [reflexivity|]] ].
  all: cbn [Save fst Customer_with_Base update_customer Customer_Name Customer_Email
              Customer_Phone Customer_Company Customer_Role Customer_Status Customer_Notes
              Customer_AssignedTo Customer_NextFollowUpAt].
  all: repeat split; try apply or_keep_nonempty; try done.
  - intros Hemail. destruct (nonempty (CustomerUpdate_Email req)) eqn:Hsent; [|done].
    destruct (String.eqb_spec (CustomerUpdate_Email req) (Customer_Email customer));
      cbn [andb negb]; [done|].
    unfold nonempty in Hsent. by apply negb_true_iff, String.eqb_neq in Hsent.
  - intros [v Hv]. rewrite Hv. unfold or_keep_ptr. by destruct (CustomerUpdate_AssignedTo req).
  - intros [v Hv]. rewrite Hv. unfold or_keep_ptr.
    by destruct (CustomerUpdate_NextFollowUpAt req).
Qed.

Lemma UpdateCustomer_cannot_blank_witness :
  let nothing :=
    {| CustomerUpdate_Name := ""; CustomerUpdate_Email := "";
       CustomerUpdate_Phone := ""; CustomerUpdate_Company := "";
       CustomerUpdate_Role := ""; CustomerUpdate_Status := "";
       CustomerUpdate_AssignedTo := None; CustomerUpdate_Contacted := None;
       CustomerUpdate_Notes := ""; CustomerUpdate_NextFollowUpAt := None |} in
  let c := fixtures.as_admin 30 (fixtures.request [] [] [("id", "1")]) in
  exists customer',
    FirstCustomer (snd (UpdateCustomer fixtures.lib (Some nothing) c fixtures.db_jane)) 1
    = Some customer'
    /\ Customer_Name customer' <> "".
Proof.
  intros nothing c.
  assert (Hjane : exists customer, FirstCustomer fixtures.db_jane 1 = Some customer
                                   /\ Customer_Name customer = "Jane Doe").
  { eexists. split; vm_compute; reflexivity. }
  destruct Hjane as (customer & Hcustomer & Hname).
  destruct (UpdateCustomer_cannot_blank fixtures.lib nothing c fixtures.db_jane 1 customer)
    as (customer' & Hstored & _ & _ & Hkeeps & _).
  - vm_compute. reflexivity.
  - exact Hcustomer.
  - vm_compute. reflexivity.
  - exists customer'. split; [exact Hstored|]. apply Hkeeps. by rewrite Hname.
Defined.

(** ** The contact list *)

Lemma contact_le_total : Total (fun a b : Contact => Is_true (contact_le a b)).
Proof.
  intros a b. unfold contact_le.
  destruct (Contact_IsPrimary a), (Contact_IsPrimary b); cbn [andb orb negb Bool.eqb];
    try (by left); try (by right).
  all: destruct (Z.leb_spec (CreatedAt (Contact_Base a)) (CreatedAt (Contact_Base b)));
    [by left|right].
  all: apply Is_true_true, Z.leb_le; lia.
Qed.

Lemma contact_le_transitive :
  Transitive (fun a b : Contact => Is_true (contact_le a b)).
Proof.
  intros a b d. unfold contact_le. rewrite !Is_true_true.
  destruct (Contact_IsPrimary a), (Contact_IsPrimary b), (Contact_IsPrimary d);
    cbn [andb orb negb Bool.eqb]; try done.
  all: rewrite !Z.leb_le; lia.
Qed.

Lemma contact_le_primary a b :
  contact_le a b = true -> Contact_IsPrimary b = true -> Contact_IsPrimary a = true.
Proof.
  unfold contact_le. intros Hle Hb. rewrite Hb in Hle. by destruct (Contact_IsPrimary a).
Qed.

Lemma Limit_Offset_subseteq {A : Type} (limit offset : Z) (rows : list A) :
  Limit limit (Offset offset rows) ⊆ rows.
Proof.
  unfold Limit, Offset. intros x Hx%subseteq_take.
  destruct (0 <? offset); [|done]. by apply subseteq_drop in Hx.
Qed.

(** X13. When [ListContacts] answers 200, every contact of the page
    belongs to the customer of the path and is not deleted, the total
    counts exactly those contacts, the page is no longer than the page
    size, and on the first page a primary contact, when the customer has
    one, comes first. *)
Lemma ListContacts_page (c : Context) (db : DB) (r : ContactListResponse) :
  ListContacts c db = Success StatusOK r ->
  exists customerID,
    ParamID c = Some customerID
    /\ Forall (fun x => In x (contacts db) /\ live Contact_Base x = true
                        /\ Contact_CustomerID x = customerID) (ContactList_Data r)
    /\ ContactList_Total r = Z.of_nat (length (contacts_of customerID db))
    /\ Z.of_nat (length (ContactList_Data r)) <= ContactList_PageSize r
    /\ (ContactList_Page r = 1 -> primaries customerID db <> [] ->
        exists first rest,
          ContactList_Data r = first :: rest /\ Contact_IsPrimary first = true).
Proof.
  unfold ListContacts. intros Hrun.
  destruct (ParamID c) as [customerID|]; [|discriminate Hrun].
  destruct (FirstCustomer db customerID); [|discriminate Hrun].
  pose proof (pagination_range c) as [Hpage Hsize].
  destruct (pagination c) as [page pageSize]. cbn [fst snd] in *.
  injection Hrun as <-. exists customerID. cbn [ContactList_Data ContactList_Total
    ContactList_Page ContactList_PageSize].
  set (ordered := merge_sort _ (contacts_of customerID db)).
  assert (Hperm : ordered ≡ₚ contacts_of customerID db) by apply merge_sort_Permutation.
  split; [done|]. split; [|split; [done|split]].
  - apply List.Forall_forall. intros x Hx. apply (proj2 (list_elem_of_In _ _)) in Hx.
    apply Limit_Offset_subseteq in Hx.
    rewrite Hperm in Hx. apply (proj1 (list_elem_of_In _ _)) in Hx.
    apply filter_In in Hx as [Hin Hx].
    apply andb_true_iff in Hx as [Hlive Hid]. by apply N.eqb_eq in Hid.
  - unfold Limit. rewrite length_take. lia.
  - intros -> Hprimary.
    assert (Hsorted : StronglySorted (fun a b => Is_true (contact_le a b)) ordered)
      by apply (@StronglySorted_merge_sort _ _ _ contact_le_transitive contact_le_total).
    change (wrap_int ((1 - 1) * pageSize)) with 0. unfold Offset, Limit. cbn [Z.ltb Z.compare].
    destruct (primaries customerID db) as [|p rest] eqn:Hp; [done|].
    assert (Hin : p ∈ ordered).
    { rewrite Hperm. apply (proj2 (list_elem_of_In _ _)), filter_In.
      assert (Hp' : In p (primaries customerID db)) by (rewrite Hp; by left).
      apply filter_In in Hp' as [Hin Hp']. unfold is_primary_of in Hp'.
      apply andb_true_iff in Hp' as [Hp' _]. done. }
    assert (Hflag : Contact_IsPrimary p = true).
    { assert (Hp' : In p (primaries customerID db)) by (rewrite Hp; by left).
      apply filter_In in Hp' as [_ Hp']. unfold is_primary_of in Hp'.
      by apply andb_true_iff in Hp' as [_ Hp']. }
    destruct ordered as [|first others]; [by apply elem_of_nil in Hin|].
    exists first, (take (Z.to_nat pageSize - 1) others). split.
    + destruct (Z.to_nat pageSize) as [|n] eqn:Hn; [lia|].
      cbn [take]. f_equal. f_equal. lia.
    + apply elem_of_cons in Hin as [<-|Hin]; [done|].
      apply StronglySorted_inv in Hsorted as [_ Hfirst].
      rewrite Forall_forall in Hfirst. apply Hfirst in Hin.
      apply Is_true_true in Hin. by apply (contact_le_primary first p).
Qed.

Lemma ListContacts_page_witness :
  let admin := fun now => fixtures.as_admin now (fixtures.request [] [] [("id", "1")]) in
  let db := snd (CreateContact (Some (fixtures.contact_request "Bob" false)) (admin 20)
                   fixtures.db_jane) in
  let db := snd (CreateContact (Some (fixtures.contact_request "Ann" true)) (admin 21) db) in
  exists r,
    ListContacts (admin 30) db = Success StatusOK r
    /\ Contact_FirstName <$> ContactList_Data r = ["Ann"; "Bob"]
    /\ ContactList_Total r = 2.
Proof.
  intros admin db0 db.
  destruct (ListContacts (admin 30) db) as [|status r] eqn:Hrun; [by vm_compute in Hrun|].
  assert (Hstatus : status = StatusOK) by (vm_compute in Hrun; by injection Hrun as <- _).
  subst status. exists r. split; [reflexivity|].
  destruct (ListContacts_page (admin 30) db r Hrun) as (customerID & _ & _ & Htotal & _).
  vm_compute in Hrun. injection Hrun as <-. split; reflexivity.
Defined.

(** ** The email pattern *)

Import regexp language.

Lemma append_nil_inv (s1 s2 : string) :
  String.append s1 s2 = EmptyString -> s1 = EmptyString /\ s2 = EmptyString.
Proof. by destruct s1. Qed.

Lemma append_cons_inv (s1 s2 s : string) (a : ascii) :
  String.append s1 s2 = String a s ->
  (s1 = EmptyString /\ s2 = String a s)
  \/ exists s1', s1 = String a s1' /\ s = String.append s1' s2.
Proof.
  destruct s1 as [|b s1']; cbn [String.append]; [by left|].
  intros [= -> <-]. right. by eexists.
Qed.

Lemma append_nil (s : string) : String.append EmptyString s = s.
Proof. done. Qed.

Lemma append_cons (a : ascii) (s1 s2 : string) :
  String.append (String a s1) s2 = String a (String.append s1 s2).
Proof. done. Qed.

Lemma nullable_matches (r : Regexp) : nullable r = true <-> matches r EmptyString.
Proof.
  split.
  - induction r as [| |p|r1 IH1 r2 IH2|r1 IH1 r2 IH2|r IH]; cbn [nullable]; try done.
    + intros _. constructor.
    + intros [H1 H2]%andb_true_iff.
      apply (matches_cat r1 r2 EmptyString EmptyString); auto.
    + intros [H1|H2]%orb_true_iff; [apply matches_alt_l|apply matches_alt_r]; auto.
    + intros _. constructor.
  - intros Hm. remember EmptyString as s eqn:Hs.
    induction Hm as [|p a Hp|r1 r2 s1 s2 H1 IH1 H2 IH2|r1 r2 s H IH|r1 r2 s H IH|r
                     |r s1 s2 H1 IH1 H2 IH2]; cbn [nullable]; try done.
    + apply append_nil_inv in Hs as [-> ->]. by rewrite IH1, IH2.
    + by rewrite IH.
    + rewrite IH by done. apply orb_true_r.
Qed.

Lemma deriv_matches (a : ascii) (r : Regexp) (s : string) :
  matches (deriv a r) s <-> matches r (String a s).
Proof.
  split.
  - revert s. induction r as [| |p|r1 IH1 r2 IH2|r1 IH1 r2 IH2|r IH]; intros s; cbn [deriv].
    + inversion 1.
    + inversion 1.
    + destruct (p a) eqn:Hp; inversion 1; subst. by constructor.
    + assert (Hleft : matches (Cat (deriv a r1) r2) s -> matches (Cat r1 r2) (String a s)).
      { inversion 1 as [| |? ? s1 s2 H1 H2| | | |]; subst.
        apply (matches_cat r1 r2 (String a s1) s2); auto. }
      destruct (nullable r1) eqn:Hnull; [|exact Hleft].
      inversion 1 as [| | |? ? ? Hl|? ? ? Hr| |]; subst; [by apply Hleft|].
      apply (matches_cat r1 r2 EmptyString (String a s)); [|by apply IH2].
      by apply nullable_matches.
    + inversion 1; subst; [apply matches_alt_l|apply matches_alt_r]; auto.
    + inversion 1 as [| |? ? s1 s2 H1 H2| | | |]; subst.
      apply (matches_star_cons r (String a s1) s2); auto.
  - intros Hm. remember (String a s) as t eqn:Ht. revert a s Ht.
    induction Hm as [|p b Hp|r1 r2 s1 s2 H1 IH1 H2 IH2|r1 r2 t H IH|r1 r2 t H IH|r
                     |r s1 s2 H1 IH1 H2 IH2]; intros a s Ht; cbn [deriv]; try done.
    + injection Ht as -> <-. rewrite Hp. constructor.
    + apply append_cons_inv in Ht as [[-> ->]|(s1' & -> & ->)].
      * apply nullable_matches in H1. rewrite H1. apply matches_alt_r. by apply IH2.
      * assert (matches (Cat (deriv a r1) r2) (String.append s1' s2))
          by (constructor; [by apply IH1|done]).
        destruct (nullable r1); [by apply matches_alt_l|done].
    + apply matches_alt_l. by apply IH.
    + apply matches_alt_r. by apply IH.
    + apply append_cons_inv in Ht as [[-> ->]|(s1' & -> & ->)].
      * by apply IH2.
      * constructor; [by apply IH1|done].
Qed.

Lemma MatchString_matches (r : Regexp) (s : string) :
  MatchString r s = true <-> matches r s.
Proof.
  revert r. induction s as [|a s IH]; intros r; cbn [MatchString].
  - apply nullable_matches.
  - rewrite IH. apply deriv_matches.
Qed.

Lemma matches_class_inv (p : ascii -> bool) (s : string) :
  matches (Class p) s <-> exists a, s = String a EmptyString /\ p a = true.
Proof.
  split.
  - inversion 1; subst. by eexists.
  - intros (a & -> & Hp). by constructor.
Qed.

Lemma matches_cat_inv (r1 r2 : Regexp) (s : string) :
  matches (Cat r1 r2) s
  <-> exists s1 s2, s = String.append s1 s2 /\ matches r1 s1 /\ matches r2 s2.
Proof.
  split.
  - inversion 1; subst. by eexists _, _.
  - intros (s1 & s2 & -> & H1 & H2). by constructor.
Qed.

Lemma matches_star_class (p : ascii -> bool) (s : string) :
  matches (Star (Class p)) s <-> all_of p s = true.
Proof.
  split.
  - intros Hm. remember (Star (Class p)) as r eqn:Hr.
    induction Hm as [| | | | |r|r s1 s2 H1 IH1 H2 IH2]; try done.
    injection Hr as ->. apply matches_class_inv in H1 as (a & -> & Hp).
    rewrite append_cons, append_nil. simpl. rewrite Hp. by apply IH2.
  - induction s as [|a s IH]; cbn [all_of]; [constructor|].
    intros [Hp Hs]%andb_true_iff.
    apply (matches_star_cons (Class p) (String a EmptyString) s); [by constructor|auto].
Qed.

Lemma matches_plus_class (p : ascii -> bool) (s : string) :
  matches (Plus (Class p)) s <-> s <> EmptyString /\ all_of p s = true.
Proof.
  unfold Plus. rewrite matches_cat_inv. split.
  - intros (s1 & s2 & -> & (a & -> & Hp)%matches_class_inv & Hs%matches_star_class).
    rewrite append_cons, append_nil. simpl. by rewrite Hp, Hs.
  - destruct s as [|a s]; [by intros []|]. cbn [all_of].
    intros [_ [Hp Hs]%andb_true_iff]. exists (String a EmptyString), s.
    split; [done|]. split; [by constructor|by apply matches_star_class].
Qed.

Lemma matches_char (ch : ascii) (s : string) :
  matches (Char ch) s <-> s = String ch EmptyString.
Proof.
  unfold Char. rewrite matches_class_inv. split.
  - by intros (a & -> & ->%Ascii.eqb_eq).
  - intros ->. eexists. split; [done|]. apply Ascii.eqb_refl.
Qed.

(** X14. [isValidEmail] accepts exactly the texts of the form
    local@domain.tld in which the local part is a non-empty run of
    letters, digits and [._%+-], the domain a non-empty run of letters,
    digits, dots and hyphens, and the last label at least two letters. *)
Lemma isValidEmail_shape (email : string) :
  isValidEmail email = true <->
  exists local domain tld : string,
    email = (local ++ "@" ++ domain ++ "." ++ tld)%string
    /\ local <> "" /\ all_of local_char local = true
    /\ domain <> "" /\ all_of domain_char domain = true
    /\ (2 <= String.length tld)%nat /\ all_of alpha tld = true.
Proof.
  unfold isValidEmail. rewrite MatchString_matches. unfold emailRegex. cbv zeta.
  fold local_char domain_char.
  assert (Htld : forall t,
            matches (Cat (Class alpha) (Cat (Class alpha) (Star (Class alpha)))) t
            <-> (2 <= String.length t)%nat /\ all_of alpha t = true).
  { intros t. rewrite matches_cat_inv. split.
    - intros (s1 & s2 & -> & (a & -> & Ha)%matches_class_inv & H2).
      apply matches_cat_inv in H2
        as (s3 & s4 & -> & (b & -> & Hb)%matches_class_inv & Hrest%matches_star_class).
      rewrite !append_cons, !append_nil. simpl. rewrite Ha, Hb, Hrest. split; [lia|done].
    - destruct t as [|a [|b t]]; cbn [String.length]; [lia..|].
      cbn [all_of]. intros [_ [Ha [Hb Hrest]%andb_true_iff]%andb_true_iff].
      exists (String a EmptyString), (String b t). split; [done|].
      split; [by constructor|]. apply matches_cat_inv.
      exists (String b EmptyString), t. split; [done|].
      split; [by constructor|by apply matches_star_class]. }
  split.
  - intros (local & s1 & -> & [Hl1 Hl2]%matches_plus_class & H1)%matches_cat_inv.
    apply matches_cat_inv in H1 as (at_ & s2 & -> & ->%matches_char & H2).
    apply matches_cat_inv in H2 as (domain & s3 & -> & [Hd1 Hd2]%matches_plus_class & H3).
    apply matches_cat_inv in H3 as (dot & tld & -> & ->%matches_char & [Ht1 Ht2]%Htld).
    by exists local, domain, tld.
  - intros (local & domain & tld & -> & Hl1 & Hl2 & Hd1 & Hd2 & Ht).
    apply matches_cat_inv. exists local, ("@" ++ domain ++ "." ++ tld)%string.
    split; [done|]. split; [by apply matches_plus_class|].
    apply matches_cat_inv. exists "@", (domain ++ "." ++ tld)%string.
    split; [done|]. split; [by apply matches_char|].
    apply matches_cat_inv. exists domain, ("." ++ tld)%string.
    split; [done|]. split; [by apply matches_plus_class|].
    apply matches_cat_inv. exists ".", tld.
    split; [done|]. split; [by apply matches_char|by apply Htld].
Qed.

(** ** Sorting *)

Lemma sort_order_cases (sortOrder : string) :
  let sortOrder' :=
    if negb (String.eqb sortOrder "asc") && negb (String.eqb sortOrder "desc")
    then "desc" else sortOrder in
  sortOrder' = "asc" \/ sortOrder' = "desc".
Proof.
  cbv zeta. destruct (String.eqb_spec sortOrder "asc") as [->|]; [by left|].
  destruct (String.eqb_spec sortOrder "desc") as [->|]; by right.
Qed.

Lemma customer_sort_field (sortBy : string) :
  let allowedSortFields : gmap string bool :=
    <["created_at" := true]> (<["updated_at" := true]> (<["name" := true]>
    (<["email" := true]> (<["status" := true]> ∅)))) in
  let sortBy' := if default false (allowedSortFields !! sortBy) then sortBy else "created_at" in
  sortBy' ∈ ["created_at"; "updated_at"; "name"; "email"; "status"].
Proof.
  cbv zeta.
  destruct (decide (sortBy = "created_at")) as [->|]; [set_solver|].
  destruct (decide (sortBy = "updated_at")) as [->|]; [set_solver|].
  destruct (decide (sortBy = "name")) as [->|]; [set_solver|].
  destruct (decide (sortBy = "email")) as [->|]; [set_solver|].
  destruct (decide (sortBy = "status")) as [->|]; [set_solver|].
  rewrite !lookup_insert_ne, lookup_empty by done. set_solver.
Qed.

Lemma deal_sort_field (sortBy : string) :
  let allowedSortFields : gmap string bool :=
    <["created_at" := true]> (<["updated_at" := true]> (<["title" := true]>
    (<["amount" := true]> (<["expected_close_date" := true]> (<["stage" := true]> ∅))))) in
  let sortBy' := if default false (allowedSortFields !! sortBy) then sortBy else "created_at" in
  sortBy' ∈ ["created_at"; "updated_at"; "title"; "amount"; "expected_close_date"; "stage"].
Proof.
  cbv zeta.
  destruct (decide (sortBy = "created_at")) as [->|]; [set_solver|].
  destruct (decide (sortBy = "updated_at")) as [->|]; [set_solver|].
  destruct (decide (sortBy = "title")) as [->|]; [set_solver|].
  destruct (decide (sortBy = "amount")) as [->|]; [set_solver|].
  destruct (decide (sortBy = "expected_close_date")) as [->|]; [set_solver|].
  destruct (decide (sortBy = "stage")) as [->|]; [set_solver|].
  rewrite !lookup_insert_ne, lookup_empty by done. set_solver.
Qed.

Lemma order_clause_allowed (columns : list string) (column direction : string) :
  column ∈ columns -> direction = "asc" \/ direction = "desc" ->
  String.append column (String.append " " direction) ∈ order_clauses columns.
Proof.
  intros Hcolumn Hdirection. unfold order_clauses.
  apply list_elem_of_In, in_flat_map. exists column.
  split; [by apply list_elem_of_In|].
  destruct Hdirection as [-> | ->]; [by left|right; by left].
Qed.

(** X15. No text of the request reaches ORDER BY.  [ListCustomers] and
    [ListDeals] sort by one of a fixed list of clauses (an allowed column
    and asc or desc): whatever the engine would do with any other
    clause has no effect on their answers. *)
Lemma list_order_is_allow_listed (lib : Library)
    (customer_le : string -> Customer -> Customer -> bool)
    (deal_le : string -> Deal -> Deal -> bool) (c : Context) (db : DB) :
  (forall clause, clause ∈ customer_order_clauses ->
                  customer_le clause = sql_customer_le lib clause) ->
  (forall clause, clause ∈ deal_order_clauses -> deal_le clause = sql_deal_le lib clause) ->
  ListCustomers (with_order customer_le deal_le lib) c db = ListCustomers lib c db
  /\ ListDeals (with_order customer_le deal_le lib) c db = ListDeals lib c db.
Proof.
  intros Hcustomers Hdeals. split.
  - unfold ListCustomers. destruct (pagination c) as [page pageSize]. cbv zeta.
    set (clause := String.append _ (String.append " " _)).
    assert (Hclause : clause ∈ customer_order_clauses).
    { apply order_clause_allowed; [apply customer_sort_field|apply sort_order_cases]. }
    assert (Hresult : forall q,
              customer_result (with_order customer_le deal_le lib) (Order q clause) db
              = customer_result lib (Order q clause) db).
    { intros q. unfold customer_result.
      cbn [with_order sql_customer_cond_ok sql_customer_holds sql_customer_le q_order Order
             q_where q_joins].
      by rewrite (Hcustomers clause Hclause). }
    unfold customer_count. rewrite !Hresult. reflexivity.
  - unfold ListDeals. destruct (pagination c) as [page pageSize]. cbv zeta.
    set (clause := String.append _ (String.append " " _)).
    assert (Hclause : clause ∈ deal_order_clauses).
    { apply order_clause_allowed; [apply deal_sort_field|apply sort_order_cases]. }
    assert (Hresult : forall q,
              deal_result (with_order customer_le deal_le lib) (Order q clause) db
              = deal_result lib (Order q clause) db).
    { intros q. unfold deal_result.
      cbn [with_order sql_deal_cond_ok sql_deal_holds sql_deal_le q_order Order
             q_where q_joins].
      by rewrite (Hdeals clause Hclause). }
    unfold deal_count. rewrite !Hresult. reflexivity.
Qed.

Lemma list_order_is_allow_listed_witness :
  let customer_le := fun clause =>
    if bool_decide (clause ∈ customer_order_clauses)
    then sql_customer_le fixtures.lib clause else fun _ _ => false in
  let deal_le := fun clause =>
    if bool_decide (clause ∈ deal_order_clauses)
    then sql_deal_le fixtures.lib clause else fun _ _ => false in
  let c := fixtures.as_admin 50
             (fixtures.request [] [("sort_by", "name; DROP TABLE customers")] []) in
  ListCustomers (with_order customer_le deal_le fixtures.lib) c (fixtures.db_leads 3)
  = ListCustomers fixtures.lib c (fixtures.db_leads 3).
Proof.
  intros customer_le deal_le c.
  apply (list_order_is_allow_listed fixtures.lib customer_le deal_le c (fixtures.db_leads 3)).
  - intros clause Hin. subst customer_le. cbv beta. by rewrite bool_decide_eq_true_2.
  - intros clause Hin. subst deal_le. cbv beta. by rewrite bool_decide_eq_true_2.
Defined.

(** ** Configuration *)

Lemma Split_nonempty (s : string) : Split s <> [].
Proof.
  induction s as [|ch rest IH]; cbn [Split]; [done|].
  destruct (Ascii.eqb ch ","); [done|]. by destruct (Split rest).
Qed.

(** X16. The CORS configuration built from a loaded configuration never
    allows all origins, whatever the environment: a variable
    CORS_ALLOWED_ORIGINS that is set, even to the empty text, gives a
    list that is not empty (the empty text gives the single origin [""]),
    and an unset one gives the two local origins; so the branch of
    [CORS] for an empty list is not reached through [Load]. *)
Lemma CORS_of_Load_never_allows_all (env : gmap string string) :
  let origins := config.CORSAllowedOrigins (config.Load env) in
  cors.AllowAllOrigins (cors.CORS origins) = false
  /\ cors.AllowOrigins (cors.CORS origins) = origins
  /\ origins <> []
  /\ (env !! "CORS_ALLOWED_ORIGINS" = Some "" -> origins = [""])
  /\ (env !! "CORS_ALLOWED_ORIGINS" = None
      -> origins = ["http://localhost:3000"; "http://localhost:3001"]).
Proof.
  cbv zeta. cbn [config.Load config.CORSAllowedOrigins]. unfold config.getEnvAsSlice.
  destruct (env !! "CORS_ALLOWED_ORIGINS") as [value|].
  - pose proof (Split_nonempty value) as Hsplit. unfold cors.CORS.
    destruct (Split value) as [|origin origins] eqn:Hvalue; [done|].
    cbn [length Nat.eqb]. repeat split; try done.
    intros [= ->]. by injection Hvalue as <- <-.
  - by repeat split.
Qed.

(** ** The pipeline stages *)

Import database.

Arguments FirstStageByName : simpl never.
Arguments CreateStage : simpl never.

Lemma FirstWhere_is_Some {A : Type} (base : A -> BaseModel) (cond : A -> bool)
    (rows : list A) (x : A) :
  In x rows -> live base x = true -> cond x = true -> is_Some (FirstWhere base cond rows).
Proof.
  intros Hin Hlive Hcond.
  apply (proj1 (bool_decide_eq_true (is_Some (FirstWhere base cond rows)))).
  rewrite is_Some_FirstWhere.
  apply existsb_exists. exists x. by rewrite Hlive, Hcond.
Qed.

Lemma seed_succeeded (stages : list PipelineStage) (now : Z) (t t' : Stages) :
  seed stages now t = (None, t') ->
  (exists added, pipeline_stages t' = pipeline_stages t ++ added)
  /\ forall s, In s stages -> is_Some (FirstStageByName t' (Stage_Name s)).
Proof.
  revert t. induction stages as [|s rest IH]; intros t; cbn [seed].
  - intros [= <-]. split; [exists []; by rewrite app_nil_r|]. by intros s [].
  - destruct (FirstStageByName t (Stage_Name s)) as [found|] eqn:Hfound.
    + intros Hrest. destruct (IH _ Hrest) as [[added Hadded] Hnames].
      split; [by exists added|]. intros s' [<-|Hin]; [|by apply Hnames].
      unfold FirstStageByName in Hfound |- *.
      apply find_some in Hfound as [Hin [Hlive Hname]%andb_true_iff].
      apply (FirstWhere_is_Some _ _ _ found); [|done..].
      rewrite Hadded. apply in_or_app. by left.
    + destruct (CreateStage t now s) as [[s' t1]|] eqn:Hcreate; [|done].
      intros Hrest. destruct (IH _ Hrest) as [[added Hadded] Hnames].
      unfold CreateStage in Hcreate. destruct (_ && _) in Hcreate; [|done].
      injection Hcreate as <- <-. cbn [pipeline_stages] in Hadded.
      split; [exists (Stage_with_Base (fresh (pipeline_stages_seq t + 1) now) s :: added);
              by rewrite Hadded, <- app_assoc|].
      intros s' [<-|Hin]; [|by apply Hnames].
      apply (FirstWhere_is_Some _ _ _ (Stage_with_Base (fresh (pipeline_stages_seq t + 1) now) s)).
      * rewrite Hadded. apply in_or_app. left. apply in_or_app. right. by left.
      * done.
      * apply String.eqb_refl.
Qed.

Lemma seed_again (stages : list PipelineStage) (now : Z) (t : Stages) :
  (forall s, In s stages -> is_Some (FirstStageByName t (Stage_Name s))) ->
  seed stages now t = (None, t).
Proof.
  induction stages as [|s rest IH]; intros Hnames; cbn [seed]; [done|].
  destruct (Hnames s) as [found ->]; [by left|]. apply IH. intros s' Hin. apply Hnames. by right.
Qed.

(** X17. Seeding is idempotent and covers the deal stages.  When
    [SeedPipelineStages] succeeds, every stage that [IsValidDealStage]
    accepts has a row that is not deleted, no row that was there has been
    changed or removed, and seeding again, at any instant, succeeds and
    changes nothing. *)
Lemma SeedPipelineStages_idempotent (now now' : Z) (t t' : Stages) :
  SeedPipelineStages now t = (None, t') ->
  (forall name, IsValidDealStage name = true -> is_Some (FirstStageByName t' name))
  /\ (exists added, pipeline_stages t' = pipeline_stages t ++ added)
  /\ SeedPipelineStages now' t' = (None, t').
Proof.
  unfold SeedPipelineStages. intros [Hkept Hnames]%seed_succeeded. split; [|split].
  - intros name Hvalid. unfold IsValidDealStage, ValidDealStages in Hvalid.
    apply existsb_exists in Hvalid as (s & Hin & Hs). apply String.eqb_eq in Hs. subst s.
    cbn [In] in Hin.
    destruct Hin as [<-|[<-|[<-|[<-|[<-|[<-|[]]]]]]];
      [apply (Hnames (stage "prospecting" "Prospecting" 1 "#6366f1"))
      |apply (Hnames (stage "qualification" "Qualification" 2 "#8b5cf6"))
      |apply (Hnames (stage "proposal" "Proposal" 3 "#a855f7"))
      |apply (Hnames (stage "negotiation" "Negotiation" 4 "#f59e0b"))
      |apply (Hnames (stage "closed_won" "Closed Won" 5 "#22c55e"))
      |apply (Hnames (stage "closed_lost" "Closed Lost" 6 "#ef4444"))];
      cbn [default_stages In]; tauto.
  - exact Hkept.
  - by apply seed_again.
Qed.

Lemma SeedPipelineStages_idempotent_witness :
  let empty := {| pipeline_stages := []; pipeline_stages_seq := 0 |} in
  let seeded := snd (SeedPipelineStages 1 empty) in
  Stage_Name <$> pipeline_stages seeded = ValidDealStages
  /\ SeedPipelineStages 2 seeded = (None, seeded).
Proof.
  intros empty seeded. split; [vm_compute; reflexivity|].
  apply (SeedPipelineStages_idempotent 1 2 empty seeded). vm_compute. reflexivity.
Defined.

(** ** The customer statistics *)

Import reports.

Lemma count_split (rows : list Customer) :
  let count := fun p : Customer -> bool =>
    Z.of_nat (length (List.filter (fun r => live Customer_Base r && p r) rows)) in
  Z.of_nat (length (List.filter (live Customer_Base) rows))
  = count (fun r => String.eqb (Customer_Status r) "lead")
    + count (fun r => String.eqb (Customer_Status r) "prospect")
    + count (fun r => String.eqb (Customer_Status r) "active")
    + count (fun r => String.eqb (Customer_Status r) "inactive")
    + count (fun r => String.eqb (Customer_Status r) "churned")
    + count (fun r => negb (existsb (String.eqb (Customer_Status r)) statuses)).
Proof.
  cbv zeta.
  unfold statuses, CustomerStatusLead, CustomerStatusProspect, CustomerStatusActive,
    CustomerStatusInactive, CustomerStatusChurned. cbn [existsb].
  induction rows as [|r rows IH]; [done|].
  cbn [List.filter]. destruct (live Customer_Base r); cbn [andb]; [|exact IH].
  repeat match goal with
         | |- context [String.eqb (Customer_Status r) ?s] =>
             destruct (String.eqb_spec (Customer_Status r) s)
         end;
    cbn [orb negb length]; first [congruence | lia].
Qed.

(** X18. The customer report has exactly the five buckets lead,
    prospect, active, inactive and churned, each with the number of
    customers of that status that are not deleted; and the total is the
    sum of the buckets plus the number of customers whose status is none
    of the five, which the handlers accept and the report counts in the
    total only. *)
Lemma getCustomerStats_buckets (db : DB) :
  let stats := getCustomerStats db in
  (forall status, Stats_ByStatus stats !! status
                  = if bool_decide (status ∈ statuses) then Some (count_status db status)
                    else None)
  /\ Stats_Total stats
     = buckets stats
       + Z.of_nat (length (List.filter
                             (fun r => live Customer_Base r
                                       && negb (existsb (String.eqb (Customer_Status r)) statuses))
                             (customers db))).
Proof.
  cbv zeta. unfold getCustomerStats, buckets. cbn [Stats_Total Stats_ByStatus].
  split.
  - intros status. unfold statuses, CustomerStatusLead, CustomerStatusProspect,
      CustomerStatusActive, CustomerStatusInactive, CustomerStatusChurned.
    cbn [fold_left].
    destruct (decide (status = "churned")) as [->|];
      [by rewrite lookup_insert_eq|rewrite lookup_insert_ne by done].
    destruct (decide (status = "inactive")) as [->|];
      [by rewrite lookup_insert_eq|rewrite lookup_insert_ne by done].
    destruct (decide (status = "active")) as [->|];
      [by rewrite lookup_insert_eq|rewrite lookup_insert_ne by done].
    destruct (decide (status = "prospect")) as [->|];
      [by rewrite lookup_insert_eq|rewrite lookup_insert_ne by done].
    destruct (decide (status = "lead")) as [->|];
      [by rewrite lookup_insert_eq|rewrite lookup_insert_ne by done].
    rewrite lookup_empty. rewrite bool_decide_eq_false_2; [done|].
    rewrite !elem_of_cons, elem_of_nil. tauto.
  - rewrite (count_split (customers db)). cbv zeta.
    unfold statuses, CustomerStatusLead, CustomerStatusProspect, CustomerStatusActive,
      CustomerStatusInactive, CustomerStatusChurned.
    cbn [fold_left].
    rewrite !(map_fold_insert_L (fun _ count sum => sum + count));
      [|first [by rewrite ?lookup_insert_ne by done|intros; lia]..].
    rewrite map_fold_empty. unfold count_status. lia.
Qed.

(** ** Activities *)

Import activities.

Arguments FirstActivity : simpl never.
Arguments CreateActivityRow : simpl never.
Arguments SaveActivity : simpl never.
Arguments DeleteActivityRow : simpl never.
Arguments audit : simpl never.

Lemma CreateActivityRow_Some s now a a' s' :
  CreateActivityRow s now a = Some (a', s') ->
  a' = Activity_with_Base (fresh (activities_seq s + 1) now) a
  /\ s' = with_activities (activities s ++ [a']) (activities_seq s + 1)%N s.
Proof.
  unfold CreateActivityRow. destruct (_ && _); [|done]. by intros [= <- <-].
Qed.

Lemma SaveActivity_Some s now a a' s' :
  SaveActivity s now a = Some (a', s') ->
  a' = Activity_with_Base (touch now (Activity_Base a)) a
  /\ s' = with_activities (snd (Save Activity_Base Activity_with_Base a now (activities s)))
            (activities_seq s) s.
Proof.
  unfold SaveActivity. destruct (_ && _); [|done]. by intros [= <- <-].
Qed.

Lemma linked_with_base b a : linked (Activity_with_Base b a) <-> linked a.
Proof. done. Qed.

Lemma or_keep_ptr_is_Some {V : Type} (provided current : option V) :
  is_Some current -> is_Some (or_keep_ptr provided current).
Proof. intros [v ->]. destruct provided; by eexists. Qed.

Lemma run_activity_op_linked (op : ActivityOp) (s : Store) :
  Forall linked (activities s) -> Forall linked (activities (run_activity_op op s)).
Proof.
  intros Hlinked. destruct op as [c body|c body|c body|c]; cbn [run_activity_op].
  - unfold CreateActivity.
    destruct body as [req|]; [|done].
    destruct (negb _); [done|].
    assert (Hnew : forall status priority,
              ActivityCreate_CustomerID req <> None \/ ActivityCreate_DealID req <> None ->
              Forall linked
                (activities
                   (snd match CreateActivityRow s (Clock c) (new_activity req status priority)
                        with
                        | Some (activity, s0) =>
                            (Success StatusCreated
                               (default activity
                                  (FirstActivity s0 (ID (Activity_Base activity)))),
                             audit c
                               (ID (Activity_Base
                                      (default activity
                                         (FirstActivity s0 (ID (Activity_Base activity))))))
                               AuditActionCreate s0)
                        | None =>
                            (database_failure (B:=Activity) "Failed to create activity", s)
                        end))).
    { intros status priority Hlink.
      destruct (CreateActivityRow _ _ _) as [[a' s']|] eqn:Hcreate; [|done].
      apply CreateActivityRow_Some in Hcreate as [-> ->]. cbn [snd].
      unfold audit. cbn [activities with_core with_activities].
      apply Forall_app. split; [done|]. apply Forall_singleton, linked_with_base.
      unfold linked. cbn [new_activity Activity_CustomerID Activity_DealID].
      destruct Hlink as [Hlink|Hlink]; [left|right]; by apply not_eq_None_Some. }
    destruct (ActivityCreate_CustomerID req) eqn:Hcustomer,
             (ActivityCreate_DealID req) eqn:Hdeal; try done.
    all: cbv zeta; apply Hnew; auto.
  - unfold UpdateActivity. destruct (ParamID c) as [id|]; [|done].
    destruct (FirstActivity s id) as [activity|] eqn:Hfirst; [|done].
    destruct body as [req|]; [|done]. cbv zeta.
    destruct (SaveActivity _ _ _) as [[a' s']|] eqn:Hsave; [|done].
    apply SaveActivity_Some in Hsave as [-> ->]. cbn [snd].
    unfold audit. cbn [activities with_core with_activities Save snd].
    apply First_Some in Hfirst as (Hin & _ & _).
    rewrite List.Forall_forall in Hlinked. apply Forall_map, List.Forall_forall. intros r Hr.
    destruct (_ && _); [|by apply Hlinked]. apply linked_with_base.
    destruct (Hlinked activity Hin) as [Hlink|Hlink]; [left|right];
      cbn [update_activity Activity_CustomerID Activity_DealID];
      by apply or_keep_ptr_is_Some.
  - unfold PatchActivity. destruct (ParamID c) as [id|]; [|done].
    destruct (FirstActivity s id) as [activity|] eqn:Hfirst; [|done].
    destruct body as [req|]; [|done]. destruct (negb _); [done|]. cbv zeta.
    destruct (SaveActivity _ _ _) as [[a' s']|] eqn:Hsave; [|done].
    apply SaveActivity_Some in Hsave as [-> ->]. cbn [snd].
    unfold audit. cbn [activities with_core with_activities Save snd].
    apply First_Some in Hfirst as (Hin & _ & _).
    rewrite List.Forall_forall in Hlinked. apply Forall_map, List.Forall_forall. intros r Hr.
    destruct (_ && _); [|by apply Hlinked]. apply linked_with_base.
    exact (Hlinked activity Hin).
  - unfold DeleteActivity. destruct (ParamID c) as [id|]; [|done].
    destruct (FirstActivity s id) as [activity|] eqn:Hfirst; [|done]. cbn [snd].
    rewrite List.Forall_forall in Hlinked. apply Forall_map, List.Forall_forall. intros r Hr.
    destruct (_ && _); [|by apply Hlinked]. apply linked_with_base. by apply Hlinked.
Qed.

(** X19. Every activity is linked.  [CreateActivity] refuses with 400
    MISSING_LINK, writing nothing, a payload that names neither a
    customer nor a deal, and no later create, update, status change or
    deletion takes the link away: if every stored activity names a
    customer or a deal, so does every activity after any sequence of
    these requests. *)
Lemma activities_stay_linked (ops : list ActivityOp) (s : Store) :
  Forall linked (activities s) ->
  Forall linked (activities (run_activity_ops ops s))
  /\ (forall c req,
        within 1 255 (ActivityCreate_Title req) = true ->
        ActivityCreate_Type req <> "" ->
        ActivityCreate_CustomerID req = None -> ActivityCreate_DealID req = None ->
        CreateActivity (Some req) c s
        = (Failure StatusBadRequest "validation_error" "MISSING_LINK"
             "Activity must be linked to a customer or deal", s)).
Proof.
  intros Hlinked. split.
  - revert s Hlinked. unfold run_activity_ops.
    induction ops as [|op ops IH]; intros s Hlinked; cbn [fold_left]; [done|].
    apply IH. by apply run_activity_op_linked.
  - intros c req Htitle Htype Hcustomer Hdeal. unfold CreateActivity.
    apply String.eqb_neq in Htype. unfold nonempty.
    by rewrite Htitle, Htype, Hcustomer, Hdeal.
Qed.

Lemma activities_stay_linked_witness :
  let admin := fun now => fixtures.as_admin now (fixtures.request [] [] [("id", "1")]) in
  let ops :=
    [PostActivity (admin 40) (Some (call (Some 7%N) None));
     PatchActivity_ (admin 41)
       (Some {| ActivityStatusUpdate_Status := "completed";
                ActivityStatusUpdate_Outcome := "" |});
     DeleteActivity_ (admin 42)] in
  length (activities (run_activity_ops ops no_activities)) = 1%nat
  /\ Forall linked (activities (run_activity_ops ops no_activities)).
Proof.
  intros admin ops. split; [vm_compute; reflexivity|].
  apply (activities_stay_linked ops no_activities). constructor.
Defined.

Lemma FirstActivity_SaveActivity s now id a0 a a' s' :
  FirstActivity s id = Some a0 ->
  Activity_Base a = Activity_Base a0 ->
  SaveActivity s now a = Some (a', s') ->
  FirstActivity s' id = Some a'
  /\ a' = Activity_with_Base (touch now (Activity_Base a0)) a.
Proof.
  intros Hfirst Hbase Hsave. apply SaveActivity_Some in Hsave as [-> ->].
  pose proof Hfirst as (_ & Hlive & Hkey)%First_Some.
  split; [|by rewrite Hbase].
  apply (First_Save Activity_Base Activity_with_Base (fun _ _ => eq_refl)
           (activities s) id a a0 now Hfirst).
  - unfold live. by rewrite Hbase.
  - by rewrite Hbase.
Qed.

(** X20. The completion time follows the status change, not the full
    update.  When [PatchActivity] answers 200, the stored activity has
    the status of the payload; its completion time is the instant of the
    request when that status is completed, and otherwise what it was, so
    a completed activity that is cancelled or rescheduled keeps its
    completion time; its outcome is replaced only by a non-empty one.
    [UpdateActivity] never derives the completion time from the status:
    it stores the one of its payload or keeps the old one. *)
Lemma PatchActivity_completion (c : Context) (s : Store) (id : N) (activity : Activity) :
  ParamID c = Some id ->
  FirstActivity s id = Some activity ->
  (forall req,
     answer_status (fst (PatchActivity (Some req) c s)) = StatusOK ->
     exists activity',
       fst (PatchActivity (Some req) c s) = Success StatusOK activity'
       /\ FirstActivity (snd (PatchActivity (Some req) c s)) id = Some activity'
       /\ Activity_Status activity' = ActivityStatusUpdate_Status req
       /\ Activity_CompletedAt activity'
          = (if String.eqb (ActivityStatusUpdate_Status req) ActivityStatusCompleted
             then Some (Clock c) else Activity_CompletedAt activity)
       /\ Activity_Outcome activity'
          = (if String.eqb (ActivityStatusUpdate_Outcome req) ""
             then Activity_Outcome activity else ActivityStatusUpdate_Outcome req))
  /\ (forall req,
        answer_status (fst (UpdateActivity (Some req) c s)) = StatusOK ->
        exists activity',
          fst (UpdateActivity (Some req) c s) = Success StatusOK activity'
          /\ FirstActivity (snd (UpdateActivity (Some req) c s)) id = Some activity'
          /\ Activity_CompletedAt activity'
             = match ActivityUpdate_CompletedAt req with
               | Some t => Some t
               | None => Activity_CompletedAt activity
               end).
Proof.
  intros Hid Hfirst. split.
  - intros req Hok. unfold PatchActivity in Hok |- *. rewrite Hid, Hfirst in Hok |- *.
    destruct (negb _); [discriminate Hok|]. cbv zeta in Hok |- *.
    destruct (SaveActivity _ _ _) as [[a' s']|] eqn:Hsave; [|discriminate Hok].
    destruct (FirstActivity_SaveActivity s (Clock c) id activity
                (complete_activity req (Clock c) activity) a' s' Hfirst eq_refl Hsave)
      as [Hstored ->].
    cbn [fst snd]. unfold audit.
    change (FirstActivity (with_core _ s') id) with (FirstActivity s' id).
    pose proof Hfirst as (_ & _ & Hkey)%First_Some.
    cbn [Activity_with_Base Activity_Base ID touch complete_activity] in Hstored |- *.
    rewrite Hkey, Hstored. cbn [default]. unfold Datatypes.id.
    eexists. split; [reflexivity|]. split; [reflexivity|].
    cbn [Activity_with_Base complete_activity Activity_Status Activity_CompletedAt
           Activity_Outcome].
    repeat split. unfold Datatypes.id.
    cbn [Activity_with_Base complete_activity Activity_Outcome]. unfold or_keep, nonempty.
    by destruct (String.eqb (ActivityStatusUpdate_Outcome req) "").
  - intros req Hok. unfold UpdateActivity in Hok |- *. rewrite Hid, Hfirst in Hok |- *.
    cbv zeta in Hok |- *.
    destruct (SaveActivity _ _ _) as [[a' s']|] eqn:Hsave; [|discriminate Hok].
    destruct (FirstActivity_SaveActivity s (Clock c) id activity
                (update_activity req activity) a' s' Hfirst eq_refl Hsave)
      as [Hstored ->].
    cbn [fst snd]. unfold audit.
    change (FirstActivity (with_core _ s') id) with (FirstActivity s' id).
    pose proof Hfirst as (_ & _ & Hkey)%First_Some.
    cbn [Activity_with_Base Activity_Base ID touch update_activity] in Hstored |- *.
    rewrite Hkey, Hstored. cbn [default]. unfold Datatypes.id.
    eexists. split; [reflexivity|]. split; [reflexivity|].
    cbn [Activity_with_Base update_activity Activity_CompletedAt]. reflexivity.
Qed.

Lemma PatchActivity_completion_witness :
  let admin := fun now => fixtures.as_admin now (fixtures.request [] [] [("id", "1")]) in
  let s := snd (CreateActivity (Some (call (Some 7%N) None)) (admin 40) no_activities) in
  let status := fun text =>
    {| ActivityStatusUpdate_Status := text; ActivityStatusUpdate_Outcome := "" |} in
  let s1 := snd (PatchActivity (Some (status "completed")) (admin 41) s) in
  let s2 := snd (PatchActivity (Some (status "cancelled")) (admin 42) s1) in
  Activity_CompletedAt <$> FirstActivity s1 1 = Some (Some 41)
  /\ exists activity',
       FirstActivity s2 1 = Some activity'
       /\ Activity_Status activity' = "cancelled"
       /\ Activity_CompletedAt activity' = Some 41.
Proof.
  intros admin s status s1 s2. split; [vm_compute; reflexivity|].
  assert (Hfirst : exists activity, FirstActivity s1 1 = Some activity
                                    /\ Activity_CompletedAt activity = Some 41).
  { eexists. split; vm_compute; reflexivity. }
  destruct Hfirst as (activity & Hfirst & Hcompleted).
  destruct (PatchActivity_completion (admin 42) s1 1 activity) as [Hpatch _].
  - vm_compute. reflexivity.
  - exact Hfirst.
  - destruct (Hpatch (status "cancelled")) as (activity' & _ & Hstored & Hstatus & Hat & _).
    + vm_compute. reflexivity.
    + exists activity'. split; [exact Hstored|]. split; [exact Hstatus|].
      rewrite Hat. exact Hcompleted.
Defined.

(** ** The activities of the caller *)

Lemma due_le_total : Total (fun a b : Activity => Is_true (due_le a b)).
Proof.
  intros a b. unfold due_le.
  destruct (Activity_DueDate a) as [x|], (Activity_DueDate b) as [y|];
    try (by left); try (by right).
  destruct (Z.leb_spec x y); [by left|right]. apply Is_true_true, Z.leb_le. lia.
Qed.

Lemma due_le_transitive : Transitive (fun a b : Activity => Is_true (due_le a b)).
Proof.
  intros a b d. unfold due_le. rewrite !Is_true_true.
  destruct (Activity_DueDate a), (Activity_DueDate b), (Activity_DueDate d); try done.
  rewrite !Z.leb_le. lia.
Qed.

Lemma StronglySorted_drop {A : Type} (R : relation A) (n : nat) (l : list A) :
  StronglySorted R l -> StronglySorted R (drop n l).
Proof.
  revert n. induction l as [|x l IH]; intros n Hsorted; [by destruct n|].
  destruct n as [|n]; [done|]. cbn [drop]. apply IH.
  by apply StronglySorted_inv in Hsorted as [? _].
Qed.

Lemma StronglySorted_take {A : Type} (R : relation A) (n : nat) (l : list A) :
  StronglySorted R l -> StronglySorted R (take n l).
Proof.
  revert n. induction l as [|x l IH]; intros n Hsorted; [by destruct n|].
  destruct n as [|n]; [constructor|]. cbn [take].
  apply StronglySorted_inv in Hsorted as [Hl Hx]. constructor; [by apply IH|].
  rewrite List.Forall_forall in Hx |- *. intros y Hy. apply Hx.
  apply (proj1 (list_elem_of_In _ _)). apply (subseteq_take n l).
  by apply (proj2 (list_elem_of_In _ _)).
Qed.

(** X21. [GetMyActivities] shows the caller's own work.  When it
    answers 200, every activity of the page is assigned to the user of
    the context and is not deleted; its status is the one of the query,
    or, without a status in the query, scheduled or overdue; the page is
    in the order of the due dates with the activities without a due date
    last; and the total counts exactly these activities.  Without a user
    in the context it answers 401. *)
Lemma GetMyActivities_page (c : Context) (s : Store) :
  match GetUserFromContext c with
  | (user, true) =>
      exists r,
        GetMyActivities c s = Success StatusOK r
        /\ Forall (fun a => In a (activities s) /\ live Activity_Base a = true
                            /\ Activity_AssignedTo a = Some (User_ID user)
                            /\ (if nonempty (Query c "status")
                                then Activity_Status a = Query c "status"
                                else Activity_Status a = ActivityStatusScheduled
                                     \/ Activity_Status a = ActivityStatusOverdue))
             (ActivityList_Data r)
        /\ StronglySorted (fun a b => Is_true (due_le a b)) (ActivityList_Data r)
        /\ ActivityList_Total r
           = Z.of_nat (length (List.filter (mine (User_ID user) (Query c "status"))
                                 (activities s)))
  | (_, false) =>
      GetMyActivities c s
      = Failure StatusUnauthorized "unauthorized" "NO_USER_CONTEXT" "User not found in context"
  end.
Proof.
  unfold GetMyActivities. destruct (GetUserFromContext c) as [user [|]]; [|done].
  cbn [negb]. destruct (pagination c) as [page pageSize].
  eexists. split; [reflexivity|]. cbn [ActivityList_Data ActivityList_Total].
  set (matching := List.filter _ (activities s)).
  set (ordered := merge_sort _ matching).
  assert (Hperm : ordered ≡ₚ matching) by apply merge_sort_Permutation.
  split; [|split; [|done]].
  - apply List.Forall_forall. intros a Ha. apply (proj2 (list_elem_of_In _ _)) in Ha.
    apply Limit_Offset_subseteq in Ha. rewrite Hperm in Ha.
    apply (proj1 (list_elem_of_In _ _)) in Ha. apply filter_In in Ha as [Hin Ha].
    unfold mine in Ha. apply andb_true_iff in Ha as [[Hlive Hmine]%andb_true_iff Hstatus].
    split; [done|]. split; [done|]. split.
    + destruct (Activity_AssignedTo a) as [assignee|]; [|done].
      by apply N.eqb_eq in Hmine as ->.
    + destruct (nonempty (Query c "status")).
      * by apply String.eqb_eq.
      * apply orb_true_iff in Hstatus as [H|H]; [left|right]; by apply String.eqb_eq.
  - unfold Limit, Offset. apply StronglySorted_take.
    assert (Hsorted : StronglySorted (fun a b => Is_true (due_le a b)) ordered)
      by apply (@StronglySorted_merge_sort _ _ _ due_le_transitive due_le_total).
    destruct (0 <? _); [by apply StronglySorted_drop|done].
Qed.

(** ** The customer with its counts *)

Lemma newer_total : Total (fun a b : Activity => Is_true (newer a b)).
Proof.
  intros a b. unfold newer.
  destruct (Z.leb_spec (CreatedAt (Activity_Base b)) (CreatedAt (Activity_Base a)));
    [by left|right].
  apply Is_true_true, Z.leb_le. lia.
Qed.

Lemma newer_transitive : Transitive (fun a b : Activity => Is_true (newer a b)).
Proof. intros a b d. unfold newer. rewrite !Is_true_true, !Z.leb_le. lia. Qed.

(** X22. [GetCustomer] agrees with the contact list: for a customer
    that is found, the contacts count of the detail is the total that
    [ListContacts] reports for the same request; its recent activities
    are at most five activities of that customer that are not deleted,
    newest first; and a customer that [ListContacts] does not find,
    [GetCustomer] does not find either. *)
Lemma GetCustomer_counts (c : Context) (s : Store) :
  match GetCustomer c s with
  | Success status detail =>
      status = StatusOK
      /\ (exists r, ListContacts c (core s) = Success StatusOK r
                    /\ ContactList_Total r = Detail_ContactsCount detail)
      /\ (length (Detail_RecentActivities detail) <= 5)%nat
      /\ StronglySorted (fun a b => Is_true (newer a b)) (Detail_RecentActivities detail)
      /\ Forall (fun a => In a (activities s) /\ live Activity_Base a = true
                          /\ Some (ID (Customer_Base (Detail_Customer detail)))
                             = Activity_CustomerID a)
           (Detail_RecentActivities detail)
  | Failure status error code message =>
      ListContacts c (core s) = Failure status error code message
  end.
Proof.
  unfold GetCustomer, ListContacts. destruct (ParamID c) as [id|]; [|done].
  destruct (FirstCustomer (core s) id) as [customer|] eqn:Hcustomer; [|done].
  apply First_Some in Hcustomer as (_ & _ & Hkey).
  destruct (pagination c) as [page pageSize]. cbn [Detail_ContactsCount
    Detail_RecentActivities Detail_Customer].
  split; [done|]. split; [by eexists|]. split; [|split].
  - unfold Limit. rewrite length_take. cbn. lia.
  - unfold Limit. apply StronglySorted_take.
    apply (@StronglySorted_merge_sort _ _ _ newer_transitive newer_total).
  - apply List.Forall_forall. intros a Ha. apply (proj2 (list_elem_of_In _ _)) in Ha.
    unfold Limit in Ha. apply subseteq_take in Ha. rewrite merge_sort_Permutation in Ha.
    apply (proj1 (list_elem_of_In _ _)) in Ha. apply filter_In in Ha as [Hin Ha].
    unfold activity_of in Ha. apply andb_true_iff in Ha as [Hlive Ha].
    split; [done|]. split; [done|].
    destruct (Activity_CustomerID a) as [k|]; [|done]. apply N.eqb_eq in Ha. congruence.
Qed.

(** ** What a patch of a customer leaves alone *)

(** X23. [PatchCustomer] writes the allow-listed columns only.
    Whatever the request and its outcome, every customer row keeps its
    key, its times of creation and deletion, its name, email, phone,
    company, role and notes; no row appears or disappears; the rows of
    other customers are not changed at all; and neither contacts nor
    deals are written. *)
Lemma PatchCustomer_protects_columns (body : option CustomerPatchRequest) (c : Context)
    (db : DB) :
  let db' := snd (PatchCustomer body c db) in
  List.map protected (customers db') = List.map protected (customers db)
  /\ (forall id r, ParamID c = Some id -> In r (customers db') ->
                   ID (Customer_Base r) <> id -> In r (customers db))
  /\ contacts db' = contacts db
  /\ deals db' = deals db.
Proof.
  intros db'. subst db'.
  destruct (PatchCustomer_outcome body c db) as [Hsame|(id & req & Hid & -> & Hrows)].
  - specialize (Hsame (Clock c)). rewrite later_same in Hsame. rewrite Hsame. by repeat split.
  - specialize (Hrows (Clock c)). rewrite later_same in Hrows. split; [|split; [|split]].
    + rewrite Hrows. unfold UpdateWhere. rewrite List.map_map. apply List.map_ext.
      intros r. by destruct (live Customer_Base r && has_id Customer_Base id r).
    + intros id' r Hid' Hin Hother. rewrite Hid in Hid'. injection Hid' as <-.
      rewrite Hrows in Hin. unfold UpdateWhere in Hin.
      apply in_map_iff in Hin as (r0 & Hr & Hin).
      destruct (live Customer_Base r0 && has_id Customer_Base id r0) eqn:Hhit;
        [|by subst r].
      apply andb_true_iff in Hhit as [_ Hhit]. apply N.eqb_eq in Hhit.
      exfalso. apply Hother. by subst r.
    + unfold PatchCustomer. rewrite Hid.
      destruct (FirstCustomer db id); [|done].
      destruct (is_empty _); [done|].
      destruct (UpdatesCustomer _ _ _ _) as [db1|] eqn:Hupdate; [|done].
      by apply UpdatesCustomer_Some in Hupdate as ->.
    + unfold PatchCustomer. rewrite Hid.
      destruct (FirstCustomer db id); [|done].
      destruct (is_empty _); [done|].
      destruct (UpdatesCustomer _ _ _ _) as [db1|] eqn:Hupdate; [|done].
      by apply UpdatesCustomer_Some in Hupdate as ->.
Qed.

(** ** The token behind a user *)

Lemma cut_space_Some (s before after : string) :
  cut_space s = Some (before, after) -> s = (before ++ " " ++ after)%string.
Proof.
  revert before. induction s as [|ch rest IH]; intros before; cbn [cut_space]; [done|].
  destruct (Ascii.eqb_spec ch " ") as [->|_]; [by intros [= <- <-]|].
  destruct (cut_space rest) as [[before' after']|]; [|done].
  intros [= <- <-]. by rewrite (IH before' eq_refl).
Qed.

(** X24. No user without a token.  When [JWTAuth] lets a request
    through, its Authorization header is a word equal to Bearer up to
    case, a space and a token; the JWT library has accepted that token
    under the configured secret, offered for HMAC signing methods only,
    and has reported it valid with a role that is not empty; and the
    user in the context is the user of the claims of that token. *)
Lemma JWTAuth_requires_valid_token (lib : Library) (jwtSecret : string) (c : Context)
    (db : DB) :
  Aborted (fst (JWTAuth lib jwtSecret c db)) = false ->
  exists scheme tokenString token,
    GetHeader c "Authorization" = (scheme ++ " " ++ tokenString)%string
    /\ lower_string scheme = "bearer"
    /\ jwt_ParseWithClaims lib tokenString (fun hmac => if hmac then Some jwtSecret else None)
       = inr token
    /\ Token_Valid token = true
    /\ Claims_Role (Token_Claims token) <> ""
    /\ GetUserFromContext (fst (JWTAuth lib jwtSecret c db))
       = ({| User_ID := Claims_UserID (Token_Claims token);
             User_Email := Claims_Email (Token_Claims token);
             User_Name := Claims_Name (Token_Claims token);
             User_Role := Claims_Role (Token_Claims token);
             User_IsActive := true |}, true).
Proof.
  unfold JWTAuth. intros Hpass.
  destruct (String.eqb (GetHeader c "Authorization") ""); [discriminate Hpass|].
  unfold SplitN2 in Hpass |- *.
  destruct (cut_space (GetHeader c "Authorization")) as [[scheme tokenString]|] eqn:Hcut;
    [|discriminate Hpass].
  destruct (negb (EqualFold scheme "Bearer")) eqn:Hscheme; [discriminate Hpass|].
  destruct (jwt_ParseWithClaims lib tokenString _) as [err|token] eqn:Hparse;
    [discriminate Hpass|].
  destruct (negb (Token_Valid token)) eqn:Hvalid; [discriminate Hpass|].
  destruct (String.eqb (Claims_Role (Token_Claims token)) "") eqn:Hrole;
    [discriminate Hpass|].
  exists scheme, tokenString, token. split; [by apply cut_space_Some|].
  split; [|split; [done|split; [|split]]].
  - apply negb_false_iff in Hscheme. unfold EqualFold in Hscheme.
    by apply String.eqb_eq in Hscheme.
  - by apply negb_false_iff in Hvalid.
  - by apply String.eqb_neq in Hrole.
  - cbn [fst]. unfold GetUserFromContext. by edestruct passed_keys as (-> & _ & _).
Qed.

Lemma JWTAuth_requires_valid_token_witness :
  let c := fixtures.incoming 1
             (fixtures.request [("Authorization", "BEARER admin.token")] [] []) in
  exists scheme tokenString token,
    GetHeader c "Authorization" = (scheme ++ " " ++ tokenString)%string
    /\ lower_string scheme = "bearer"
    /\ jwt_ParseWithClaims fixtures.lib tokenString
         (fun hmac => if hmac then Some "s3cret" else None) = inr token
    /\ Token_Valid token = true.
Proof.
  intros c.
  destruct (JWTAuth_requires_valid_token fixtures.lib "s3cret" c fixtures.empty_db)
    as (scheme & tokenString & token & Hheader & Hscheme & Hparse & Hvalid & _).
  { vm_compute. reflexivity. }
  by exists scheme, tokenString, token.
Defined.

(** ** Reading back what was written *)

Lemma First_append_new {A : Type} (base : A -> BaseModel) (rows : list A) (x : A) :
  Forall (fun r => ID (base r) <> ID (base x)) rows -> live base x = true ->
  First base (rows ++ [x]) (ID (base x)) = Some x.
Proof.
  intros Hnew Hlive. unfold First. apply FirstWhere_last; [|done|apply N.eqb_refl].
  apply not_true_is_false. intros (r & Hin & Hr)%existsb_exists.
  rewrite List.Forall_forall in Hnew. apply (Hnew r Hin). by apply N.eqb_eq.
Qed.

(** X25. What a deal handler answers is what [GetDeal] then reads.
    After [CreateDeal], on a table whose sequence is past every key, and
    after [UpdateDeal] and [PatchDeal], an answer 201 or 200 carries a
    deal which [GetDeal], asked for the key of that deal, returns
    unchanged with status 200. *)
Lemma GetDeal_reads_back (c c2 : Context) (db : DB) :
  (forall req d,
     deal_keys_below_seq db ->
     Writer (fst (CreateDeal (Some req) c db))
     = Some {| Status := StatusCreated; Payload := DealBody d |} ->
     ParamID c2 = Some (ID (Deal_Base d)) ->
     Writer (fst (GetDeal c2 (snd (CreateDeal (Some req) c db))))
     = Some {| Status := StatusOK; Payload := DealBody d |})
  /\ (forall req d,
        Writer (fst (UpdateDeal (Some req) c db))
        = Some {| Status := StatusOK; Payload := DealBody d |} ->
        ParamID c2 = Some (ID (Deal_Base d)) ->
        Writer (fst (GetDeal c2 (snd (UpdateDeal (Some req) c db))))
        = Some {| Status := StatusOK; Payload := DealBody d |})
  /\ (forall req d,
        Writer (fst (PatchDeal (Some req) c db))
        = Some {| Status := StatusOK; Payload := DealBody d |} ->
        ParamID c2 = Some (ID (Deal_Base d)) ->
        Writer (fst (GetDeal c2 (snd (PatchDeal (Some req) c db))))
        = Some {| Status := StatusOK; Payload := DealBody d |}).
Proof.
  split; [|split].
  - intros req d Hkeys Hanswer Hid2.
    destruct (CreateDeal (Some req) c db) as [c' db'] eqn:Hrun. cbn [fst snd] in *.
    unfold CreateDeal in Hrun.
    repeat head_case Hrun; simplify_eq; try discriminate Hanswer.
    match goal with H : gorm.CreateDeal _ _ _ = Some _ |- _ =>
      apply CreateDeal_Some in H as [-> ->] end.
    set (d0 := Deal_with_Base _ _) in *.
    assert (Hstored : FirstDeal (with_deals (deals db ++ [d0]) (deals_seq db + 1)%N db)
                        (ID (Deal_Base d0)) = Some d0).
    { apply (First_append_new Deal_Base); [|done].
      unfold deal_keys_below_seq in Hkeys. eapply Forall_impl; [exact Hkeys|].
      intros r Hr. cbn beta in Hr |- *. subst d0. cbn [Deal_with_Base Deal_Base fresh ID]. lia. }
    rewrite Hstored in Hanswer. cbn [default JSON Writer] in Hanswer.
    unfold Datatypes.id in Hanswer. injection Hanswer as <-.
    unfold GetDeal. rewrite Hid2, FirstDeal_logAudit.
    by rewrite Hstored.
  - intros req d Hanswer Hid2.
    destruct (UpdateDeal (Some req) c db) as [c' db'] eqn:Hrun. cbn [fst snd] in *.
    unfold UpdateDeal in Hrun.
    repeat head_case Hrun; simplify_eq; try discriminate Hanswer.
    lazymatch goal with
    | Hfirst : FirstDeal ?db0 ?id = Some ?d0, Hsave : SaveDeal ?db0 ?now ?x = Some _ |- _ =>
        destruct (FirstDeal_SaveDeal db0 now id d0 x _ _ Hfirst eq_refl Hsave) as [Hstored ->];
        pose proof Hfirst as (_ & _ & Hkey)%First_Some
    end.
    cbn [Deal_with_Base Deal_Base update_deal] in Hanswer, Hstored |- *.
    cbn [touch ID] in Hanswer |- *. rewrite Hkey, Hstored in Hanswer |- *.
    cbn [default JSON Writer] in Hanswer. unfold Datatypes.id in Hanswer.
    injection Hanswer as <-. cbn [Deal_with_Base Deal_Base touch ID] in Hid2.
    rewrite Hkey in Hid2. unfold GetDeal. rewrite Hid2, FirstDeal_logAudit, Hstored. done.
  - intros req d Hanswer Hid2.
    destruct (PatchDeal (Some req) c db) as [c' db'] eqn:Hrun. cbn [fst snd] in *.
    unfold PatchDeal in Hrun.
    repeat head_case Hrun; simplify_eq; try discriminate Hanswer.
    lazymatch goal with
    | Hfirst : FirstDeal ?db0 ?id = Some ?d0, Hsave : SaveDeal ?db0 ?now ?x = Some _ |- _ =>
        destruct (FirstDeal_SaveDeal db0 now id d0 x _ _ Hfirst eq_refl Hsave) as [Hstored ->];
        pose proof Hfirst as (_ & _ & Hkey)%First_Some
    end.
    cbn [Deal_with_Base Deal_Base transition_deal] in Hanswer, Hstored |- *.
    cbn [touch ID] in Hanswer |- *. rewrite Hkey, Hstored in Hanswer |- *.
    cbn [default JSON Writer] in Hanswer. unfold Datatypes.id in Hanswer.
    injection Hanswer as <-. cbn [Deal_with_Base Deal_Base touch ID] in Hid2.
    rewrite Hkey in Hid2. unfold GetDeal. rewrite Hid2, FirstDeal_logAudit, Hstored. done.
Qed.

(** ** Seeding over a deleted stage *)

Lemma find_app_None {A : Type} (f : A -> bool) (l1 l2 : list A) :
  List.find f l1 = None -> List.find f (l1 ++ l2) = List.find f l2.
Proof.
  induction l1 as [|x l1 IH]; [done|]. cbn [List.find app]. by destruct (f x).
Qed.

Lemma seed_blocked (stages : list PipelineStage) (now : Z) (t : Stages) (name : string) :
  In name (List.map Stage_Name stages) ->
  FirstStageByName t name = None ->
  existsb (fun r => String.eqb (Stage_Name r) name) (pipeline_stages t) = true ->
  is_Some (fst (seed stages now t)).
Proof.
  revert t. induction stages as [|s rest IH]; intros t Hin Hnone Hrow; [done|].
  cbn [seed]. destruct (String.eqb_spec (Stage_Name s) name) as [Hs|Hs].
  - rewrite Hs, Hnone. unfold CreateStage. rewrite Hs, Hrow, andb_false_r. cbn [fst]. by eexists.
  - destruct Hin as [Hin|Hin]; [done|].
    destruct (FirstStageByName t (Stage_Name s)); [by apply IH|].
    destruct (CreateStage t now s) as [[s' t1]|] eqn:Hcreate; [|by eexists].
    unfold CreateStage in Hcreate. destruct (_ && _) in Hcreate; [|done].
    injection Hcreate as <- <-. apply IH; [done|..].
    + unfold FirstStageByName, FirstWhere in Hnone |- *. cbn [pipeline_stages Create].
      rewrite (find_app_None _ _ _ Hnone). cbn [List.find Stage_with_Base Stage_Name].
      apply String.eqb_neq in Hs. by rewrite Hs, andb_false_r.
    + cbn [pipeline_stages Create]. rewrite existsb_app, Hrow. done.
Qed.

(** X26. A deleted stage blocks the seeding.  If the name of a deal
    stage is held by a row of [pipeline_stages] while no row of that name
    is left that is not deleted, [SeedPipelineStages] returns an error:
    its lookup skips the deleted row, and the insert then meets the
    unique index. *)
Lemma SeedPipelineStages_blocked_by_deleted_stage (now : Z) (t : Stages) (name : string) :
  IsValidDealStage name = true ->
  FirstStageByName t name = None ->
  existsb (fun r => String.eqb (Stage_Name r) name) (pipeline_stages t) = true ->
  is_Some (fst (SeedPipelineStages now t)).
Proof.
  intros Hvalid. apply seed_blocked.
  unfold IsValidDealStage, ValidDealStages in Hvalid.
  apply existsb_exists in Hvalid as (s & Hin & Hs). apply String.eqb_eq in Hs. by subst s.
Qed.

Lemma SeedPipelineStages_blocked_by_deleted_stage_witness :
  let deleted :=
    Stage_with_Base {| ID := 3; CreatedAt := 1; UpdatedAt := 1; DeletedAt := Some 5 |}
      (stage "proposal" "Proposal" 3 "#a855f7") in
  let t := {| pipeline_stages := [deleted]; pipeline_stages_seq := 6 |} in
  is_Some (fst (SeedPipelineStages 9 t))
  /\ Stage_Name <$> pipeline_stages (snd (SeedPipelineStages 9 t))
     = ["proposal"; "prospecting"; "qualification"].
Proof.
  intros deleted t. split; [|vm_compute; reflexivity].
  apply (SeedPipelineStages_blocked_by_deleted_stage 9 t "proposal"); vm_compute; reflexivity.
Defined.

(** ** Who may call which route *)

Import routes.

Lemma gates_decide (role : string) (gates : list Gate) (h : HandlerFunc) (c : Context)
    (db : DB) :
  Get c ContextKeyUserRole = Some (AnyString role) ->
  Aborted c = false ->
  (forallb (passes role) gates = true -> Next (List.map gate gates ++ [h]) c db = Next [h] c db)
  /\ (forallb (passes role) gates = false ->
      status_of (fst (Next (List.map gate gates ++ [h]) c db)) = Some StatusForbidden
      /\ snd (Next (List.map gate gates ++ [h]) c db) = db).
Proof.
  intros Hrole Hlive. induction gates as [|g gates [IHpass IHstop]]; [by split|].
  cbn [forallb List.map app].
  assert (Hgate : gate g c db
                  = if passes role g then (c, db)
                    else (AbortWithStatusJSON c StatusForbidden
                            (ErrorBody "forbidden" "INSUFFICIENT_PERMISSIONS"
                               match g with
                               | Permission _ =>
                                   "You do not have permission to perform this action"
                               | Role _ =>
                                   "You do not have permission to access this resource"
                               end), db)).
  { destruct g as [permission|allowedRoles]; cbn [gate passes];
      unfold RequirePermission, RequireRole; rewrite Hrole.
    - by destruct (HasPermission role permission).
    - by destruct (existsb _ allowedRoles). }
  destruct (passes role g) eqn:Hpass; cbn [andb].
  - rewrite Next_passed by (by rewrite Hgate). rewrite Hgate. cbn [fst snd]. by split.
  - split; [done|]. intros _. rewrite Next_aborted by (by rewrite Hgate). by rewrite Hgate.
Qed.

Lemma unknown_role_passes_nothing (role : string) (g : Gate) :
  role <> RoleAdmin -> role <> RoleManager -> role <> RoleAgent ->
  match g with Permission _ => True | Role allowedRoles => allowedRoles = [RoleAdmin] end ->
  passes role g = false.
Proof.
  unfold RoleAdmin, RoleManager, RoleAgent. intros Hadmin Hmanager Hagent Hg.
  destruct g as [permission|allowedRoles]; cbn [passes].
  - unfold HasPermission. rewrite RolePermissions_lookup.
    apply String.eqb_neq in Hadmin, Hmanager, Hagent. by rewrite Hadmin, Hmanager, Hagent.
  - subst allowedRoles. cbn [existsb]. apply String.eqb_neq in Hadmin.
    unfold RoleAdmin. by rewrite Hadmin.
Qed.

(** X27. The routes of the /admin group, once [JWTAuth] has let the
    request through: a user whose role is admin reaches the handler of
    every route; a user whose role is none of admin, manager and agent
    reaches the handlers of the GET routes only, and an agent reaches no
    handler of a DELETE route other than the removal of a tag from a
    customer; every other request is answered 403 by a gate, with the
    handler not run and the database unchanged. *)
Lemma admin_routes_authorization (lib : Library) (jwtSecret : string) (r : Route)
    (h : HandlerFunc) (c : Context) (db : DB) :
  In r admin_routes ->
  Aborted (fst (JWTAuth lib jwtSecret c db)) = false ->
  let c' := fst (JWTAuth lib jwtSecret c db) in
  let role := User_Role (fst (GetUserFromContext c')) in
  let outcome := Next (chain lib jwtSecret r h) c db in
  (role = RoleAdmin -> outcome = Next [h] c' db)
  /\ (role <> RoleAdmin -> role <> RoleManager -> role <> RoleAgent ->
      (Method r = "GET" -> outcome = Next [h] c' db)
      /\ (Method r <> "GET" ->
          status_of (fst outcome) = Some StatusForbidden /\ snd outcome = db))
  /\ (role = RoleAgent -> Method r = "DELETE" ->
      Path r <> "/admin/customers/:id/tags/:tagId" ->
      status_of (fst outcome) = Some StatusForbidden /\ snd outcome = db).
Proof.
  intros Hroute Hpass c' role outcome.
  destruct (JWTAuth_passed _ _ _ _ Hpass) as (claims & Hrole & Hc).
  assert (Hkey : Get c' ContextKeyUserRole = Some (AnyString role)).
  { subst role c'. rewrite Hc. unfold GetUserFromContext.
    edestruct passed_keys as (-> & _ & ->). done. }
  assert (Houtcome : outcome = Next (List.map gate (Gates r) ++ [h]) c' db).
  { subst outcome. unfold chain. rewrite Next_passed by done. by rewrite JWTAuth_db. }
  destruct (gates_decide role (Gates r) h c' db Hkey Hpass) as [Hopen Hshut].
  rewrite Houtcome. clear Houtcome Hkey Hc. clearbody role.
  split; [|split].
  - intros ->. apply Hopen. cbn [admin_routes In] in Hroute.
    repeat (destruct Hroute as [<-|Hroute]; [vm_compute; reflexivity|]). done.
  - intros Hadmin Hmanager Hagent. split.
    + intros Hmethod. apply Hopen. cbn [admin_routes In] in Hroute.
      repeat (destruct Hroute as [<-|Hroute];
              [first [reflexivity | discriminate Hmethod]|]). done.
    + intros Hmethod. apply Hshut. cbn [admin_routes In] in Hroute.
      repeat (destruct Hroute as [<-|Hroute];
              [first [by destruct Hmethod
                     | cbn [Gates route forallb];
                       by rewrite unknown_role_passes_nothing]|]). done.
  - intros -> Hmethod Hpath. apply Hshut. cbn [admin_routes In] in Hroute.
    repeat (destruct Hroute as [<-|Hroute];
            [first [discriminate Hmethod | by destruct Hpath | vm_compute; reflexivity]|]).
    done.
Qed.

Lemma admin_routes_authorization_witness :
  let agent : Library :=
    {| jwt_ParseWithClaims := fun _ _ =>
         inr {| Token_Valid := true; Token_Claims := fixtures.claims 8 "agent" |};
       validator_email := validator_email fixtures.lib;
       strings_ToLower := strings_ToLower fixtures.lib;
       time_Parse := time_Parse fixtures.lib;
       strconv_ParseFloat := strconv_ParseFloat fixtures.lib;
       sql_customer_cond_ok := sql_customer_cond_ok fixtures.lib;
       sql_customer_holds := sql_customer_holds fixtures.lib;
       sql_customer_le := sql_customer_le fixtures.lib;
       sql_deal_cond_ok := sql_deal_cond_ok fixtures.lib;
       sql_deal_holds := sql_deal_holds fixtures.lib;
       sql_deal_le := sql_deal_le fixtures.lib |} in
  let c := fixtures.incoming 30
             (fixtures.request [("Authorization", "Bearer agent.token")] [] [("id", "1")]) in
  let r := route "DELETE" "/admin/deals/:id" [Permission PermissionDelete] "DeleteDeal" in
  status_of (fst (Next (chain agent "s3cret" r DeleteDeal) c fixtures.db_deal))
  = Some StatusForbidden
  /\ snd (Next (chain agent "s3cret" r DeleteDeal) c fixtures.db_deal) = fixtures.db_deal.
Proof.
  intros agent c r.
  apply (admin_routes_authorization agent "s3cret" r DeleteDeal c fixtures.db_deal).
  - cbn [admin_routes In]. do 19 right. by left.
  - vm_compute. reflexivity.
  - vm_compute. reflexivity.
  - reflexivity.
  - discriminate.
Defined.

(** ** The pages of the other lists *)

(** X28. The contact list and the caller's activities are paged like
    the customers.  Within the range of [int], that is when (page - 1)
    times the page size does not exceed the largest [int], a page
    answered with 200 holds min(page_size, max(0, total - (page - 1) *
    page_size)) rows, its total_pages is the ceiling of the total over
    the page size, and its page and page size are those of the
    pagination block. *)
Lemma other_pages_count (c : Context) (db : DB) (s : Store) :
  let page := fst (pagination c) in
  let pageSize := snd (pagination c) in
  (page - 1) * pageSize <= strconv.maxInt64 ->
  (forall r,
     ListContacts c db = Success StatusOK r ->
     ContactList_Page r = page /\ ContactList_PageSize r = pageSize
     /\ ContactList_TotalPages r = spec.total_pages (ContactList_Total r) pageSize
     /\ Z.of_nat (length (ContactList_Data r))
        = spec.page_items (ContactList_Total r) page pageSize)
  /\ (forall r,
        GetMyActivities c s = Success StatusOK r ->
        ActivityList_Page r = page /\ ActivityList_PageSize r = pageSize
        /\ ActivityList_TotalPages r = spec.total_pages (ActivityList_Total r) pageSize
        /\ Z.of_nat (length (ActivityList_Data r))
           = spec.page_items (ActivityList_Total r) page pageSize).
Proof.
  intros page pageSize Hrange. subst page pageSize.
  pose proof (pagination_range c) as (Hpage & Hsize & _).
  assert (Hwrap : wrap_int ((fst (pagination c) - 1) * snd (pagination c))
                  = (fst (pagination c) - 1) * snd (pagination c))
    by (apply wrap_int_in_range; unfold strconv.maxInt64 in *; nia).
  split.
  - intros r. unfold ListContacts.
    destruct (ParamID c) as [customerID|]; [|done].
    destruct (FirstCustomer db customerID); [|done].
    destruct (pagination c) as [page pageSize]. cbn [fst snd] in *.
    intros [= <-]. cbn [ContactList_Data ContactList_Total ContactList_Page
      ContactList_PageSize ContactList_TotalPages].
    split; [done|]. split; [done|]. split; [apply ceil_div_spec; lia|].
    rewrite Hwrap, page_length by done.
    by rewrite (Permutation_length (merge_sort_Permutation _ _)).
  - intros r. unfold GetMyActivities.
    destruct (GetUserFromContext c) as [user [|]]; [|done]. cbn [negb].
    destruct (pagination c) as [page pageSize]. cbn [fst snd] in *.
    intros [= <-]. cbn [ActivityList_Data ActivityList_Total ActivityList_Page
      ActivityList_PageSize ActivityList_TotalPages].
    split; [done|]. split; [done|]. split; [apply ceil_div_spec; lia|].
    rewrite Hwrap, page_length by done.
    by rewrite (Permutation_length (merge_sort_Permutation _ _)).
Qed.

Lemma other_pages_count_witness :
  let admin := fun now => fixtures.as_admin now (fixtures.request [] [] [("id", "1")]) in
  let db := snd (CreateContact (Some (fixtures.contact_request "Bob" false)) (admin 20)
                   fixtures.db_jane) in
  let c := fixtures.as_admin 30
             (fixtures.request [] [("page", "2"); ("page_size", "1")] [("id", "1")]) in
  exists r,
    ListContacts c db = Success StatusOK r
    /\ ContactList_Total r = 1
    /\ ContactList_TotalPages r = spec.total_pages 1 1
    /\ Z.of_nat (length (ContactList_Data r)) = spec.page_items 1 2 1.
Proof.
  intros admin db c.
  destruct (ListContacts c db) as [|status r] eqn:Hrun; [by vm_compute in Hrun|].
  assert (Hstatus : status = StatusOK) by (vm_compute in Hrun; by injection Hrun as <- _).
  subst status. exists r. split; [reflexivity|].
  destruct (other_pages_count c db no_activities) as [Hcontacts _].
  { vm_compute. discriminate. }
  destruct (Hcontacts r Hrun) as (_ & _ & Hpages & Hlength).
  assert (Htotal : ContactList_Total r = 1) by (vm_compute in Hrun; by injection Hrun as <-).
  rewrite Htotal in Hpages, Hlength. by repeat split.
Defined.
